(** * Social Video AI Transcriber: a shallow embedding of the pipeline

    The development follows the three source units of the application:
    - [services/geminiService.ts]  (module [Gemini]): the Transcriber;
    - [services/apifyService.ts]   (module [Apify]):  the Channel Lister
      and the two normalisation mappers;
    - [App.tsx]                    (module [App]):    the pipeline
      controller ([handleScan], [handleTranscribe], [handleRetry], ...).

    JavaScript strings are modelled as [string], read as the UTF-8 bytes
    of the text.  All needles searched for by the program are ASCII, and
    UTF-8 never places an ASCII byte inside a multi-byte sequence, so
    substring search on bytes agrees with substring search on UTF-16
    code units.  Objects used as dictionaries ([mp3Links],
    [transcriptStates], [transcriptCache]) are [gmap string _] (own
    properties only).  Everything the program awaits from the outside
    world (HTTP responses, the model's answer, the operator pressing
    Stop) is read from an explicit oracle, and every request the program
    sends is appended to a trace of [Event]s. *)

From Stdlib Require Import String Ascii ZArith List Lia DecimalString.
From stdpp Require Import gmap strings list.

Open Scope string_scope.

(** ** String built-ins used by the program *)

Module JsString.

(** [hay.includes(needle)] *)
Fixpoint includes (hay needle : string) : bool :=
  String.prefix needle hay ||
  match hay with
  | EmptyString => false
  | String _ rest => includes rest needle
  end.

(** [s.startsWith(p)] *)
Definition startsWith (s p : string) : bool := String.prefix p s.

(** [s.substring(1)]: drops the first code unit.  Both call sites apply
    it to a string that starts with the ASCII character [@]. *)
Definition substring1 (s : string) : string :=
  match s with
  | EmptyString => EmptyString
  | String _ rest => rest
  end.

(** A string is truthy when it is not empty. *)
Definition nonempty (s : string) : bool :=
  match s with
  | EmptyString => false
  | String _ _ => true
  end.

(** Case folding of the [i] flag of a regular expression without the [u]
    flag: a code unit outside ASCII is never identified with an ASCII one,
    and inside ASCII exactly the 26 letters are identified with their
    other case. *)
Definition fold_ascii (c : ascii) : ascii :=
  let n := nat_of_ascii c in
  if (65 <=? n)%nat && (n <=? 90)%nat then ascii_of_nat (n + 32) else c.

Fixpoint fold_case (s : string) : string :=
  match s with
  | EmptyString => EmptyString
  | String c rest => String (fold_ascii c) (fold_case rest)
  end.

(** [/lit/i.test(s)] for a literal [lit] given in lower case. *)
Definition test_ci (lit s : string) : bool := includes (fold_case s) lit.

(** [s.split(sep)] for a one-character separator. *)
Fixpoint split_on (sep : ascii) (s : string) : list string :=
  match s with
  | EmptyString => [EmptyString]
  | String c rest =>
      if Ascii.eqb c sep then EmptyString :: split_on sep rest
      else match split_on sep rest with
           | h :: t => String c h :: t
           | [] => [String c EmptyString]
           end
  end.

Definition byte_is (c : ascii) (n : nat) : bool := (nat_of_ascii c =? n)%nat.

(** The white space and line terminators removed by [trim], by the length
    of their UTF-8 encoding: TAB, LF, VT, FF, CR, SP; U+00A0; U+1680,
    U+2000..U+200A, U+2028, U+2029, U+202F, U+205F, U+3000, U+FEFF. *)
Definition ws1 (a : ascii) : bool :=
  let n := nat_of_ascii a in ((9 <=? n) && (n <=? 13) || (n =? 32))%nat.

Definition ws2 (a b : ascii) : bool := byte_is a 194 && byte_is b 160.

Definition ws3 (a b c : ascii) : bool :=
  let n := nat_of_ascii c in
  (byte_is a 225 && byte_is b 154 && byte_is c 128)
  || (byte_is a 226 && byte_is b 128 &&
      (((128 <=? n) && (n <=? 138)) || (n =? 168) || (n =? 169) || (n =? 175))%nat)
  || (byte_is a 226 && byte_is b 129 && byte_is c 159)
  || (byte_is a 227 && byte_is b 128 && byte_is c 128)
  || (byte_is a 239 && byte_is b 187 && byte_is c 191).

Fixpoint trimStart (s : string) : string :=
  match s with
  | EmptyString => EmptyString
  | String a r1 =>
      if ws1 a then trimStart r1
      else match r1 with
           | EmptyString => s
           | String b r2 =>
               if ws2 a b then trimStart r2
               else match r2 with
                    | EmptyString => s
                    | String c r3 => if ws3 a b c then trimStart r3 else s
                    end
           end
  end.

Fixpoint rev_onto (s acc : string) : string :=
  match s with
  | EmptyString => acc
  | String c rest => rev_onto rest (String c acc)
  end.

Definition reverse (s : string) : string := rev_onto s EmptyString.

(** The same scan on the reversed bytes, for the end of the string. *)
Fixpoint strip_reversed (s : string) : string :=
  match s with
  | EmptyString => EmptyString
  | String a r1 =>
      if ws1 a then strip_reversed r1
      else match r1 with
           | EmptyString => s
           | String b r2 =>
               if ws2 b a then strip_reversed r2
               else match r2 with
                    | EmptyString => s
                    | String c r3 => if ws3 c b a then strip_reversed r3 else s
                    end
           end
  end.

(** [s.trim()] *)
Definition trim (s : string) : string :=
  reverse (strip_reversed (reverse (trimStart s))).

(** Template-literal rendering of a non-negative integer counter. *)
Definition show_nat (n : nat) : string :=
  NilEmpty.string_of_uint (Nat.to_uint n).

End JsString.

(** ** Exceptions and completions *)

(** A thrown value: an [Error] instance with its [message], or anything
    else (with what [String(e)] gives for it). *)
Inductive Thrown : Type :=
| ThrownError (message : string)
| ThrownOther (shown : string).

(** The outcome of a call that either returns or throws. *)
Inductive Completion (A : Type) : Type :=
| Returned (a : A)
| Threw (e : Thrown).

Arguments Returned {A} a.
Arguments Threw {A} e.

(** ** services/geminiService.ts *)

Module Gemini.
Import JsString.

(** The request handed to [ai.models.generateContent]. *)
Record GenerateRequest : Type := {
  req_apiKey : string;
  req_model : string;
  req_prompt : string;
  req_mimeType : string;
  req_data : string
}.

(** What the awaited call gives back: a response whose [text] may be
    missing, or an exception. *)
Inductive GenerateOutcome : Type :=
| GenResponse (text : option string)
| GenThrows (e : Thrown).

Definition model_name : string := "gemini-2.5-flash".

Definition prompt : string :=
  "Hãy phiên âm chính xác nội dung từ file âm thanh này sang văn bản tiếng Việt. Chỉ trả về nội dung lời thoại, không thêm bất kỳ lời dẫn hay ghi chú nào.".

Definition key_required_message : string := "Google AI API Key is required.".

Definition no_transcript_message : string := "Gemini không trả về lời thoại.".

Definition unknown_error_message : string := "Lỗi không xác định khi gọi Gemini.".

Definition quota_message : string :=
  "Đã đạt giới hạn quota của Google AI (thường là 15 yêu cầu/phút). Vui lòng đợi một lát rồi thử lại.".

Definition invalid_key_message : string :=
  "Google AI API Key được cung cấp không hợp lệ. Vui lòng kiểm tra lại key của bạn.".

(** [errorMessage.includes('429') || /rate limit|quota/i.test(errorMessage)] *)
Definition is_quota (errorMessage : string) : bool :=
  includes errorMessage "429"
  || (test_ci "rate limit" errorMessage || test_ci "quota" errorMessage).

(** [/API_KEY_INVALID/i.test(errorMessage) || errorMessage.includes('400')] *)
Definition is_invalid_key (errorMessage : string) : bool :=
  test_ci "api_key_invalid" errorMessage || includes errorMessage "400".

(** The body of the [catch] block: the message of the error re-thrown. *)
Definition rethrown_message (e : Thrown) : string :=
  let errorMessage :=
    match e with
    | ThrownError m => m
    | ThrownOther _ => unknown_error_message
    end in
  if is_quota errorMessage then quota_message
  else if is_invalid_key errorMessage then invalid_key_message
  else errorMessage.

(** The body of the [try] block, after the call has been answered. *)
Definition read_transcript (o : GenerateOutcome) : Completion string :=
  match o with
  | GenResponse (Some transcript) =>
      if nonempty transcript then Returned transcript
      else Threw (ThrownError no_transcript_message)
  | GenResponse None => Threw (ThrownError no_transcript_message)
  | GenThrows e => Threw e
  end.

(** [transcribeAudioWithGemini]: the completion and the requests sent. *)
Definition transcribeAudioWithGemini
    (generateContent : GenerateRequest -> GenerateOutcome)
    (googleApiKey base64Media mimeType : string)
  : Completion string * list GenerateRequest :=
  if negb (nonempty googleApiKey) then
    (Threw (ThrownError key_required_message), [])
  else
    let request := {| req_apiKey := googleApiKey; req_model := model_name;
                      req_prompt := prompt; req_mimeType := mimeType;
                      req_data := base64Media |} in
    (match read_transcript (generateContent request) with
     | Returned transcript => Returned transcript
     | Threw e => Threw (ThrownError (rethrown_message e))
     end, [request]).

End Gemini.

(** ** The JavaScript runtime *)

Module Js.
Import JsString.

(** What [new URL(s)] exposes to the program: the [pathname], and the
    value of the [id] search parameter when there is one. *)
Record URL : Type := {
  pathname : string;
  search_id : option string
}.

(** The parts of the platform the program relies on and that are not
    re-implemented here: IEEE numbers and their conversions, dates,
    Unicode lower-casing and the URL parser.  [url_parse] is [None] when
    the [URL] constructor throws.  [url_parse_scheme] records that an
    absolute URL starts with an ASCII letter once leading controls and
    spaces are gone, so its trimmed text never starts with [@]. *)
Class JsRuntime : Type := {
  num : Type;
  num_of_Z : Z -> num;
  num_nan : num;
  num_mul : num -> num -> num;
  num_div : num -> num -> num;
  num_truthy : num -> bool;
  num_same : num -> num -> bool;
  num_to_string : num -> string;
  string_to_num : string -> num;
  date_toISOString : num -> option string;
  range_error_message : string;
  type_error_message : string -> string;
  toLowerCase : string -> string;
  url_parse : string -> option URL;
  url_parse_scheme :
    forall s u, url_parse s = Some u -> startsWith (trim s) "@" = false
}.

Section Values.
Context `{JsRuntime}.

(** Run-time values of type [any], as [response.json()] produces them. *)
#[warnings="-register-all"]
Inductive JsVal : Type :=
| JUndef
| JNull
| JBool (b : bool)
| JNum (n : num)
| JStr (s : string)
| JObj (fields : list (string * JsVal))
| JArr (items : list JsVal).

(** [v == null] *)
Definition nullish (v : JsVal) : bool :=
  match v with
  | JUndef | JNull => true
  | _ => false
  end.

(** ToBoolean *)
Definition truthy (v : JsVal) : bool :=
  match v with
  | JUndef | JNull => false
  | JBool b => b
  | JNum n => num_truthy n
  | JStr s => nonempty s
  | JObj _ | JArr _ => true
  end.

Fixpoint assoc (k : string) (fields : list (string * JsVal)) : JsVal :=
  match fields with
  | [] => JUndef
  | (k', v) :: rest => if String.eqb k k' then v else assoc k rest
  end.

(** [v.k] for [v] not nullish and [k] one of the field names the program
    reads: none of them exists on a primitive, an array or
    [Object.prototype]. *)
Definition get (v : JsVal) (k : string) : JsVal :=
  match v with
  | JObj fields => assoc k fields
  | _ => JUndef
  end.

(** [v?.k] *)
Definition opt_get (v : JsVal) (k : string) : JsVal :=
  if nullish v then JUndef else get v k.

(** [a ?? b] *)
Definition coalesce (a b : JsVal) : JsVal := if nullish a then b else a.

(** [a || b] *)
Definition or_else (a b : JsVal) : JsVal := if truthy a then a else b.

(** ToString *)
Fixpoint js_to_string (v : JsVal) : string :=
  match v with
  | JUndef => "undefined"
  | JNull => "null"
  | JBool true => "true"
  | JBool false => "false"
  | JNum n => num_to_string n
  | JStr s => s
  | JObj _ => "[object Object]"
  | JArr items =>
      (fix join (l : list JsVal) : string :=
         match l with
         | [] => EmptyString
         | x :: rest =>
             let shown :=
               match x with
               | JUndef | JNull => EmptyString
               | _ => js_to_string x
               end in
             match rest with
             | [] => shown
             | _ :: _ => shown +:+ "," +:+ join rest
             end
         end) items
  end.

(** ToNumber *)
Definition js_to_number (v : JsVal) : num :=
  match v with
  | JUndef => num_nan
  | JNull => num_of_Z 0
  | JBool true => num_of_Z 1
  | JBool false => num_of_Z 0
  | JNum n => n
  | JStr s => string_to_num s
  | JObj _ => num_nan
  | JArr _ => string_to_num (js_to_string v)
  end.

(** SameValueZero, the equality of [Set]; objects are compared by their
    contents. *)
Fixpoint js_same (a b : JsVal) : bool :=
  match a, b with
  | JUndef, JUndef => true
  | JNull, JNull => true
  | JBool x, JBool y => Bool.eqb x y
  | JNum x, JNum y => num_same x y
  | JStr x, JStr y => String.eqb x y
  | JObj fa, JObj fb =>
      (fix same_fields (la lb : list (string * JsVal)) : bool :=
         match la, lb with
         | [], [] => true
         | (ka, va) :: ra, (kb, vb) :: rb =>
             String.eqb ka kb && js_same va vb && same_fields ra rb
         | _, _ => false
         end) fa fb
  | JArr la, JArr lb =>
      (fix same_items (xa xb : list JsVal) : bool :=
         match xa, xb with
         | [], [] => true
         | x :: ra, y :: rb => js_same x y && same_items ra rb
         | _, _ => false
         end) la lb
  | _, _ => false
  end.

End Values.
End Js.

(** ** types.ts *)

Module Types.
Import Js.

Section Records.
Context `{JsRuntime}.

Record AuthorMeta : Type := {
  name : JsVal;
  nickName : JsVal;
  avatar : JsVal
}.

Record VideoMeta : Type := {
  duration : JsVal;
  height : JsVal;
  width : JsVal
}.

Record MusicMeta : Type := {
  musicName : JsVal;
  musicAuthor : JsVal;
  musicOriginal : JsVal
}.

(** The interface [SocialVideo].  The mappers fill it from values of
    type [any], so at run time every field holds a [JsVal]. *)
Record SocialVideo : Type := {
  id : JsVal;
  webVideoUrl : JsVal;
  text : JsVal;
  createTime : JsVal;
  createTimeISO : JsVal;
  authorMeta : AuthorMeta;
  diggCount : JsVal;
  commentCount : JsVal;
  shareCount : JsVal;
  playCount : JsVal;
  videoMeta : VideoMeta;
  musicMeta : MusicMeta
}.

End Records.

Inductive Status : Type := idle | matched | loading | success | error.

(** One entry of [TranscriptState]. *)
Record TranscriptEntry : Type := {
  status : Status;
  entry_text : string
}.

Inductive AppStep : Type := scan | match_ | results.

End Types.

(** ** services/apifyService.ts *)

Module Apify.
Import JsString Js Types.

Section WithRuntime.
Context `{JsRuntime}.

Definition TIKTOK_ACTOR_URL : string :=
  "https://api.apify.com/v2/acts/0FXVyOXXEmdGcV88a/run-sync-get-dataset-items".

Definition FACEBOOK_ACTOR_URL : string :=
  "https://api.apify.com/v2/acts/bQdAW9j5tP0dkOO8g/run-sync-get-dataset-items".

Definition FINDUID_URL : string := "https://finduid.net/api/convert-uid".

(** [new Date(0).toISOString()] *)
Definition epoch_iso : string := "1970-01-01T00:00:00.000Z".

(** [mapTikTokItemToSocialVideo]; [random] is what [Math.random()] gives
    if it is called.  Reading a property of a nullish [item] throws. *)
Definition mapTikTokItemToSocialVideo (random : num) (item : JsVal)
  : Completion SocialVideo :=
  if nullish item then Threw (ThrownError (type_error_message "id"))
  else Returned {|
    id := coalesce (get item "id")
            (coalesce (get item "webVideoUrl")
               (JStr ("fallback-" +:+ num_to_string random)));
    webVideoUrl := coalesce (get item "webVideoUrl") (JStr EmptyString);
    text := coalesce (get item "text") (JStr EmptyString);
    createTime := coalesce (get item "createTime") (JNum (num_of_Z 0));
    createTimeISO := coalesce (get item "createTimeISO") (JStr epoch_iso);
    authorMeta := {|
      name := coalesce (opt_get (get item "authorMeta") "name") (JStr "Unknown");
      nickName := coalesce (opt_get (get item "authorMeta") "nickName")
                    (coalesce (opt_get (get item "authorMeta") "name")
                       (JStr "Unknown"));
      avatar := coalesce (opt_get (get item "authorMeta") "avatar")
                  (JStr EmptyString)
    |};
    diggCount := coalesce (get item "diggCount") (JNum (num_of_Z 0));
    commentCount := coalesce (get item "commentCount") (JNum (num_of_Z 0));
    shareCount := coalesce (get item "shareCount") (JNum (num_of_Z 0));
    playCount := coalesce (get item "playCount") (JNum (num_of_Z 0));
    videoMeta := {|
      duration := coalesce (opt_get (get item "videoMeta") "duration")
                    (JNum (num_of_Z 0));
      height := coalesce (opt_get (get item "videoMeta") "height")
                  (JNum (num_of_Z 0));
      width := coalesce (opt_get (get item "videoMeta") "width")
                 (JNum (num_of_Z 0))
    |};
    musicMeta := {|
      musicName := coalesce (opt_get (get item "musicMeta") "musicName")
                     (JStr "N/A");
      musicAuthor := coalesce (opt_get (get item "musicMeta") "musicAuthor")
                       (JStr "N/A");
      musicOriginal := coalesce (opt_get (get item "musicMeta") "musicOriginal")
                         (JBool false)
    |}
  |}.

(** [item.creation_time ? item.creation_time * 1000 : Date.now()] *)
Definition facebook_createTime (now : num) (item : JsVal) : num :=
  if truthy (get item "creation_time")
  then num_mul (js_to_number (get item "creation_time")) (num_of_Z 1000)
  else now.

(** [item.shareable_url || item['playback_video/permalink_url'] || ''] *)
Definition facebook_postUrl (item : JsVal) : JsVal :=
  or_else (or_else (get item "shareable_url")
                   (get item "playback_video/permalink_url"))
          (JStr EmptyString).

(** [mapFacebookItemToSocialVideo]; [now] is what [Date.now()] gives if it
    is called.  [toISOString] throws a [RangeError] on an invalid date. *)
Definition mapFacebookItemToSocialVideo (now : num) (item : JsVal)
  : Completion SocialVideo :=
  if nullish item then Threw (ThrownError (type_error_message "creation_time"))
  else
    let createTime := facebook_createTime now item in
    let postUrl := facebook_postUrl item in
    match date_toISOString createTime with
    | None => Threw (ThrownError range_error_message)
    | Some iso => Returned {|
        id := coalesce (get item "video_id")
                (coalesce (get item "post_id") postUrl);
        webVideoUrl := postUrl;
        text := coalesce (get item "message") (JStr EmptyString);
        createTime := JNum createTime;
        createTimeISO := JStr iso;
        authorMeta := {|
          name := coalesce (get item "video_owner/name") (JStr "Unknown");
          nickName := coalesce (get item "video_owner/name") (JStr "Unknown");
          avatar := coalesce (get item "video_owner/profile_pic_url")
                      (JStr EmptyString)
        |};
        diggCount := coalesce (get item "reactions_count") (JNum (num_of_Z 0));
        commentCount := coalesce (get item "comments_count") (JNum (num_of_Z 0));
        shareCount := coalesce (get item "shares_count") (JNum (num_of_Z 0));
        playCount := coalesce (get item "views_count") (JNum (num_of_Z 0));
        videoMeta := {|
          duration :=
            if truthy (get item "playable_duration_in_ms")
            then JNum (num_div (js_to_number (get item "playable_duration_in_ms"))
                               (num_of_Z 1000))
            else JNum (num_of_Z 0);
          height := coalesce (get item "playback_video/height") (JNum (num_of_Z 0));
          width := coalesce (get item "playback_video/width") (JNum (num_of_Z 0))
        |};
        musicMeta := {|
          musicName := coalesce (get item "track_title") (JStr "N/A");
          musicAuthor := coalesce (get item "video_owner/name") (JStr "N/A");
          musicOriginal := coalesce (get item "is_original_audio_on_facebook")
                             (JBool false)
        |}
      |}
    end.

(** *** Requests and responses *)

Inductive Body : Type :=
| JsonBody (v : JsVal)
| FormBody (s : string).

(** A [fetch(url, {method: 'POST', headers, body})] call. *)
Record Request : Type := {
  req_url : string;
  req_contentType : string;
  req_body : Body
}.

(** The parts of a [Response] the program reads; [resp_json] is the
    completion of [response.json()]. *)
Record Response : Type := {
  resp_ok : bool;
  resp_statusText : string;
  resp_json : Completion JsVal
}.

(** The network: what each awaited [fetch] completes with. *)
Definition Fetch : Type := Request -> Completion Response.

Definition token_required_message : string := "Apify API Token is required.".

Definition no_videos_message : string :=
  "Apify không tìm thấy video nào hoặc trả về định dạng dữ liệu không mong muốn.".

Definition no_video_posts_message : string :=
  "Apify scraper ran successfully, but no video posts were found in the results. The URL might not contain recent videos or they may not be publicly accessible.".

(** The [if (!response.ok)] block shared by the two fetchers. *)
Definition api_error (response : Response) : Thrown :=
  match resp_json response with
  | Threw e => e
  | Returned errorData =>
      if nullish errorData then ThrownError (type_error_message "error")
      else ThrownError
             ("Apify API Error: " +:+
              js_to_string
                (or_else (opt_get (get errorData "error") "message")
                         (JStr (resp_statusText response))))
  end.

(** [rawData.map(f)], where the [i]-th call may throw. *)
Fixpoint map_items (f : nat -> JsVal -> Completion SocialVideo)
    (i : nat) (items : list JsVal) : Completion (list SocialVideo) :=
  match items with
  | [] => Returned []
  | item :: rest =>
      match f i item with
      | Threw e => Threw e
      | Returned v =>
          match map_items f (S i) rest with
          | Threw e => Threw e
          | Returned vs => Returned (v :: vs)
          end
      end
  end.

(** The channel handle computed by [fetchTikTokData] before the request. *)
Definition tiktok_profileName (tiktokUrl : string) : string :=
  let profileName := trim tiktokUrl in
  match url_parse tiktokUrl with
  | Some urlObject =>
      let pathParts :=
        List.filter (fun part => nonempty part && startsWith part "@")
                    (split_on "/" (pathname urlObject)) in
      match pathParts with
      | first :: _ => substring1 first
      | [] => profileName
      end
  | None =>
      if startsWith profileName "@" then substring1 profileName
      else profileName
  end.

Definition tiktok_request (apifyToken profileName : string) (limit : num)
  : Request :=
  {| req_url := TIKTOK_ACTOR_URL +:+ "?token=" +:+ apifyToken;
     req_contentType := "application/json";
     req_body := JsonBody (JObj [
       ("profiles", JArr [JStr profileName]);
       ("resultsPerPage", JNum limit);
       ("profileScrapeSections", JArr [JStr "videos"]);
       ("profileSorting", JStr "latest");
       ("excludePinnedPosts", JBool false);
       ("shouldDownloadVideos", JBool false);
       ("shouldDownloadCovers", JBool false);
       ("shouldDownloadSubtitles", JBool false);
       ("shouldDownloadSlideshowImages", JBool false);
       ("shouldDownloadAvatars", JBool false)]) |}.

(** [fetchTikTokData]: the completion and the requests sent.  [random i]
    is the value of [Math.random()] while item [i] is mapped. *)
Definition fetchTikTokData (fetch : Fetch) (random : nat -> num)
    (apifyToken tiktokUrl : string) (limit : num)
  : Completion (list SocialVideo) * list Request :=
  if negb (nonempty apifyToken) then
    (Threw (ThrownError token_required_message), [])
  else if negb (nonempty tiktokUrl) then
    (Threw (ThrownError "TikTok Channel URL is required."), [])
  else
    let request :=
      tiktok_request apifyToken (tiktok_profileName tiktokUrl) limit in
    (match fetch request with
     | Threw e => Threw e
     | Returned response =>
         if negb (resp_ok response) then Threw (api_error response)
         else match resp_json response with
              | Threw e => Threw e
              | Returned (JArr (item :: rest)) =>
                  map_items (fun i => mapTikTokItemToSocialVideo (random i))
                            0 (item :: rest)
              | Returned _ => Threw (ThrownError no_videos_message)
              end
     end, [request]).

(** [convertFacebookUidToUrl]: every failure falls back to [url]. *)
Definition convertFacebookUidToUrl (fetch : Fetch) (url : string)
  : string * list Request :=
  match url_parse url with
  | None => (url, [])
  | Some urlObject =>
      if includes (pathname urlObject) "profile.php" then
        match search_id urlObject with
        | None => (url, [])
        | Some uid =>
            if negb (nonempty uid) then (url, [])
            else
              let request :=
                {| req_url := FINDUID_URL;
                   req_contentType := "application/x-www-form-urlencoded";
                   req_body := FormBody ("uid=" +:+ uid) |} in
              (match fetch request with
               | Threw _ => url
               | Returned response =>
                   if negb (resp_ok response) then url
                   else match resp_json response with
                        | Threw _ => url
                        | Returned data =>
                            if truthy data then
                              match get data "username" with
                              | JStr username =>
                                  if nonempty (trim username)
                                  then "https://www.facebook.com/" +:+ trim username
                                  else url
                              | _ => url
                              end
                            else url
                        end
               end, [request])
        end
      else (url, [])
  end.

(** The filter of [fetchFacebookData]. *)
Definition isFacebookVideoPost (item : JsVal) : bool :=
  truthy item
  && truthy (or_else (get item "video_id") (get item "post_id"))
  && truthy (or_else (get item "shareable_url")
                     (get item "playback_video/permalink_url")).

Definition facebook_request (apifyToken finalFacebookUrl : string)
    (limit : num) : Request :=
  {| req_url := FACEBOOK_ACTOR_URL +:+ "?token=" +:+ apifyToken;
     req_contentType := "application/json";
     req_body := JsonBody (JObj [
       ("profileUrls", JArr [JStr (trim finalFacebookUrl)]);
       ("maxResults", JNum limit)]) |}.

(** [fetchFacebookData]; [now i] is the value of [Date.now()] while the
    [i]-th item kept by the filter is mapped. *)
Definition fetchFacebookData (fetch : Fetch) (now : nat -> num)
    (apifyToken facebookUrl : string) (limit : num)
  : Completion (list SocialVideo) * list Request :=
  if negb (nonempty apifyToken) then
    (Threw (ThrownError token_required_message), [])
  else if negb (nonempty facebookUrl) then
    (Threw (ThrownError "Facebook Page/Profile URL is required."), [])
  else
    let '(finalFacebookUrl, sent) := convertFacebookUidToUrl fetch facebookUrl in
    let request := facebook_request apifyToken finalFacebookUrl limit in
    (match fetch request with
     | Threw e => Threw e
     | Returned response =>
         if negb (resp_ok response) then Threw (api_error response)
         else match resp_json response with
              | Threw e => Threw e
              | Returned (JArr (item :: rest)) =>
                  match map_items (fun i => mapFacebookItemToSocialVideo (now i))
                          0 (List.filter isFacebookVideoPost (item :: rest)) with
                  | Threw e => Threw e
                  | Returned [] => Threw (ThrownError no_video_posts_message)
                  | Returned mappedData => Returned mappedData
                  end
              | Returned _ => Threw (ThrownError no_videos_message)
              end
     end, (sent ++ [request])%list).

End WithRuntime.
End Apify.

(** ** App.tsx: the pipeline controller *)

Module App.
Import JsString Js Types.

Section WithRuntime.
Context `{JsRuntime}.

(** The React state of the component, with the [stopRequest] ref. *)
Record AppState : Type := {
  step : AppStep;
  googleApiKey : string;
  apifyToken : string;
  channelUrl : string;
  resultsLimit : num;
  isProcessing : bool;
  status : string;
  videos : list SocialVideo;
  mp3Links : gmap string string;
  transcriptStates : gmap string TranscriptEntry;
  transcriptCache : gmap string string;
  retryingIds : list JsVal;
  stopRequest : bool
}.

Definition setStep (x : AppStep) (st : AppState) : AppState :=
  {| step := x; googleApiKey := googleApiKey st; apifyToken := apifyToken st;
     channelUrl := channelUrl st; resultsLimit := resultsLimit st;
     isProcessing := isProcessing st; status := status st;
     videos := videos st; mp3Links := mp3Links st;
     transcriptStates := transcriptStates st;
     transcriptCache := transcriptCache st; retryingIds := retryingIds st;
     stopRequest := stopRequest st |}.

Definition setChannelUrl (x : string) (st : AppState) : AppState :=
  {| step := step st; googleApiKey := googleApiKey st;
     apifyToken := apifyToken st;
     channelUrl := x; resultsLimit := resultsLimit st;
     isProcessing := isProcessing st; status := status st;
     videos := videos st; mp3Links := mp3Links st;
     transcriptStates := transcriptStates st;
     transcriptCache := transcriptCache st; retryingIds := retryingIds st;
     stopRequest := stopRequest st |}.

Definition setIsProcessing (x : bool) (st : AppState) : AppState :=
  {| step := step st; googleApiKey := googleApiKey st;
     apifyToken := apifyToken st;
     channelUrl := channelUrl st; resultsLimit := resultsLimit st;
     isProcessing := x; status := status st;
     videos := videos st; mp3Links := mp3Links st;
     transcriptStates := transcriptStates st;
     transcriptCache := transcriptCache st; retryingIds := retryingIds st;
     stopRequest := stopRequest st |}.

Definition setStatus (x : string) (st : AppState) : AppState :=
  {| step := step st; googleApiKey := googleApiKey st;
     apifyToken := apifyToken st;
     channelUrl := channelUrl st; resultsLimit := resultsLimit st;
     isProcessing := isProcessing st; status := x;
     videos := videos st; mp3Links := mp3Links st;
     transcriptStates := transcriptStates st;
     transcriptCache := transcriptCache st; retryingIds := retryingIds st;
     stopRequest := stopRequest st |}.

Definition setVideos (x : list SocialVideo) (st : AppState) : AppState :=
  {| step := step st; googleApiKey := googleApiKey st;
     apifyToken := apifyToken st;
     channelUrl := channelUrl st; resultsLimit := resultsLimit st;
     isProcessing := isProcessing st; status := status st;
     videos := x; mp3Links := mp3Links st;
     transcriptStates := transcriptStates st;
     transcriptCache := transcriptCache st; retryingIds := retryingIds st;
     stopRequest := stopRequest st |}.

(** Modelled from the spec: [hooks/useLocalStorage] is not among the
    sources.  The spec has durable storage "written on every mutation"
    and kept in step with the in-memory value, so the setter the hook
    returns is taken to act on the current value like a [useState]
    setter, both for a plain value and for an updater function. *)
Definition setMp3Links (f : gmap string string -> gmap string string)
    (st : AppState) : AppState :=
  {| step := step st; googleApiKey := googleApiKey st;
     apifyToken := apifyToken st;
     channelUrl := channelUrl st; resultsLimit := resultsLimit st;
     isProcessing := isProcessing st; status := status st;
     videos := videos st; mp3Links := f (mp3Links st);
     transcriptStates := transcriptStates st;
     transcriptCache := transcriptCache st; retryingIds := retryingIds st;
     stopRequest := stopRequest st |}.

Definition setTranscriptStates
    (f : gmap string TranscriptEntry -> gmap string TranscriptEntry)
    (st : AppState) : AppState :=
  {| step := step st; googleApiKey := googleApiKey st;
     apifyToken := apifyToken st;
     channelUrl := channelUrl st; resultsLimit := resultsLimit st;
     isProcessing := isProcessing st; status := status st;
     videos := videos st; mp3Links := mp3Links st;
     transcriptStates := f (transcriptStates st);
     transcriptCache := transcriptCache st; retryingIds := retryingIds st;
     stopRequest := stopRequest st |}.

(** Modelled from the spec: the setter of the [useLocalStorage] hook for
    [transcriptCache], absent from the sources like the one of
    [mp3Links] above; an updater function is applied to the current
    cache. *)
Definition setTranscriptCache (f : gmap string string -> gmap string string)
    (st : AppState) : AppState :=
  {| step := step st; googleApiKey := googleApiKey st;
     apifyToken := apifyToken st;
     channelUrl := channelUrl st; resultsLimit := resultsLimit st;
     isProcessing := isProcessing st; status := status st;
     videos := videos st; mp3Links := mp3Links st;
     transcriptStates := transcriptStates st;
     transcriptCache := f (transcriptCache st); retryingIds := retryingIds st;
     stopRequest := stopRequest st |}.

Definition setRetryingIds (f : list JsVal -> list JsVal) (st : AppState)
  : AppState :=
  {| step := step st; googleApiKey := googleApiKey st;
     apifyToken := apifyToken st;
     channelUrl := channelUrl st; resultsLimit := resultsLimit st;
     isProcessing := isProcessing st; status := status st;
     videos := videos st; mp3Links := mp3Links st;
     transcriptStates := transcriptStates st;
     transcriptCache := transcriptCache st; retryingIds := f (retryingIds st);
     stopRequest := stopRequest st |}.

Definition setStopRequest (x : bool) (st : AppState) : AppState :=
  {| step := step st; googleApiKey := googleApiKey st;
     apifyToken := apifyToken st;
     channelUrl := channelUrl st; resultsLimit := resultsLimit st;
     isProcessing := isProcessing st; status := status st;
     videos := videos st; mp3Links := mp3Links st;
     transcriptStates := transcriptStates st;
     transcriptCache := transcriptCache st; retryingIds := retryingIds st;
     stopRequest := x |}.

(** Everything the controller sends out or pauses for, and every update
    of the per-video state, in program order. *)
Inductive Event : Type :=
| Downloaded (url : string)
| Posted (r : Apify.Request)
| Generated (r : Gemini.GenerateRequest)
| Slept (ms : Z)
| StateSet (url : string) (entry : TranscriptEntry).

(** [set.add(x)] and [set.delete(x)] on a [Set] kept in insertion order. *)
Definition set_add (x : JsVal) (s : list JsVal) : list JsVal :=
  if existsb (js_same x) s then s else (s ++ [x])%list.

Definition set_delete (x : JsVal) (s : list JsVal) : list JsVal :=
  List.filter (fun y => negb (js_same x y)) s.

(** *** getBase64FromUrl *)

(** What a [Blob] gives: its [type], and the outcome of reading it as a
    data URL ([onloadend] with a result, or [onerror]). *)
Record Blob : Type := {
  blob_type : string;
  blob_read : Completion string
}.

(** What [fetch(url)] of an audio file completes with; the blob is
    [None] when [response.blob()] rejects. *)
Inductive MediaOutcome : Type :=
| MediaRejects
| MediaResponse (ok : bool) (blob : option Blob).

Definition download_failed_message : string :=
  "Không thể tải tệp âm thanh. Đây có thể là sự cố CORS hoặc URL không hợp lệ.".

Definition base64_failed_message : string := "Could not convert file to base64.".

(** Failures inside the [try] are replaced by one message; the promise
    returned from the [try] is not awaited there, so a rejection by the
    reader passes through unchanged. *)
Definition getBase64FromUrl (fetched : MediaOutcome)
  : Completion (string * string) :=
  match fetched with
  | MediaRejects => Threw (ThrownError download_failed_message)
  | MediaResponse ok blob =>
      if negb ok then Threw (ThrownError download_failed_message)
      else match blob with
           | None => Threw (ThrownError download_failed_message)
           | Some b =>
               match blob_read b with
               | Threw e => Threw e
               | Returned dataUrl =>
                   match split_on "," dataUrl with
                   | _ :: base64 :: _ =>
                       if nonempty base64 then Returned (base64, blob_type b)
                       else Threw (ThrownError base64_failed_message)
                   | _ => Threw (ThrownError base64_failed_message)
                   end
               end
           end
  end.

(** *** Small handlers *)

Definition handleStopProcessing (st : AppState) : AppState :=
  setStatus "Đang yêu cầu dừng..." (setStopRequest true st).

Definition handleClearSession (st : AppState) : AppState :=
  setStep scan
    (setStatus "Sẵn sàng."
       (setChannelUrl EmptyString
          (setMp3Links (fun _ => ∅)
             (setTranscriptStates (fun _ => ∅) (setVideos [] st))))).

Definition handleMp3LinkChange (videoUrl mp3Link : string) (st : AppState)
  : AppState :=
  setMp3Links (fun prev => <[videoUrl := mp3Link]> prev) st.

(** The key under which a video is filed in the three dictionaries. *)
Definition video_url (v : SocialVideo) : string := js_to_string (webVideoUrl v).

(** [m[k]] used as a condition. *)
Definition has_truthy (m : gmap string string) (k : string) : bool :=
  match m !! k with
  | Some s => nonempty s
  | None => false
  end.

(** *** handleScan *)

Record ScanWorld : Type := {
  fetch : Apify.Fetch;
  math_random : nat -> num;
  date_now : nat -> num
}.

Definition unsupported_url_message : string :=
  "URL không được hỗ trợ. Vui lòng nhập URL của kênh TikTok hoặc Facebook.".

(** [error instanceof Error ? error.message : String(error)] *)
Definition scan_error_message (e : Thrown) : string :=
  match e with
  | ThrownError m => m
  | ThrownOther shown => shown
  end.

Definition handleScan (w : ScanWorld) (st0 : AppState)
  : AppState * list Event :=
  let st := setVideos []
              (setStatus "Bước 1: Đang quét kênh..." (setIsProcessing true st0)) in
  let trimmedUrl := toLowerCase (trim (channelUrl st0)) in
  let '(st, result, sent) :=
    if includes trimmedUrl "tiktok.com" then
      let st := setStatus "Bước 1: Đang quét kênh TikTok với Apify..." st in
      let '(r, sent) :=
        Apify.fetchTikTokData (fetch w) (math_random w)
          (apifyToken st0) (channelUrl st0) (resultsLimit st0) in
      (st, r, sent)
    else if includes trimmedUrl "facebook.com" || includes trimmedUrl "fb.com" then
      let st := setStatus "Bước 1: Đang quét kênh Facebook với Apify..." st in
      let '(r, sent) :=
        Apify.fetchFacebookData (fetch w) (date_now w)
          (apifyToken st0) (channelUrl st0) (resultsLimit st0) in
      (st, r, sent)
    else (st, Threw (ThrownError unsupported_url_message), []) in
  let st :=
    match result with
    | Returned fetchedVideos =>
        setStep match_
          (setStatus ("Quét thành công! Tìm thấy "
                      +:+ show_nat (length fetchedVideos)
                      +:+ " video. Chuyển sang bước ghép nối âm thanh.")
             (setVideos fetchedVideos st))
    | Threw e => setStatus ("Lỗi quét: " +:+ scan_error_message e) st
    end in
  (setIsProcessing false st, map Posted sent).

(** *** handleTranscribe *)

(** The three places where the loop awaits, and so where the operator
    can press Stop while item [i] is the current one. *)
Inductive AwaitPoint : Type := AtDownload | AtTranscription | AtPause.

(** What the outside world does during one run of the loop, by the index
    of the item being processed. *)
Record TranscribeWorld : Type := {
  media : nat -> string -> MediaOutcome;
  generateContent : nat -> Gemini.GenerateRequest -> Gemini.GenerateOutcome;
  stop_pressed : nat -> AwaitPoint -> bool
}.

Definition press_stop (pressed : bool) (st : AppState) : AppState :=
  if pressed then handleStopProcessing st else st.

Definition API_CALL_DELAY_MS : Z := 6000.

Definition downloading : TranscriptEntry :=
  {| Types.status := loading; entry_text := "Đang tải MP3..." |}.

Definition transcribing : TranscriptEntry :=
  {| Types.status := loading; entry_text := "Đang phiên âm với AI..." |}.

Definition succeeded (transcript : string) : TranscriptEntry :=
  {| Types.status := success; entry_text := transcript |}.

(** [error instanceof Error ? error.message : 'Unknown error'] *)
Definition item_error_message (e : Thrown) : string :=
  match e with
  | ThrownError m => m
  | ThrownOther _ => "Unknown error"
  end.

Definition failed (e : Thrown) : TranscriptEntry :=
  {| Types.status := error; entry_text := "Lỗi: " +:+ item_error_message e |}.

(** [setTranscriptStates(prev => ({ ...prev, [url]: entry }))] *)
Definition putState (url : string) (entry : TranscriptEntry) (st : AppState)
  : AppState :=
  setTranscriptStates (fun prev => <[url := entry]> prev) st.

(** [setTranscriptCache(prev => ({ ...prev, [url]: transcript }))] *)
Definition putCache (url transcript : string) (st : AppState) : AppState :=
  setTranscriptCache (fun prev => <[url := transcript]> prev) st.

Definition stopped_message (successCount : nat) : string :=
  "Quá trình đã được người dùng dừng lại. " +:+ show_nat successCount
  +:+ " bản ghi mới đã được tạo.".

Definition done_message (successCount : nat) : string :=
  "Hoàn tất! Đã tạo mới " +:+ show_nat successCount +:+ " bản ghi.".

Definition start_message : string :=
  "Bắt đầu phiên âm. Có độ trễ giữa các yêu cầu để tuân thủ giới hạn API của Google.".

Definition nothing_message : string :=
  "Hoàn tất. Không có video mới nào được cung cấp link MP3 để phiên âm.".

Definition progress_message (i total : nat) (video : SocialVideo) : string :=
  "Đang xử lý " +:+ show_nat (i + 1) +:+ "/" +:+ show_nat total +:+ ": "
  +:+ js_to_string (nickName (authorMeta video)).

(** The filter that computes [videosToProcess]. *)
Definition eligible (links cache : gmap string string) (v : SocialVideo)
  : bool :=
  has_truthy links (video_url v) && negb (has_truthy cache (video_url v)).

(** The two phases in sequence, outside any handler: what
    [getBase64FromUrl] followed by [transcribeAudioWithGemini] completes
    with, and the requests sent to the model.  The handlers below spell
    the two calls out themselves; this composition only serves to state
    their results. *)
Definition two_phase (fetched : MediaOutcome)
    (generate : Gemini.GenerateRequest -> Gemini.GenerateOutcome)
    (googleApiKey : string)
  : Completion string * list Gemini.GenerateRequest :=
  match getBase64FromUrl fetched with
  | Returned (base64, mimeType) =>
      Gemini.transcribeAudioWithGemini generate googleApiKey base64 mimeType
  | Threw e => (Threw e, [])
  end.

(** One iteration of the [for] loop after the cancellation check: the
    body from [const video = videosToProcess[i]] to the pause.  [total]
    is [videosToProcess.length]; [googleApiKey] and [links] are the
    values captured by the callback. *)
Definition process_item (w : TranscribeWorld) (googleApiKey : string)
    (links : gmap string string) (total i : nat) (video : SocialVideo)
    (successCount : nat) (st : AppState) : nat * AppState * list Event :=
  let url := video_url video in
  let mp3Url := default EmptyString (links !! url) in
  let st := setStatus (progress_message i total video) st in
  let st := putState url downloading st in
  let st := press_stop (stop_pressed w i AtDownload) st in
  let '(successCount, st, evs) :=
    match getBase64FromUrl (media w i mp3Url) with
    | Returned (base64, mimeType) =>
        let st := putState url transcribing st in
        let '(result, sent) :=
          Gemini.transcribeAudioWithGemini (generateContent w i)
            googleApiKey base64 mimeType in
        let st := press_stop (stop_pressed w i AtTranscription) st in
        match result with
        | Returned transcript =>
            (S successCount,
             putCache url transcript (putState url (succeeded transcript) st),
             ([StateSet url transcribing] ++ map Generated sent
              ++ [StateSet url (succeeded transcript)])%list)
        | Threw e =>
            (successCount, putState url (failed e) st,
             ([StateSet url transcribing] ++ map Generated sent
              ++ [StateSet url (failed e)])%list)
        end
    | Threw e =>
        (successCount, putState url (failed e) st, [StateSet url (failed e)])
    end in
  let head := ([StateSet url downloading; Downloaded mp3Url] ++ evs)%list in
  if (i <? total - 1)%nat && negb (stopRequest st) then
    (successCount, press_stop (stop_pressed w i AtPause) st,
     (head ++ [Slept API_CALL_DELAY_MS])%list)
  else (successCount, st, head).

(** The [for] loop: [items] are the elements of [videosToProcess] from
    index [i] on.  The flag is read before each item; when it is set the
    loop reports and breaks. *)
Fixpoint transcribe_loop (w : TranscribeWorld) (googleApiKey : string)
    (links : gmap string string) (total i : nat) (items : list SocialVideo)
    (successCount : nat) (st : AppState) : nat * AppState * list Event :=
  match items with
  | [] => (successCount, st, [])
  | video :: rest =>
      if stopRequest st then
        (successCount, setStatus (stopped_message successCount) st, [])
      else
        let '(successCount, st, evs) :=
          process_item w googleApiKey links total i video successCount st in
        let '(n, st, tail) :=
          transcribe_loop w googleApiKey links total (S i) rest successCount st in
        (n, st, (evs ++ tail)%list)
  end.

Definition handleTranscribe (w : TranscribeWorld) (st0 : AppState)
  : AppState * list Event :=
  let st :=
    setStatus start_message
      (setStep results (setIsProcessing true (setStopRequest false st0))) in
  let videosToProcess :=
    List.filter (eligible (mp3Links st0) (transcriptCache st0)) (videos st0) in
  match videosToProcess with
  | [] => (setIsProcessing false (setStatus nothing_message st), [])
  | _ :: _ =>
      let '(successCount, st, evs) :=
        transcribe_loop w (googleApiKey st0) (mp3Links st0)
          (length videosToProcess) 0 videosToProcess 0 st in
      let st :=
        if negb (stopRequest st) then setStatus (done_message successCount) st
        else st in
      (setIsProcessing false st, evs)
  end.

(** *** handleRetry *)

Definition missing_link : TranscriptEntry :=
  {| Types.status := error; entry_text := "Lỗi: Không tìm thấy link MP3." |}.

Definition handleRetry (fetched : string -> MediaOutcome)
    (generate : Gemini.GenerateRequest -> Gemini.GenerateOutcome)
    (videoToRetry : SocialVideo) (st0 : AppState) : AppState * list Event :=
  let url := video_url videoToRetry in
  if negb (has_truthy (mp3Links st0) url) then
    (putState url missing_link st0, [StateSet url missing_link])
  else
    let mp3Url := default EmptyString (mp3Links st0 !! url) in
    let st := setRetryingIds (set_add (id videoToRetry)) st0 in
    let st := putState url downloading st in
    let '(st, evs) :=
      match getBase64FromUrl (fetched mp3Url) with
      | Returned (base64, mimeType) =>
          let st := putState url transcribing st in
          let '(result, sent) :=
            Gemini.transcribeAudioWithGemini generate (googleApiKey st0)
              base64 mimeType in
          match result with
          | Returned transcript =>
              (putCache url transcript (putState url (succeeded transcript) st),
               ([StateSet url transcribing] ++ map Generated sent
                ++ [StateSet url (succeeded transcript)])%list)
          | Threw e =>
              (putState url (failed e) st,
               ([StateSet url transcribing] ++ map Generated sent
                ++ [StateSet url (failed e)])%list)
          end
      | Threw e => (putState url (failed e) st, [StateSet url (failed e)])
      end in
    (setRetryingIds (set_delete (id videoToRetry)) st,
     ([StateSet url downloading; Downloaded mp3Url] ++ evs)%list).

(** *** What the component derives from its state for display *)

(** [completedCount] and [matchedCount] *)
Definition completedCount (st : AppState) : nat :=
  length (List.filter (fun v => has_truthy (transcriptCache st) (video_url v))
                      (videos st)).

Definition matchedCount (st : AppState) : nat :=
  length (List.filter (fun v => has_truthy (mp3Links st) (video_url v))
                      (videos st)).

(** [retryingIds.has(video.id)] *)
Definition isRetrying (video : SocialVideo) (st : AppState) : bool :=
  existsb (js_same (id video)) (retryingIds st).

(** The cell [transcriptContent] of a row of the results table: the
    transcript, a progress text, an error text with the retry button (and
    whether the button is disabled and labelled as retrying), the waiting
    notice or the no-link notice. *)
Inductive TranscriptContent : Type :=
| ShowTranscript (finalTranscript : string)
| ShowProgress (message : string)
| ShowError (message : string) (retryDisabled retrying : bool)
| ShowWaiting
| ShowNoLink.

Definition transcriptContent (video : SocialVideo) (st : AppState)
  : TranscriptContent :=
  let url := video_url video in
  let otherwise :=
    if has_truthy (mp3Links st) url then ShowWaiting else ShowNoLink in
  match transcriptCache st !! url with
  | Some finalTranscript => ShowTranscript finalTranscript
  | None =>
      match transcriptStates st !! url with
      | Some state =>
          match Types.status state with
          | loading => ShowProgress (entry_text state)
          | error =>
              ShowError (entry_text state)
                (isProcessing st || isRetrying video st) (isRetrying video st)
          | _ => otherwise
          end
      | None => otherwise
      end
  end.

(** The [disabled] attribute of the button that starts a run. *)
Definition transcribeDisabled (st : AppState) : bool :=
  (matchedCount st =? 0)%nat || isProcessing st.

End WithRuntime.
End App.

(** ** A reference runtime and concrete scenarios *)

(** A small executable instance of [JsRuntime], used to run the program
    on concrete inputs.  It covers the fragment of the platform those
    inputs exercise: numbers are the integers below 2^53 in magnitude (on
    which IEEE arithmetic is exact) and NaN, an operation whose result
    leaves that set gives NaN; strings are lower-cased on their ASCII
    letters; URLs are absolute [http(s)] URLs written without escapes or
    dot segments. *)
Module Demo.
Import JsString Js Types.

Inductive DemoNum : Type := DNaN | DInt (z : Z).

Definition in_range (z : Z) : DemoNum :=
  if (Z.abs z <? 2 ^ 53)%Z then DInt z else DNaN.

Definition demo_mul (a b : DemoNum) : DemoNum :=
  match a, b with
  | DInt x, DInt y => in_range (x * y)
  | _, _ => DNaN
  end.

Definition demo_div (a b : DemoNum) : DemoNum :=
  match a, b with
  | DInt x, DInt y =>
      if (y =? 0)%Z then DNaN
      else if (x mod y =? 0)%Z then DInt (x / y) else DNaN
  | _, _ => DNaN
  end.

Definition demo_truthy (a : DemoNum) : bool :=
  match a with
  | DNaN => false
  | DInt z => negb (z =? 0)%Z
  end.

Definition demo_same (a b : DemoNum) : bool :=
  match a, b with
  | DNaN, DNaN => true
  | DInt x, DInt y => (x =? y)%Z
  | _, _ => false
  end.

Definition show_Z (z : Z) : string :=
  if (z <? 0)%Z then "-" +:+ show_nat (Z.to_nat (- z))
  else show_nat (Z.to_nat z).

Definition demo_to_string (a : DemoNum) : string :=
  match a with
  | DNaN => "NaN"
  | DInt z => show_Z z
  end.

Fixpoint parse_digits (s : string) (acc : Z) : DemoNum :=
  match s with
  | EmptyString => in_range acc
  | String c rest =>
      let n := nat_of_ascii c in
      if (48 <=? n)%nat && (n <=? 57)%nat
      then parse_digits rest (10 * acc + Z.of_nat (n - 48))
      else DNaN
  end.

Definition demo_of_string (s : string) : DemoNum := parse_digits (trim s) 0.

(** Left padding with zeros to [width] digits. *)
Definition pad (width : nat) (n : Z) : string :=
  let digits := show_nat (Z.to_nat n) in
  String.concat EmptyString (repeat "0" (width - String.length digits))
  +:+ digits.

(** The calendar date of a day number counted from 1970-01-01. *)
Definition civil_from_days (days : Z) : Z * Z * Z :=
  let z := (days + 719468)%Z in
  let era := (z / 146097)%Z in
  let doe := (z - era * 146097)%Z in
  let yoe := ((doe - doe / 1460 + doe / 36524 - doe / 146096) / 365)%Z in
  let doy := (doe - (365 * yoe + yoe / 4 - yoe / 100))%Z in
  let mp := ((5 * doy + 2) / 153)%Z in
  let d := (doy - (153 * mp + 2) / 5 + 1)%Z in
  let m := (if (mp <? 10)%Z then mp + 3 else mp - 9)%Z in
  let y := (yoe + era * 400 + (if (m <=? 2)%Z then 1 else 0))%Z in
  (y, m, d).

Definition demo_toISOString (a : DemoNum) : option string :=
  match a with
  | DNaN => None
  | DInt ms =>
      if (Z.abs ms <=? 8640000000000000)%Z then
        let '(y, m, d) := civil_from_days (ms / 86400000) in
        let t := (ms mod 86400000)%Z in
        let year :=
          if (0 <=? y)%Z && (y <=? 9999)%Z then pad 4 y
          else (if (y <? 0)%Z then "-" else "+") +:+ pad 6 (Z.abs y) in
        Some (year +:+ "-" +:+ pad 2 m +:+ "-" +:+ pad 2 d +:+ "T"
              +:+ pad 2 (t / 3600000) +:+ ":" +:+ pad 2 (t / 60000 mod 60)
              +:+ ":" +:+ pad 2 (t / 1000 mod 60) +:+ "."
              +:+ pad 3 (t mod 1000) +:+ "Z")
      else None
  end.

(** [s] cut at the first occurrence of [c]: the text before it, and the
    text after it when [c] occurs. *)
Fixpoint cut_at (c : ascii) (s : string) : string * option string :=
  match s with
  | EmptyString => (EmptyString, None)
  | String a rest =>
      if Ascii.eqb a c then (EmptyString, Some rest)
      else let '(before, after) := cut_at c rest in (String a before, after)
  end.

Definition strip_prefix (p s : string) : option string :=
  if String.prefix p s
  then Some (String.substring (String.length p)
                              (String.length s - String.length p) s)
  else None.

Definition find_id (query : string) : option string :=
  match List.filter (fun kv => String.eqb (fst (cut_at "=" kv)) "id")
                    (split_on "&" query) with
  | kv :: _ => Some (default EmptyString (snd (cut_at "=" kv)))
  | [] => None
  end.

Definition demo_url_parse (s : string) : option URL :=
  if startsWith (trim s) "@" then None
  else
    match (match strip_prefix "https://" s with
           | Some rest => Some rest
           | None => strip_prefix "http://" s
           end) with
    | None => None
    | Some rest =>
        let before_fragment := fst (cut_at "#" rest) in
        let '(before_query, query) := cut_at "?" before_fragment in
        let '(authority, path) := cut_at "/" before_query in
        if nonempty authority then
          Some {| pathname := "/" +:+ default EmptyString path;
                  search_id := match query with
                               | Some q => find_id q
                               | None => None
                               end |}
        else None
    end.

Definition runtime : JsRuntime :=
  {| num := DemoNum;
     num_of_Z := DInt;
     num_nan := DNaN;
     num_mul := demo_mul;
     num_div := demo_div;
     num_truthy := demo_truthy;
     num_same := demo_same;
     num_to_string := demo_to_string;
     string_to_num := demo_of_string;
     date_toISOString := demo_toISOString;
     range_error_message := "Invalid time value";
     type_error_message := fun k =>
       "Cannot read properties of null (reading '" +:+ k +:+ "')";
     toLowerCase := fold_case;
     url_parse := demo_url_parse;
     url_parse_scheme := ltac:(
       intros s u; unfold demo_url_parse;
       destruct (startsWith (trim s) "@"); [discriminate | reflexivity]) |}.

End Demo.

(** ** Vocabulary of the properties *)

Module Props.
Import JsString Js Types.

Section WithRuntime.
Context `{JsRuntime}.

(** A field that is neither [undefined] nor [null]. *)
Definition defined (v : JsVal) : Prop := nullish v = false.

Definition all_fields_defined (v : SocialVideo) : Prop :=
  defined (id v) /\ defined (webVideoUrl v) /\ defined (text v)
  /\ defined (createTime v) /\ defined (createTimeISO v)
  /\ defined (name (authorMeta v)) /\ defined (nickName (authorMeta v))
  /\ defined (avatar (authorMeta v))
  /\ defined (diggCount v) /\ defined (commentCount v)
  /\ defined (shareCount v) /\ defined (playCount v)
  /\ defined (duration (videoMeta v)) /\ defined (height (videoMeta v))
  /\ defined (width (videoMeta v))
  /\ defined (musicName (musicMeta v)) /\ defined (musicAuthor (musicMeta v))
  /\ defined (musicOriginal (musicMeta v)).

(** When the raw value is absent, the normalised field is the default. *)
Definition defaults_to (raw field default : JsVal) : Prop :=
  nullish raw = true -> field = default.

Definition zero : JsVal := JNum (num_of_Z 0).

(** The handle as the specification words it: the last path segment
    that begins with [@], without the [@]; otherwise the trimmed input
    without a leading [@]. *)
Definition claimed_profileName (tiktokUrl : string) : string :=
  let segments :=
    match url_parse tiktokUrl with
    | Some u => List.filter (fun part => startsWith part "@")
                            (split_on "/" (pathname u))
    | None => []
    end in
  match List.rev segments with
  | seg :: _ => substring1 seg
  | [] => if startsWith (trim tiktokUrl) "@" then substring1 (trim tiktokUrl)
          else trim tiktokUrl
  end.

(** Readings of a trace. *)
Definition is_download (e : App.Event) : bool :=
  match e with App.Downloaded _ => true | _ => false end.

Definition is_generate (e : App.Event) : bool :=
  match e with App.Generated _ => true | _ => false end.

Definition is_pause (e : App.Event) : bool :=
  match e with App.Slept _ => true | _ => false end.

Definition is_final (entry : TranscriptEntry) : bool :=
  match status entry with
  | success | error => true
  | _ => false
  end.

(** The success-or-error outcomes recorded, in order. *)
Fixpoint outcomes (evs : list App.Event) : list (string * TranscriptEntry) :=
  match evs with
  | [] => []
  | App.StateSet url entry :: rest =>
      if is_final entry then (url, entry) :: outcomes rest else outcomes rest
  | _ :: rest => outcomes rest
  end.


Definition downloads (evs : list App.Event) : nat :=
  length (List.filter is_download evs).

Definition generations (evs : list App.Event) : nat :=
  length (List.filter is_generate evs).

(** The number of pauses in a trace. *)
Definition pauses (evs : list App.Event) : nat :=
  length (List.filter is_pause evs).

Fixpoint total_delay (evs : list App.Event) : Z :=
  match evs with
  | [] => 0
  | App.Slept ms :: rest => ms + total_delay rest
  | _ :: rest => total_delay rest
  end.

(** Blocks of events separated by one pause of [ms] milliseconds. *)
Fixpoint joined (ms : Z) (blocks : list (list App.Event)) : list App.Event :=
  match blocks with
  | [] => []
  | [b] => b
  | b :: rest => b ++ App.Slept ms :: joined ms rest
  end.

(** The events of one attempt: exactly one download, no pause. *)
Definition one_attempt (b : list App.Event) : Prop :=
  downloads b = 1%nat /\ List.filter is_pause b = [].

(** Every entry of a cache is a non-empty transcript. *)
Definition cache_ok (cache : gmap string string) : Prop :=
  forall k t, cache !! k = Some t -> nonempty t = true.

(** The entry written for the completion of an attempt. *)
Definition entry_of (r : Completion string) : TranscriptEntry :=
  match r with
  | Returned transcript => App.succeeded transcript
  | Threw e => App.failed e
  end.

(** The completion of the attempt the loop makes for its [i]-th item. *)
Definition attempt (w : App.TranscribeWorld) (googleApiKey : string)
    (links : gmap string string) (i : nat) (video : SocialVideo)
  : Completion string :=
  fst (App.two_phase
         (App.media w i (default EmptyString (links !! App.video_url video)))
         (App.generateContent w i) googleApiKey).

Definition is_success (r : Completion string) : bool :=
  match r with Returned _ => true | Threw _ => false end.

(** Whether the download phase hands audio data to the Transcriber. *)
Definition download_ok (fetched : App.MediaOutcome) : bool :=
  match App.getBase64FromUrl fetched with
  | Returned _ => true
  | Threw _ => false
  end.

(** The state once the attempt on [url] has completed with [r]: the
    per-video entry is written, and the cache only on success. *)
Definition settle (url : string) (r : Completion string) (st : App.AppState)
  : App.AppState :=
  App.setTranscriptCache
    (fun cache => match r with
                  | Returned transcript => <[url := transcript]> cache
                  | Threw _ => cache
                  end)
    (App.setTranscriptStates (fun prev => <[url := entry_of r]> prev) st).

(** The events of one attempt on [url]. *)
Definition block_of (url mp3Url : string) (fetched : App.MediaOutcome)
    (out : Completion string * list Gemini.GenerateRequest)
  : list App.Event :=
  ([App.StateSet url App.downloading; App.Downloaded mp3Url]
   ++ (if download_ok fetched
       then App.StateSet url App.transcribing :: map App.Generated (snd out)
       else [])
   ++ [App.StateSet url (entry_of (fst out))])%list.

(** Whether Stop is pressed while the attempt of item [i] is awaited. *)
Definition pressed_mid_item (w : App.TranscribeWorld) (i : nat)
    (fetched : App.MediaOutcome) : bool :=
  App.stop_pressed w i App.AtDownload
  || (download_ok fetched && App.stop_pressed w i App.AtTranscription).

(** The per-item completions of a run over [items], the first of which
    has index [i]. *)
Fixpoint results (w : App.TranscribeWorld) (googleApiKey : string)
    (links : gmap string string) (i : nat) (items : list SocialVideo)
  : list (string * Completion string) :=
  match items with
  | [] => []
  | video :: rest =>
      (App.video_url video, attempt w googleApiKey links i video)
      :: results w googleApiKey links (S i) rest
  end.

Definition successes (rs : list (string * Completion string)) : nat :=
  length (List.filter (fun p => is_success (snd p)) rs).

(** The dictionaries after a list of completions has been recorded, in
    order. *)
Fixpoint record_states (rs : list (string * Completion string))
    (m : gmap string TranscriptEntry) : gmap string TranscriptEntry :=
  match rs with
  | [] => m
  | (url, r) :: rest => record_states rest (<[url := entry_of r]> m)
  end.

Fixpoint record_cache (rs : list (string * Completion string))
    (m : gmap string string) : gmap string string :=
  match rs with
  | [] => m
  | (url, Returned transcript) :: rest =>
      record_cache rest (<[url := transcript]> m)
  | (_, Threw _) :: rest => record_cache rest m
  end.

(** The events of the attempt the loop makes for its [i]-th item. *)
Definition item_block (w : App.TranscribeWorld) (googleApiKey : string)
    (links : gmap string string) (i : nat) (video : SocialVideo)
  : list App.Event :=
  let mp3Url := default EmptyString (links !! App.video_url video) in
  block_of (App.video_url video) mp3Url (App.media w i mp3Url)
    (App.two_phase (App.media w i mp3Url) (App.generateContent w i)
       googleApiKey).

Fixpoint blocks (w : App.TranscribeWorld) (googleApiKey : string)
    (links : gmap string string) (i : nat) (items : list SocialVideo)
  : list (list App.Event) :=
  match items with
  | [] => []
  | video :: rest =>
      item_block w googleApiKey links i video
      :: blocks w googleApiKey links (S i) rest
  end.

(** The trace and the state of a stretch of the loop during which Stop
    is not requested: every item is attempted, and paused after unless
    it is the last of the run. *)
Fixpoint quiet_trace (w : App.TranscribeWorld) (googleApiKey : string)
    (links : gmap string string) (total i : nat) (items : list SocialVideo)
  : list App.Event :=
  match items with
  | [] => []
  | video :: rest =>
      (item_block w googleApiKey links i video
       ++ (if (i <? total - 1)%nat then [App.Slept App.API_CALL_DELAY_MS]
           else [])
       ++ quiet_trace w googleApiKey links total (S i) rest)%list
  end.

Fixpoint quiet_state (w : App.TranscribeWorld) (googleApiKey : string)
    (links : gmap string string) (total i : nat) (items : list SocialVideo)
    (st : App.AppState) : App.AppState :=
  match items with
  | [] => st
  | video :: rest =>
      quiet_state w googleApiKey links total (S i) rest
        (settle (App.video_url video)
           (attempt w googleApiKey links i video)
           (App.setStatus (App.progress_message i total video) st))
  end.

(** The state in which [handleTranscribe] enters its loop. *)
Definition started (st0 : App.AppState) : App.AppState :=
  App.setStatus App.start_message
    (App.setStep Types.results
       (App.setIsProcessing true (App.setStopRequest false st0))).

(** [videosToProcess] *)
Definition to_process (st0 : App.AppState) : list SocialVideo :=
  List.filter (App.eligible (App.mp3Links st0) (App.transcriptCache st0))
              (App.videos st0).

(** Whether an await point of item [i] is reached at all: the
    transcription is awaited only after a successful download. *)
Definition await_reached (w : App.TranscribeWorld) (links : gmap string string)
    (i : nat) (video : SocialVideo) (p : App.AwaitPoint) : Prop :=
  match p with
  | App.AtTranscription =>
      download_ok
        (App.media w i (default EmptyString (links !! App.video_url video)))
      = true
  | _ => True
  end.

End WithRuntime.
End Props.

(** ** Concrete data for the scenarios *)

Module Scenario.
Import JsString Js Types.

#[local] Existing Instance Demo.runtime.

Definition video (url nick : string) : SocialVideo :=
  {| id := JStr url; webVideoUrl := JStr url; text := JStr EmptyString;
     createTime := JNum (Demo.DInt 0); createTimeISO := JStr Apify.epoch_iso;
     authorMeta := {| name := JStr nick; nickName := JStr nick;
                      avatar := JStr EmptyString |};
     diggCount := JNum (Demo.DInt 0); commentCount := JNum (Demo.DInt 0);
     shareCount := JNum (Demo.DInt 0); playCount := JNum (Demo.DInt 0);
     videoMeta := {| duration := JNum (Demo.DInt 0);
                     height := JNum (Demo.DInt 0);
                     width := JNum (Demo.DInt 0) |};
     musicMeta := {| musicName := JStr "N/A"; musicAuthor := JStr "N/A";
                     musicOriginal := JBool false |} |}.

Definition urlA : string := "https://www.tiktok.com/@kenh/video/1".
Definition urlB : string := "https://www.tiktok.com/@kenh/video/2".
Definition mp3A : string := "https://cdn.example.org/a.mp3".
Definition mp3B : string := "https://cdn.example.org/b.mp3".

Definition videoA : SocialVideo := video urlA "kenh".
Definition videoB : SocialVideo := video urlB "kenh".

Definition audio : App.MediaOutcome :=
  App.MediaResponse true
    (Some {| App.blob_type := "audio/mpeg";
             App.blob_read := Returned "data:audio/mpeg;base64,QUJD" |}).

Definition hello : Gemini.GenerateRequest -> Gemini.GenerateOutcome :=
  fun _ => Gemini.GenResponse (Some "xin chào").

(** The operator has assigned an audio URL to both videos. *)
Definition matched_state : App.AppState :=
  {| App.step := match_; App.googleApiKey := "AIza-demo";
     App.apifyToken := "apify-demo";
     App.channelUrl := "https://www.tiktok.com/@kenh";
     App.resultsLimit := Demo.DInt 20; App.isProcessing := false;
     App.status := "Sẵn sàng."; App.videos := [videoA; videoB];
     App.mp3Links := <[urlA := mp3A]> (<[urlB := mp3B]> ∅);
     App.transcriptStates := ∅; App.transcriptCache := ∅;
     App.retryingIds := []; App.stopRequest := false |}.

(** Both downloads and both transcriptions succeed; Stop is never
    pressed. *)
Definition all_well : App.TranscribeWorld :=
  {| App.media := fun _ _ => audio;
     App.generateContent := fun _ => hello;
     App.stop_pressed := fun _ _ => false |}.

(** A succeeds with the text "xin chào", the download of B fails. *)
Definition b_unreachable : App.TranscribeWorld :=
  {| App.media := fun _ url =>
       if String.eqb url mp3A then audio else App.MediaRejects;
     App.generateContent := fun _ => hello;
     App.stop_pressed := fun _ _ => false |}.

(** Stop is pressed during the pause that follows the first item. *)
Definition stop_after_first : App.TranscribeWorld :=
  {| App.media := fun _ _ => audio;
     App.generateContent := fun _ => hello;
     App.stop_pressed := fun i p =>
       match i, p with
       | O, App.AtPause => true
       | _, _ => false
       end |}.

(** Both transcripts are already cached. *)
Definition cached_state : App.AppState :=
  App.setTranscriptCache
    (fun _ => <[urlA := "xin chào"]> (<[urlB := "tạm biệt"]> ∅)) matched_state.



Definition offline : App.ScanWorld :=
  {| App.fetch := fun _ => Threw (ThrownError "Failed to fetch");
     App.math_random := fun _ => Demo.DInt 0;
     App.date_now := fun _ => Demo.DInt 1700000000000 |}.

Definition youtube_state : App.AppState :=
  App.setChannelUrl "https://www.youtube.com/@kenh" matched_state.

(** A Facebook item that carries only what the filter asks for. *)
Definition bare_facebook_item : JsVal :=
  JObj [("video_id", JStr "1234567890");
        ("shareable_url", JStr "https://www.facebook.com/reel/1234567890")].

(** What the Facebook mapper makes of it at time 1700000000000. *)
Definition bare_facebook_video : SocialVideo :=
  {| id := JStr "1234567890";
     webVideoUrl := JStr "https://www.facebook.com/reel/1234567890";
     text := JStr EmptyString;
     createTime := JNum (Demo.DInt 1700000000000);
     createTimeISO := JStr "2023-11-14T22:13:20.000Z";
     authorMeta := {| name := JStr "Unknown"; nickName := JStr "Unknown";
                      avatar := JStr EmptyString |};
     diggCount := JNum (Demo.DInt 0); commentCount := JNum (Demo.DInt 0);
     shareCount := JNum (Demo.DInt 0); playCount := JNum (Demo.DInt 0);
     videoMeta := {| duration := JNum (Demo.DInt 0);
                     height := JNum (Demo.DInt 0);
                     width := JNum (Demo.DInt 0) |};
     musicMeta := {| musicName := JStr "N/A"; musicAuthor := JStr "N/A";
                     musicOriginal := JBool false |} |}.

(** A TikTok item without any optional field. *)
Definition bare_tiktok_item : JsVal :=
  JObj [("id", JStr "7300000000000000000");
        ("webVideoUrl", JStr urlA)].

(** A TikTok item with an [id] and no [webVideoUrl], and what the
    TikTok mapper makes of it: a record whose URL is the empty string. *)
Definition item_without_url (ident : string) : JsVal :=
  JObj [("id", JStr ident)].

Definition video_without_url (ident : string) : SocialVideo :=
  {| id := JStr ident; webVideoUrl := JStr EmptyString;
     text := JStr EmptyString;
     createTime := JNum (Demo.DInt 0); createTimeISO := JStr Apify.epoch_iso;
     authorMeta := {| name := JStr "Unknown"; nickName := JStr "Unknown";
                      avatar := JStr EmptyString |};
     diggCount := JNum (Demo.DInt 0); commentCount := JNum (Demo.DInt 0);
     shareCount := JNum (Demo.DInt 0); playCount := JNum (Demo.DInt 0);
     videoMeta := {| duration := JNum (Demo.DInt 0);
                     height := JNum (Demo.DInt 0);
                     width := JNum (Demo.DInt 0) |};
     musicMeta := {| musicName := JStr "N/A"; musicAuthor := JStr "N/A";
                     musicOriginal := JBool false |} |}.

Definition twin1 : SocialVideo := video_without_url "7300000000000000001".
Definition twin2 : SocialVideo := video_without_url "7300000000000000002".

(** Two videos that share the empty URL; the audio link the operator
    typed is filed under that URL. *)
Definition shared_url_state : App.AppState :=
  {| App.step := match_; App.googleApiKey := "AIza-demo";
     App.apifyToken := "apify-demo";
     App.channelUrl := "https://www.tiktok.com/@kenh";
     App.resultsLimit := Demo.DInt 20; App.isProcessing := false;
     App.status := "Sẵn sàng."; App.videos := [twin1; twin2];
     App.mp3Links := <[EmptyString := mp3A]> ∅;
     App.transcriptStates := ∅; App.transcriptCache := ∅;
     App.retryingIds := []; App.stopRequest := false |}.

(** The backend's answers to a scan: an ok response carrying a JSON
    value, and a refusal carrying Apify's error object. *)
Definition answers (data : JsVal) : Apify.Fetch :=
  fun _ => Returned {| Apify.resp_ok := true; Apify.resp_statusText := "OK";
                       Apify.resp_json := Returned data |}.

Definition refusal : Apify.Response :=
  {| Apify.resp_ok := false; Apify.resp_statusText := "Unauthorized";
     Apify.resp_json :=
       Returned
         (JObj [("error",
                 JObj [("type", JStr "user-or-token-not-found");
                       ("message",
                        JStr "User was not found or authentication token is not valid")])]) |}.

Definition backend_refuses : Apify.Fetch := fun _ => Returned refusal.

Definition facebookChannel : string := "https://www.facebook.com/kenh".

(** The same page by its numeric id, and the answer of the lookup. *)
Definition facebookProfile : string :=
  "https://www.facebook.com/profile.php?id=100012345678901".

Definition lookup_answer : JsVal :=
  JObj [("uid", JStr "100012345678901"); ("username", JStr " kenh ")].

(** The operator has not entered an Apify token. *)
Definition no_token_state : App.AppState :=
  {| App.step := scan; App.googleApiKey := "AIza-demo";
     App.apifyToken := EmptyString;
     App.channelUrl := "https://www.tiktok.com/@kenh";
     App.resultsLimit := Demo.DInt 20; App.isProcessing := false;
     App.status := "Sẵn sàng."; App.videos := [];
     App.mp3Links := ∅; App.transcriptStates := ∅; App.transcriptCache := ∅;
     App.retryingIds := []; App.stopRequest := false |}.

(** Stop is pressed while the audio of the second (and last) item is
    being downloaded. *)
Definition stop_during_second : App.TranscribeWorld :=
  {| App.media := fun _ _ => audio;
     App.generateContent := fun _ => hello;
     App.stop_pressed := fun i p =>
       match i, p with
       | 1%nat, App.AtDownload => true
       | _, _ => false
       end |}.

End Scenario.

(** * Properties *)

Import JsString Js.

(** ** The Transcriber *)

(** C5, as the specification words it, fails: a message carrying the
    text "invalid API key" (in any letter case) is not turned into the
    invalid-credential error; it is forwarded unchanged. *)
Lemma invalid_api_key_text_is_forwarded :
  test_ci "invalid api key" "Invalid API key supplied" = true
  /\ fst (Gemini.transcribeAudioWithGemini
            (fun _ => Gemini.GenThrows (ThrownError "Invalid API key supplied"))
            "AIza-demo" "QUJD" "audio/mpeg")
     = Threw (ThrownError "Invalid API key supplied")
  /\ "Invalid API key supplied" <> Gemini.invalid_key_message.
Proof.
  split; [vm_compute; reflexivity |].
  split; [vm_compute; reflexivity | discriminate].
Qed.

(** C5 (amended): the failures of the Transcriber, in the order they are
    detected.  (a) An empty credential is rejected and no request is
    sent.  Otherwise exactly one request is sent and: a non-empty
    transcript is returned; (b) a missing or empty transcript gives the
    generic no-transcript failure; (c) an error message that contains
    "429", or "rate limit" or "quota" in any letter case, gives the quota
    error; (d) failing that, one that contains "API_KEY_INVALID" in any
    letter case or "400" gives the invalid-credential error; (e) any
    other message is forwarded unchanged, and is never the quota
    message.  The two specific messages differ from each other and from
    the generic ones. *)
Theorem transcriber_failure_taxonomy :
  forall (generate : Gemini.GenerateRequest -> Gemini.GenerateOutcome)
         (key base64 mime : string),
  let request :=
    {| Gemini.req_apiKey := key; Gemini.req_model := Gemini.model_name;
       Gemini.req_prompt := Gemini.prompt; Gemini.req_mimeType := mime;
       Gemini.req_data := base64 |} in
  let out := Gemini.transcribeAudioWithGemini generate key base64 mime in
  (key = EmptyString ->
     out = (Threw (ThrownError Gemini.key_required_message), []))
  /\ (key <> EmptyString ->
      snd out = [request]
      /\ (forall t, generate request = Gemini.GenResponse (Some t) ->
                    t <> EmptyString -> fst out = Returned t)
      /\ (forall text, generate request = Gemini.GenResponse text ->
                       text = None \/ text = Some EmptyString ->
                       fst out = Threw (ThrownError Gemini.no_transcript_message))
      /\ (forall m, generate request = Gemini.GenThrows (ThrownError m) ->
            (includes m "429" = true \/ test_ci "rate limit" m = true
             \/ test_ci "quota" m = true ->
             fst out = Threw (ThrownError Gemini.quota_message))
            /\ (includes m "429" = false -> test_ci "rate limit" m = false ->
                test_ci "quota" m = false ->
                test_ci "api_key_invalid" m = true \/ includes m "400" = true ->
                fst out = Threw (ThrownError Gemini.invalid_key_message))
            /\ (includes m "429" = false -> test_ci "rate limit" m = false ->
                test_ci "quota" m = false ->
                test_ci "api_key_invalid" m = false -> includes m "400" = false ->
                fst out = Threw (ThrownError m) /\ m <> Gemini.quota_message))
      /\ (forall shown, generate request = Gemini.GenThrows (ThrownOther shown) ->
            fst out = Threw (ThrownError Gemini.unknown_error_message)))
  /\ Gemini.quota_message <> Gemini.invalid_key_message
  /\ Gemini.quota_message <> Gemini.no_transcript_message
  /\ Gemini.quota_message <> Gemini.unknown_error_message
  /\ Gemini.quota_message <> Gemini.key_required_message.
Proof.
  intros generate key base64 mime request out.
  split; [| split].
  - intros ->. reflexivity.
  - intros Hkey.
    assert (Hne : nonempty key = true) by (destruct key; [congruence | reflexivity]).
    subst out. unfold Gemini.transcribeAudioWithGemini. rewrite Hne. cbn [negb fst snd].
    fold request.
    split; [reflexivity |].
    split; [| split; [| split]].
    + intros t Hg Ht. rewrite Hg. cbn.
      destruct t; [congruence | reflexivity].
    + intros text Hg [-> | ->]; rewrite Hg; reflexivity.
    + intros m Hg. rewrite Hg. cbn [Gemini.read_transcript].
      unfold Gemini.rethrown_message, Gemini.is_quota, Gemini.is_invalid_key.
      split; [| split].
      * intros Hq.
        assert (Hb : includes m "429"
                     || (test_ci "rate limit" m || test_ci "quota" m) = true).
        { destruct Hq as [-> | [-> | ->]]; rewrite ?orb_true_r; reflexivity. }
        rewrite Hb. reflexivity.
      * intros -> -> -> Hk. cbn [orb].
        assert (Hb : test_ci "api_key_invalid" m || includes m "400" = true).
        { destruct Hk as [-> | ->]; rewrite ?orb_true_r; reflexivity. }
        rewrite Hb. reflexivity.
      * intros H1 H2 H3 -> ->. rewrite H1, H2, H3. cbn [orb].
        split; [reflexivity |].
        intros ->. vm_compute in H3. discriminate.
    + intros shown Hg. rewrite Hg. reflexivity.
  - repeat split; discriminate.
Qed.

(** A response carrying a 429 marker is classified as the quota error. *)
Lemma transcriber_failure_taxonomy_witness :
  fst (Gemini.transcribeAudioWithGemini
         (fun _ => Gemini.GenThrows
                     (ThrownError "got status: 429 Too Many Requests"))
         "AIza-demo" "QUJD" "audio/mpeg")
  = Threw (ThrownError Gemini.quota_message).
Proof.
  destruct (transcriber_failure_taxonomy
              (fun _ => Gemini.GenThrows
                          (ThrownError "got status: 429 Too Many Requests"))
              "AIza-demo" "QUJD" "audio/mpeg") as [_ [Hcall _]].
  destruct Hcall as [_ [_ [_ [Hthrow _]]]]; [discriminate |].
  destruct (Hthrow "got status: 429 Too Many Requests" eq_refl) as [Hquota _].
  apply Hquota. left. vm_compute. reflexivity.
Defined.

(** ** The Channel Lister: normalisation *)

Section Normalisation.
Context `{JsRuntime}.
Import Types Props.

Lemma coalesce_defined (a b : JsVal) :
  nullish b = false -> nullish (coalesce a b) = false.
Proof. unfold coalesce. destruct (nullish a) eqn:Ha; auto. Qed.

Lemma coalesce_absent (a b : JsVal) : nullish a = true -> coalesce a b = b.
Proof. unfold coalesce. intros ->. reflexivity. Qed.

Lemma truthy_defined (a : JsVal) : truthy a = true -> nullish a = false.
Proof. destruct a; simpl; congruence. Qed.

Lemma absent_falsy (a : JsVal) : nullish a = true -> truthy a = false.
Proof. destruct a; simpl; congruence. Qed.

Lemma or_else_defined (a b : JsVal) :
  nullish b = false -> nullish (or_else a b) = false.
Proof.
  unfold or_else. destruct (truthy a) eqn:Ha; auto using truthy_defined.
Qed.

(** C6 (amended): for a raw item that is an object, both mappers return
    a record none of whose fields is [undefined] or [null], and every
    optional field that is absent from the item carries its default:
    counters 0, media numbers 0, audio-track name and author "N/A",
    [isOriginal] false, text and avatar empty, names "Unknown" (the
    TikTok nick name falls back to the name first).  The
    time stamp defaults to 0 (and its ISO form to the epoch) in the
    TikTok mapper only; the Facebook mapper defaults it to the current
    time, provided that time is a valid date. *)
Theorem normalised_fields_default :
  (forall (random : num) (item : JsVal),
     nullish item = false ->
     exists v,
       Apify.mapTikTokItemToSocialVideo random item = Returned v
       /\ all_fields_defined v
       /\ defaults_to (get item "diggCount") (diggCount v) zero
       /\ defaults_to (get item "commentCount") (commentCount v) zero
       /\ defaults_to (get item "shareCount") (shareCount v) zero
       /\ defaults_to (get item "playCount") (playCount v) zero
       /\ defaults_to (opt_get (get item "videoMeta") "duration")
                      (duration (videoMeta v)) zero
       /\ defaults_to (opt_get (get item "videoMeta") "height")
                      (height (videoMeta v)) zero
       /\ defaults_to (opt_get (get item "videoMeta") "width")
                      (width (videoMeta v)) zero
       /\ defaults_to (opt_get (get item "musicMeta") "musicName")
                      (musicName (musicMeta v)) (JStr "N/A")
       /\ defaults_to (opt_get (get item "musicMeta") "musicAuthor")
                      (musicAuthor (musicMeta v)) (JStr "N/A")
       /\ defaults_to (opt_get (get item "musicMeta") "musicOriginal")
                      (musicOriginal (musicMeta v)) (JBool false)
       /\ defaults_to (get item "createTime") (createTime v) zero
       /\ defaults_to (get item "createTimeISO") (createTimeISO v)
                      (JStr Apify.epoch_iso)
       /\ defaults_to (get item "text") (text v) (JStr EmptyString)
       /\ defaults_to (get item "webVideoUrl") (webVideoUrl v) (JStr EmptyString)
       /\ defaults_to (opt_get (get item "authorMeta") "name")
                      (name (authorMeta v)) (JStr "Unknown")
       /\ defaults_to (opt_get (get item "authorMeta") "nickName")
                      (nickName (authorMeta v))
                      (coalesce (opt_get (get item "authorMeta") "name")
                                (JStr "Unknown"))
       /\ defaults_to (opt_get (get item "authorMeta") "avatar")
                      (avatar (authorMeta v)) (JStr EmptyString))
  /\ (forall (now : num) (item : JsVal) (iso : string),
        nullish item = false ->
        date_toISOString (Apify.facebook_createTime now item) = Some iso ->
        exists v,
          Apify.mapFacebookItemToSocialVideo now item = Returned v
          /\ all_fields_defined v
          /\ defaults_to (get item "reactions_count") (diggCount v) zero
          /\ defaults_to (get item "comments_count") (commentCount v) zero
          /\ defaults_to (get item "shares_count") (shareCount v) zero
          /\ defaults_to (get item "views_count") (playCount v) zero
          /\ defaults_to (get item "playable_duration_in_ms")
                         (duration (videoMeta v)) zero
          /\ defaults_to (get item "playback_video/height")
                         (height (videoMeta v)) zero
          /\ defaults_to (get item "playback_video/width")
                         (width (videoMeta v)) zero
          /\ defaults_to (get item "track_title")
                         (musicName (musicMeta v)) (JStr "N/A")
          /\ defaults_to (get item "video_owner/name")
                         (musicAuthor (musicMeta v)) (JStr "N/A")
          /\ defaults_to (get item "is_original_audio_on_facebook")
                         (musicOriginal (musicMeta v)) (JBool false)
          /\ defaults_to (get item "creation_time") (createTime v) (JNum now)
          /\ createTimeISO v = JStr iso
          /\ defaults_to (get item "message") (text v) (JStr EmptyString)
          /\ defaults_to (get item "video_owner/name")
                         (name (authorMeta v)) (JStr "Unknown")
          /\ defaults_to (get item "video_owner/profile_pic_url")
                         (avatar (authorMeta v)) (JStr EmptyString)).
Proof.
  split.
  - intros random item Hitem.
    unfold Apify.mapTikTokItemToSocialVideo. rewrite Hitem.
    eexists. split; [reflexivity |].
    split.
    + unfold all_fields_defined, defined; cbn.
      repeat split; repeat apply coalesce_defined; reflexivity.
    + unfold defaults_to, zero; cbn.
      repeat split; intros Habs; rewrite ?(coalesce_absent _ _ Habs);
        reflexivity.
  - intros now item iso Hitem Hiso.
    unfold Apify.mapFacebookItemToSocialVideo. rewrite Hitem, Hiso.
    eexists. split; [reflexivity |].
    split.
    + unfold all_fields_defined, defined, Apify.facebook_postUrl; cbn.
      repeat split;
        repeat (apply coalesce_defined || apply or_else_defined);
        try reflexivity.
      destruct (truthy (get item "playable_duration_in_ms")); reflexivity.
    + unfold defaults_to, zero; cbn.
      repeat split; try (intros Habs; rewrite ?(coalesce_absent _ _ Habs);
        reflexivity).
      * intros Habs. rewrite (absent_falsy _ Habs). reflexivity.
      * intros Habs. unfold Apify.facebook_createTime.
        rewrite (absent_falsy _ Habs). reflexivity.
Qed.

End Normalisation.

(** ** The Channel Lister: the TikTok handle *)

Section Handle.
Context `{JsRuntime}.

Lemma filter_first {A : Type} (P : A -> bool) (pre : list A) (x : A)
    (post : list A) :
  P x = true -> (forall p, In p pre -> P p = false) ->
  List.filter P (pre ++ x :: post) = x :: List.filter P post.
Proof.
  intros Hx. induction pre as [| a pre IH]; intros Hpre; simpl.
  - rewrite Hx. reflexivity.
  - rewrite (Hpre a (or_introl eq_refl)). apply IH.
    intros p Hp. apply Hpre. right. exact Hp.
Qed.

Lemma filter_none {A : Type} (P : A -> bool) (l : list A) :
  (forall p, In p l -> P p = false) -> List.filter P l = [].
Proof.
  induction l as [| a l IH]; intros Hl; simpl; [reflexivity |].
  rewrite (Hl a (or_introl eq_refl)). apply IH.
  intros p Hp. apply Hl. right. exact Hp.
Qed.

Lemma startsWith_at (seg : string) :
  startsWith seg "@" = true -> seg = "@" +:+ substring1 seg.
Proof.
  unfold startsWith. destruct seg as [| c rest]; [discriminate |].
  cbn [String.prefix substring1].
  destruct (ascii_dec "@" c) as [<- | Hne]; intros Hp;
    [reflexivity | discriminate Hp].
Qed.

Lemma startsWith_nonempty (seg : string) :
  startsWith seg "@" = true -> nonempty seg = true.
Proof. destruct seg; intros Hp; [discriminate Hp | reflexivity]. Qed.

(** C7 (amended): the handle sent to the backend is the first path
    segment that begins with [@], without the [@].  When the input is
    not a URL, or none of its path segments begins with [@], it is the
    trimmed input, without its leading [@] if it has one. *)
Theorem tiktok_handle_is_first_at_segment :
  forall tiktokUrl : string,
  (forall (u : URL) (pre : list string) (seg : string) (post : list string),
     url_parse tiktokUrl = Some u ->
     split_on "/" (pathname u) = (pre ++ seg :: post)%list ->
     startsWith seg "@" = true ->
     (forall p, In p pre -> startsWith p "@" = false) ->
     "@" +:+ Apify.tiktok_profileName tiktokUrl = seg)
  /\ ((forall (u : URL) (seg : string),
         url_parse tiktokUrl = Some u ->
         In seg (split_on "/" (pathname u)) -> startsWith seg "@" = false) ->
      Apify.tiktok_profileName tiktokUrl
      = if startsWith (trim tiktokUrl) "@" then substring1 (trim tiktokUrl)
        else trim tiktokUrl).
Proof.
  intros tiktokUrl. unfold Apify.tiktok_profileName. split.
  - intros u pre seg post Hu Hsplit Hseg Hpre.
    rewrite Hu, Hsplit.
    rewrite filter_first.
    + symmetry. apply startsWith_at. exact Hseg.
    + rewrite Hseg, (startsWith_nonempty _ Hseg). reflexivity.
    + intros p Hp. rewrite (Hpre p Hp). apply andb_false_r.
  - intros Hnone.
    destruct (url_parse tiktokUrl) as [u |] eqn:Hu; [| reflexivity].
    rewrite filter_none.
    + rewrite (url_parse_scheme _ _ Hu). reflexivity.
    + intros p Hp. rewrite (Hnone u p eq_refl Hp). apply andb_false_r.
Qed.

End Handle.

(** ** The controller: scanning *)

Section Scan.
Context `{JsRuntime}.

(** C8: when the trimmed, lower-cased channel URL contains none of the
    markers [tiktok.com], [facebook.com] and [fb.com], the scan sends no
    request at all and ends with the unsupported-URL error in the status
    line, with an empty video list, on the same step, no longer
    processing. *)
Theorem unsupported_url_fails_before_any_request :
  forall (w : App.ScanWorld) (st : App.AppState),
  includes (toLowerCase (trim (App.channelUrl st))) "tiktok.com" = false ->
  includes (toLowerCase (trim (App.channelUrl st))) "facebook.com" = false ->
  includes (toLowerCase (trim (App.channelUrl st))) "fb.com" = false ->
  snd (App.handleScan w st) = []
  /\ App.status (fst (App.handleScan w st))
     = "Lỗi quét: " +:+ App.unsupported_url_message
  /\ App.videos (fst (App.handleScan w st)) = []
  /\ App.step (fst (App.handleScan w st)) = App.step st
  /\ App.isProcessing (fst (App.handleScan w st)) = false.
Proof.
  intros w st Htiktok Hfacebook Hfb.
  unfold App.handleScan. rewrite Htiktok, Hfacebook, Hfb. cbn.
  repeat split; reflexivity.
Qed.

End Scan.

(** ** The controller: one attempt *)

(** Unfolds the setters down to record literals. *)
Ltac run_setters :=
  cbv beta iota zeta delta
    [App.setStep App.setChannelUrl App.setIsProcessing App.setStatus
     App.setVideos App.setMp3Links App.setTranscriptStates
     App.setTranscriptCache App.setRetryingIds App.setStopRequest
     App.putState App.putCache App.press_stop App.handleStopProcessing
     Props.settle Props.entry_of Props.is_success
     App.step App.googleApiKey App.apifyToken App.channelUrl
     App.resultsLimit App.isProcessing App.status App.videos App.mp3Links
     App.transcriptStates App.transcriptCache App.retryingIds
     App.stopRequest fst snd negb andb orb app];
  fold (@app App.Event).

Section Attempt.
Context `{JsRuntime}.
Import Props.

(** Reading the state after an update. *)
Lemma settle_states (url : string) (r : Completion string) (st : App.AppState) :
  App.transcriptStates (settle url r st)
  = <[url := entry_of r]> (App.transcriptStates st).
Proof. reflexivity. Qed.

Lemma settle_cache (url : string) (r : Completion string) (st : App.AppState) :
  App.transcriptCache (settle url r st)
  = match r with
    | Returned transcript => <[url := transcript]> (App.transcriptCache st)
    | Threw _ => App.transcriptCache st
    end.
Proof. reflexivity. Qed.

Lemma press_stop_states (b : bool) (st : App.AppState) :
  App.transcriptStates (App.press_stop b st) = App.transcriptStates st.
Proof. destruct b; reflexivity. Qed.

Lemma press_stop_cache (b : bool) (st : App.AppState) :
  App.transcriptCache (App.press_stop b st) = App.transcriptCache st.
Proof. destruct b; reflexivity. Qed.

Lemma press_stop_flag (b : bool) (st : App.AppState) :
  App.stopRequest (App.press_stop b st) = b || App.stopRequest st.
Proof. destruct b; reflexivity. Qed.

(** The loop body in closed form: the attempt of item [i] completes
    whatever the operator does meanwhile, its outcome is recorded, and the
    pause follows exactly when the item is not the last one and Stop has
    not been requested. *)
Lemma process_item_closed_form (w : App.TranscribeWorld) (key : string)
    (links : gmap string string) (total i : nat) (video : Types.SocialVideo)
    (n : nat) (st : App.AppState) :
  let url := App.video_url video in
  let mp3Url := default EmptyString (links !! url) in
  let out := App.two_phase (App.media w i mp3Url) (App.generateContent w i) key in
  let st1 :=
    settle url (fst out)
      (App.press_stop (pressed_mid_item w i (App.media w i mp3Url))
         (App.setStatus (App.progress_message i total video) st)) in
  let block := block_of url mp3Url (App.media w i mp3Url) out in
  let n1 := (if is_success (fst out) then S n else n) in
  App.process_item w key links total i video n st
  = if (i <? total - 1)%nat && negb (App.stopRequest st1)
    then (n1, App.press_stop (App.stop_pressed w i App.AtPause) st1,
          (block ++ [App.Slept App.API_CALL_DELAY_MS])%list)
    else (n1, st1, block).
Proof.
  intros url mp3Url out st1 block n1.
  subst st1 block n1 out. unfold App.process_item, block_of, App.two_phase,
    pressed_mid_item, download_ok.
  fold url. fold mp3Url.
  destruct st as [stp gk at_ cu rl ip sts vs ml ts tc ri sr].
  destruct (App.stop_pressed w i App.AtDownload) eqn:Hd;
    destruct (App.getBase64FromUrl (App.media w i mp3Url)) as [[base64 mime] | e];
    try destruct (Gemini.transcribeAudioWithGemini (App.generateContent w i)
                    key base64 mime) as [[t | e] sent];
    try destruct (App.stop_pressed w i App.AtTranscription) eqn:Ht;
    run_setters;
    destruct ((i <? total - 1)%nat); try destruct sr;
    try destruct (App.stop_pressed w i App.AtPause);
    run_setters; rewrite ?insert_insert_eq; reflexivity.
Qed.

End Attempt.

(** ** The controller: retrying one item *)

Section Retry.
Context `{JsRuntime}.
Import Props.



End Retry.

(** ** The controller: the sequential loop *)

Section Loop.
Context `{JsRuntime}.
Import Props.

Variable w : App.TranscribeWorld.
Variable key : string.
Variable links : gmap string string.
Variable total : nat.

Lemma loop_step (i : nat) (video : Types.SocialVideo)
    (rest : list Types.SocialVideo) (n : nat) (st : App.AppState) :
  App.stopRequest st = false ->
  App.transcribe_loop w key links total i (video :: rest) n st
  = let '(n1, st1, e1) := App.process_item w key links total i video n st in
    let '(n2, st2, e2) := App.transcribe_loop w key links total (S i) rest n1 st1 in
    (n2, st2, (e1 ++ e2)%list).
Proof. intros Hflag. simpl. rewrite Hflag. reflexivity. Qed.

Lemma loop_stopped (i : nat) (video : Types.SocialVideo)
    (rest : list Types.SocialVideo) (n : nat) (st : App.AppState) :
  App.stopRequest st = true ->
  App.transcribe_loop w key links total i (video :: rest) n st
  = (n, App.setStatus (App.stopped_message n) st, []).
Proof. intros Hflag. simpl. rewrite Hflag. reflexivity. Qed.

(** An item during which Stop is not pressed. *)
Lemma process_item_quiet (i : nat) (video : Types.SocialVideo) (n : nat)
    (st : App.AppState) :
  App.stopRequest st = false ->
  (forall p, App.stop_pressed w i p = false) ->
  App.process_item w key links total i video n st
  = ((if is_success (attempt w key links i video) then S n else n),
     settle (App.video_url video) (attempt w key links i video)
       (App.setStatus (App.progress_message i total video) st),
     (item_block w key links i video
      ++ (if (i <? total - 1)%nat then [App.Slept App.API_CALL_DELAY_MS]
          else []))%list).
Proof.
  intros Hflag Hquiet. rewrite process_item_closed_form.
  unfold pressed_mid_item. rewrite !Hquiet, andb_false_r.
  cbn [orb App.press_stop]. fold (attempt w key links i video).
  fold (item_block w key links i video).
  replace (App.stopRequest (settle _ _ _)) with false
    by (destruct st; cbn in *; congruence).
  cbn [negb]. rewrite andb_true_r.
  destruct (i <? total - 1)%nat; [| rewrite app_nil_r]; reflexivity.
Qed.

Lemma quiet_state_flag (i : nat) (items : list Types.SocialVideo)
    (st : App.AppState) :
  App.stopRequest (quiet_state w key links total i items st)
  = App.stopRequest st.
Proof.
  revert i st. induction items as [| v rest IH]; intros i st; simpl;
    [reflexivity |].
  rewrite IH. destruct st; reflexivity.
Qed.

Lemma quiet_state_states (i : nat) (items : list Types.SocialVideo)
    (st : App.AppState) :
  App.transcriptStates (quiet_state w key links total i items st)
  = record_states (results w key links i items) (App.transcriptStates st).
Proof.
  revert i st. induction items as [| v rest IH]; intros i st; simpl;
    [reflexivity |].
  rewrite IH. destruct st; reflexivity.
Qed.

Lemma quiet_state_cache (i : nat) (items : list Types.SocialVideo)
    (st : App.AppState) :
  App.transcriptCache (quiet_state w key links total i items st)
  = record_cache (results w key links i items) (App.transcriptCache st).
Proof.
  revert i st. induction items as [| v rest IH]; intros i st; simpl;
    [reflexivity |].
  rewrite IH. destruct st; cbn.
  destruct (attempt w key links i v); reflexivity.
Qed.

Lemma successes_cons (url : string) (r : Completion string)
    (rs : list (string * Completion string)) :
  successes ((url, r) :: rs)
  = ((if is_success r then 1 else 0) + successes rs)%nat.
Proof. unfold successes. simpl. destruct (is_success r); reflexivity. Qed.

(** A stretch of the loop without any request to stop: it runs through
    all of [xs] and goes on with what follows. *)
Lemma loop_quiet_prefix (xs zs : list Types.SocialVideo) :
  forall (i n : nat) (st : App.AppState),
  App.stopRequest st = false ->
  (forall j p, (i <= j < i + length xs)%nat -> App.stop_pressed w j p = false) ->
  App.transcribe_loop w key links total i (xs ++ zs) n st
  = let '(n', st', evs) :=
      App.transcribe_loop w key links total (i + length xs) zs
        (n + successes (results w key links i xs))
        (quiet_state w key links total i xs st) in
    (n', st', (quiet_trace w key links total i xs ++ evs)%list).
Proof.
  induction xs as [| v rest IH]; intros i n st Hflag Hquiet.
  - simpl. rewrite !Nat.add_0_r.
    destruct (App.transcribe_loop _ _ _ _ _ _ _ _) as [[n' st'] evs].
    reflexivity.
  - rewrite <- app_comm_cons, loop_step by exact Hflag.
    rewrite process_item_quiet;
      [| exact Hflag | intros p; apply Hquiet; simpl; lia].
    rewrite IH.
    + cbn [results quiet_state quiet_trace length].
      rewrite successes_cons.
      replace (S i + length rest)%nat with (i + S (length rest))%nat by lia.
      replace (n + ((if is_success (attempt w key links i v) then 1 else 0)
                    + successes (results w key links (S i) rest)))%nat
        with ((if is_success (attempt w key links i v) then S n else n)
              + successes (results w key links (S i) rest))%nat
        by (destruct (is_success _); lia).
      destruct (App.transcribe_loop _ _ _ _ _ _ _ _) as [[n' st'] evs].
      rewrite <- !app_assoc. reflexivity.
    + destruct st; cbn in *; congruence.
    + intros j p Hj. apply Hquiet. simpl. lia.
Qed.

Lemma loop_quiet (items : list Types.SocialVideo) (i n : nat)
    (st : App.AppState) :
  App.stopRequest st = false ->
  (forall j p, (i <= j < i + length items)%nat ->
               App.stop_pressed w j p = false) ->
  App.transcribe_loop w key links total i items n st
  = ((n + successes (results w key links i items))%nat,
     quiet_state w key links total i items st,
     quiet_trace w key links total i items).
Proof.
  intros Hflag Hquiet.
  rewrite <- (app_nil_r items) at 1.
  rewrite loop_quiet_prefix by assumption.
  simpl. rewrite app_nil_r. reflexivity.
Qed.

End Loop.

(** ** Reading traces *)

Section Traces.
Context `{JsRuntime}.
Import Props.

Lemma downloads_app (a b : list App.Event) :
  downloads (a ++ b) = (downloads a + downloads b)%nat.
Proof. unfold downloads. rewrite List.filter_app, length_app. reflexivity. Qed.

Lemma generations_app (a b : list App.Event) :
  generations (a ++ b) = (generations a + generations b)%nat.
Proof. unfold generations. rewrite List.filter_app, length_app. reflexivity. Qed.

Lemma outcomes_app (a b : list App.Event) :
  outcomes (a ++ b) = (outcomes a ++ outcomes b)%list.
Proof.
  induction a as [| e a IH]; [reflexivity |].
  destruct e; simpl; try exact IH.
  destruct (is_final entry); simpl; rewrite IH; reflexivity.
Qed.

Lemma total_delay_app (a b : list App.Event) :
  total_delay (a ++ b) = (total_delay a + total_delay b)%Z.
Proof.
  induction a as [| e a IH]; [reflexivity |].
  destruct e; simpl; rewrite ?IH; lia.
Qed.

Lemma generated_only (sent : list Gemini.GenerateRequest) :
  downloads (map App.Generated sent) = 0%nat
  /\ generations (map App.Generated sent) = length sent
  /\ outcomes (map App.Generated sent) = []
  /\ total_delay (map App.Generated sent) = 0%Z
  /\ List.filter is_pause (map App.Generated sent) = [].
Proof.
  unfold downloads, generations.
  induction sent as [| r sent (IH1 & IH2 & IH3 & IH4 & IH5)]; simpl;
    repeat split; auto.
Qed.

Lemma entry_of_final (r : Completion string) : is_final (entry_of r) = true.
Proof. destruct r; reflexivity. Qed.

Variable w : App.TranscribeWorld.
Variable key : string.
Variable links : gmap string string.

(** What one attempt leaves in the trace. *)
Lemma item_block_facts (i : nat) (video : Types.SocialVideo) :
  let b := item_block w key links i video in
  downloads b = 1%nat
  /\ List.filter is_pause b = []
  /\ total_delay b = 0%Z
  /\ outcomes b
     = [(App.video_url video, entry_of (attempt w key links i video))]
  /\ (generations b <= 1)%nat
  /\ (key <> EmptyString ->
      download_ok
        (App.media w i (default EmptyString (links !! App.video_url video)))
      = true ->
      generations b = 1%nat)
  /\ exists front,
       b = (front ++ [App.StateSet (App.video_url video)
                        (entry_of (attempt w key links i video))])%list.
Proof.
  unfold item_block, attempt, block_of, App.two_phase, download_ok.
  set (url := App.video_url video).
  set (mp3Url := default EmptyString (links !! url)).
  destruct (App.getBase64FromUrl (App.media w i mp3Url)) as [[base64 mime] | e].
  - unfold Gemini.transcribeAudioWithGemini.
    destruct key as [| c key']; cbn [nonempty negb fst snd].
    + cbn. repeat split; try reflexivity; try lia; try congruence.
      eexists [_; _; _]. reflexivity.
    + destruct (Gemini.read_transcript _) as [t | e]; cbn;
        (repeat split; try reflexivity; try lia);
        eexists [_; _; _; _]; reflexivity.
  - cbn. repeat split; try reflexivity; try lia; try congruence.
    eexists [_; _]. reflexivity.
Qed.

Lemma item_block_one_attempt (i : nat) (video : Types.SocialVideo) :
  one_attempt (item_block w key links i video).
Proof.
  destruct (item_block_facts i video) as (Hd & Hp & _). split; assumption.
Qed.

Lemma blocks_length (i : nat) (items : list Types.SocialVideo) :
  length (blocks w key links i items) = length items.
Proof.
  revert i. induction items as [| v rest IH]; intros i; simpl;
    [reflexivity | rewrite IH; reflexivity].
Qed.

Lemma blocks_one_attempt (i : nat) (items : list Types.SocialVideo) :
  Forall one_attempt (blocks w key links i items).
Proof.
  revert i. induction items as [| v rest IH]; intros i; simpl;
    constructor; [apply item_block_one_attempt | apply IH].
Qed.

Variable total : nat.

Lemma quiet_trace_downloads (i : nat) (items : list Types.SocialVideo) :
  downloads (quiet_trace w key links total i items) = length items.
Proof.
  revert i. induction items as [| v rest IH]; intros i;
    [reflexivity |].
  cbn [quiet_trace results map length].
  rewrite !downloads_app, IH.
  destruct (item_block_facts i v) as (-> & _).
  destruct (i <? total - 1)%nat; reflexivity.
Qed.

Lemma quiet_trace_outcomes (i : nat) (items : list Types.SocialVideo) :
  outcomes (quiet_trace w key links total i items)
  = map (fun p => (fst p, entry_of (snd p))) (results w key links i items).
Proof.
  revert i. induction items as [| v rest IH]; intros i;
    [reflexivity |].
  cbn [quiet_trace results map length].
  rewrite !outcomes_app, IH.
  destruct (item_block_facts i v) as (_ & _ & _ & -> & _).
  destruct (i <? total - 1)%nat; reflexivity.
Qed.

Lemma quiet_trace_generations (i : nat) (items : list Types.SocialVideo) :
  (generations (quiet_trace w key links total i items) <= length items)%nat
  /\ (key <> EmptyString ->
      (forall j v, items !! j = Some v ->
         download_ok
           (App.media w (i + j)
              (default EmptyString (links !! App.video_url v))) = true) ->
      generations (quiet_trace w key links total i items) = length items).
Proof.
  revert i. induction items as [| v rest IH]; intros i.
  - split; [unfold generations; simpl; lia | reflexivity].
  - cbn [quiet_trace length]. rewrite !generations_app.
    destruct (item_block_facts i v) as (_ & _ & _ & _ & Hle & Heq & _).
    destruct (IH (S i)) as [IHle IHeq].
    assert (Hp : generations
                   (if (i <? total - 1)%nat
                    then [App.Slept App.API_CALL_DELAY_MS] else []) = 0%nat)
      by (destruct (i <? total - 1)%nat; reflexivity).
    rewrite Hp. split; [lia |].
    intros Hkey Hok. rewrite Heq, IHeq; try assumption.
    + reflexivity.
    + intros j v' Hj. replace (S i + j)%nat with (i + S j)%nat by lia.
      apply Hok. exact Hj.
    + specialize (Hok 0%nat v eq_refl). rewrite Nat.add_0_r in Hok. exact Hok.
Qed.

(** A run that reaches the end of the list is the sequence of its
    attempts with one pause between neighbours and none at the end. *)
Lemma quiet_trace_joined (i : nat) (items : list Types.SocialVideo) :
  (i + length items = total)%nat ->
  quiet_trace w key links total i items
  = joined App.API_CALL_DELAY_MS (blocks w key links i items).
Proof.
  revert i. induction items as [| v rest IH]; intros i Hlen;
    [reflexivity |].
  cbn [quiet_trace blocks]. rewrite IH by (simpl in Hlen; lia).
  destruct rest as [| v' rest'].
  - simpl in *. replace (i <? total - 1)%nat with false
      by (symmetry; apply Nat.ltb_ge; lia).
    rewrite !app_nil_r. reflexivity.
  - simpl in Hlen. replace (i <? total - 1)%nat with true
      by (symmetry; apply Nat.ltb_lt; lia).
    reflexivity.
Qed.

Lemma quiet_trace_delay (i : nat) (items : list Types.SocialVideo) :
  (i + length items = total)%nat ->
  total_delay (quiet_trace w key links total i items)
  = (App.API_CALL_DELAY_MS * Z.of_nat (length items - 1))%Z
  /\ length (List.filter is_pause (quiet_trace w key links total i items))
     = (length items - 1)%nat.
Proof.
  revert i. induction items as [| v rest IH]; intros i Hlen;
    [split; reflexivity |].
  cbn [quiet_trace]. rewrite !total_delay_app, !List.filter_app, !length_app.
  destruct (item_block_facts i v) as (_ & -> & -> & _).
  destruct (IH (S i)) as [-> ->]; [simpl in Hlen; lia |].
  destruct rest as [| v' rest'].
  - simpl in *. replace (i <? total - 1)%nat with false
      by (symmetry; apply Nat.ltb_ge; lia).
    split; reflexivity.
  - simpl in Hlen. replace (i <? total - 1)%nat with true
      by (symmetry; apply Nat.ltb_lt; lia).
    cbn [length total_delay List.filter is_pause]. split; [| simpl; lia].
    replace (S (S (length rest')) - 1)%nat with (S (length rest')) by lia.
    replace (S (length rest') - 1)%nat with (length rest') by lia.
    unfold App.API_CALL_DELAY_MS. lia.
Qed.

(** The last event of such a run records the outcome of its last item. *)
Lemma quiet_trace_ends (i : nat) (items : list Types.SocialVideo) :
  (i + length items = total)%nat -> items <> [] ->
  exists front url entry,
    quiet_trace w key links total i items
    = (front ++ [App.StateSet url entry])%list
    /\ is_final entry = true.
Proof.
  revert i. induction items as [| v rest IH]; intros i Hlen Hne;
    [congruence |].
  destruct rest as [| v' rest'].
  - cbn [quiet_trace]. simpl in Hlen.
    replace (i <? total - 1)%nat with false
      by (symmetry; apply Nat.ltb_ge; lia).
    rewrite !app_nil_r.
    destruct (item_block_facts i v) as (_ & _ & _ & _ & _ & _ & front & ->).
    exists front, (App.video_url v), (entry_of (attempt w key links i v)).
    split; [reflexivity | apply entry_of_final].
  - destruct (IH (S i)) as (front & url & entry & Heq & Hfin);
      [simpl in *; lia | congruence |].
    change (quiet_trace w key links total i (v :: v' :: rest'))
      with (item_block w key links i v
            ++ (if (i <? total - 1)%nat
                then [App.Slept App.API_CALL_DELAY_MS] else [])
            ++ quiet_trace w key links total (S i) (v' :: rest'))%list.
    rewrite Heq.
    exists (item_block w key links i v
            ++ (if (i <? total - 1)%nat
                then [App.Slept App.API_CALL_DELAY_MS] else [])
            ++ front)%list, url, entry.
    split; [| exact Hfin]. rewrite !app_assoc. reflexivity.
Qed.

End Traces.

(** ** Recording completions in the dictionaries *)

Section Records.
Context `{JsRuntime}.
Import Props.

Lemma record_states_out (rs : list (string * Completion string))
    (m : gmap string Types.TranscriptEntry) (u : string) :
  ~ In u (map fst rs) -> record_states rs m !! u = m !! u.
Proof.
  revert m. induction rs as [| [u' r] rest IH]; intros m Hout;
    [reflexivity |].
  simpl in *. rewrite IH by tauto. apply lookup_insert_ne. tauto.
Qed.

Lemma record_states_in (rs : list (string * Completion string))
    (m : gmap string Types.TranscriptEntry) (u : string)
    (r : Completion string) :
  NoDup (map fst rs) -> In (u, r) rs ->
  record_states rs m !! u = Some (entry_of r).
Proof.
  revert m. induction rs as [| [u' r'] rest IH]; intros m Hnd Hin;
    [contradiction |].
  simpl in Hnd. apply NoDup_cons in Hnd as [Hfresh Hnd].
  destruct Hin as [Heq | Hin].
  - inversion Heq; subst. simpl.
    rewrite record_states_out by (rewrite <- list_elem_of_In; exact Hfresh).
    apply lookup_insert_eq.
  - simpl. apply IH; assumption.
Qed.

Lemma record_cache_out (rs : list (string * Completion string))
    (m : gmap string string) (u : string) :
  ~ In u (map fst rs) -> record_cache rs m !! u = m !! u.
Proof.
  revert m. induction rs as [| [u' r] rest IH]; intros m Hout;
    [reflexivity |].
  simpl in *. destruct r; rewrite IH by tauto; [| reflexivity].
  apply lookup_insert_ne. tauto.
Qed.

Lemma record_cache_in (rs : list (string * Completion string))
    (m : gmap string string) (u : string) (r : Completion string) :
  NoDup (map fst rs) -> In (u, r) rs ->
  record_cache rs m !! u
  = match r with
    | Returned transcript => Some transcript
    | Threw _ => m !! u
    end.
Proof.
  revert m. induction rs as [| [u' r'] rest IH]; intros m Hnd Hin;
    [contradiction |].
  simpl in Hnd. apply NoDup_cons in Hnd as [Hfresh Hnd].
  destruct Hin as [Heq | Hin].
  - inversion Heq; subst. simpl.
    destruct r;
      rewrite record_cache_out by (rewrite <- list_elem_of_In; exact Hfresh);
      [apply lookup_insert_eq | reflexivity].
  - simpl. destruct r'; rewrite IH by assumption; [| reflexivity].
    destruct r; [reflexivity |].
    apply lookup_insert_ne. intros ->. apply Hfresh.
    rewrite list_elem_of_In. apply in_map_iff. exists (u, Threw e). tauto.
Qed.

Lemma record_states_app (a b : list (string * Completion string))
    (m : gmap string Types.TranscriptEntry) :
  record_states (a ++ b) m = record_states b (record_states a m).
Proof.
  revert m. induction a as [| [u r] a IH]; intros m; [reflexivity |].
  simpl. apply IH.
Qed.

Lemma record_cache_app (a b : list (string * Completion string))
    (m : gmap string string) :
  record_cache (a ++ b) m = record_cache b (record_cache a m).
Proof.
  revert m. induction a as [| [u r] a IH]; intros m; [reflexivity |].
  simpl. destruct r; apply IH.
Qed.

(** The entry filed under a URL is the one of the last completion
    recorded under it. *)
Lemma record_states_last (a b : list (string * Completion string))
    (m : gmap string Types.TranscriptEntry) (u : string)
    (r : Completion string) :
  ~ In u (map fst b) ->
  record_states (a ++ (u, r) :: b) m !! u = Some (entry_of r).
Proof.
  intros Hb. rewrite record_states_app. simpl.
  rewrite record_states_out by exact Hb. apply lookup_insert_eq.
Qed.

Lemma record_cache_last (a b : list (string * Completion string))
    (m : gmap string string) (u : string) (r : Completion string) :
  ~ In u (map fst b) ->
  record_cache (a ++ (u, r) :: b) m !! u
  = match r with
    | Returned transcript => Some transcript
    | Threw _ => record_cache a m !! u
    end.
Proof.
  intros Hb. rewrite record_cache_app.
  destruct r; simpl; rewrite record_cache_out by exact Hb;
    [apply lookup_insert_eq | reflexivity].
Qed.

Variable w : App.TranscribeWorld.
Variable key : string.
Variable links : gmap string string.

Lemma results_urls (i : nat) (items : list Types.SocialVideo) :
  map fst (results w key links i items) = map App.video_url items.
Proof.
  revert i. induction items as [| v rest IH]; intros i; simpl;
    [reflexivity | rewrite IH; reflexivity].
Qed.

Lemma results_length (i : nat) (items : list Types.SocialVideo) :
  length (results w key links i items) = length items.
Proof.
  revert i. induction items as [| v rest IH]; intros i; simpl;
    [reflexivity | rewrite IH; reflexivity].
Qed.

Lemma results_app (i : nat) (xs ys : list Types.SocialVideo) :
  results w key links i (xs ++ ys)
  = (results w key links i xs ++ results w key links (i + length xs) ys)%list.
Proof.
  revert i. induction xs as [| v rest IH]; intros i; simpl.
  - rewrite Nat.add_0_r. reflexivity.
  - rewrite IH. replace (S i + length rest)%nat with (i + S (length rest))%nat
      by lia. reflexivity.
Qed.

Lemma results_in (i j : nat) (items : list Types.SocialVideo)
    (v : Types.SocialVideo) :
  items !! j = Some v ->
  In (App.video_url v, attempt w key links (i + j) v)
     (results w key links i items).
Proof.
  revert i j. induction items as [| v' rest IH]; intros i j Hj;
    [discriminate |].
  destruct j as [| j]; simpl in *.
  - inversion Hj; subst. rewrite Nat.add_0_r. left. reflexivity.
  - right. replace (i + S j)%nat with (S i + j)%nat by lia. apply IH. exact Hj.
Qed.

Lemma results_split (j : nat) (items : list Types.SocialVideo)
    (v : Types.SocialVideo) :
  items !! j = Some v ->
  results w key links 0 items
  = (results w key links 0 (take j items)
     ++ (App.video_url v, attempt w key links j v)
        :: results w key links (S j) (drop (S j) items))%list.
Proof.
  intros Hj. rewrite <- (take_drop_middle items j v Hj) at 1.
  rewrite results_app. cbn [results Nat.add].
  rewrite length_take_le by (apply lookup_lt_Some in Hj; lia).
  reflexivity.
Qed.

(** What the dictionaries hold under the URL of the item at position
    [j] once the completions of [items] are recorded, when no later item
    has that URL. *)
Lemma item_recorded (j : nat) (items : list Types.SocialVideo)
    (v : Types.SocialVideo) (m : gmap string Types.TranscriptEntry)
    (c : gmap string string) :
  items !! j = Some v ->
  ~ In (App.video_url v) (map App.video_url (drop (S j) items)) ->
  record_states (results w key links 0 items) m !! App.video_url v
  = Some (entry_of (attempt w key links j v))
  /\ record_cache (results w key links 0 items) c !! App.video_url v
     = match attempt w key links j v with
       | Returned transcript => Some transcript
       | Threw _ =>
           record_cache (results w key links 0 (take j items)) c
             !! App.video_url v
       end.
Proof.
  intros Hj Hlater. rewrite (results_split j items v Hj).
  assert (Hb : ~ In (App.video_url v)
                 (map fst (results w key links (S j) (drop (S j) items))))
    by (rewrite results_urls; exact Hlater).
  split; [apply record_states_last | apply record_cache_last]; exact Hb.
Qed.

Lemma successes_le (rs : list (string * Completion string)) :
  (successes rs <= length rs)%nat.
Proof. unfold successes. apply List.filter_length_le. Qed.

(** A transcript handed back by the two phases is never empty. *)
Lemma two_phase_nonempty (fetched : App.MediaOutcome)
    (generate : Gemini.GenerateRequest -> Gemini.GenerateOutcome)
    (transcript : string) :
  fst (App.two_phase fetched generate key) = Returned transcript ->
  nonempty transcript = true.
Proof.
  unfold App.two_phase, Gemini.transcribeAudioWithGemini.
  destruct (App.getBase64FromUrl fetched) as [[base64 mime] | e];
    [| discriminate].
  destruct (negb (nonempty key)); [discriminate |].
  cbn [fst]. unfold Gemini.read_transcript.
  destruct (generate _) as [[t |] | e]; try discriminate.
  destruct (nonempty t) eqn:Ht; [| discriminate].
  intros Heq. inversion Heq; subst. exact Ht.
Qed.

End Records.

(** ** The controller: a transcription run *)

Section Run.
Context `{JsRuntime}.
Import Props.

Lemma handleTranscribe_nothing (w : App.TranscribeWorld) (st0 : App.AppState) :
  to_process st0 = [] ->
  App.handleTranscribe w st0
  = (App.setIsProcessing false (App.setStatus App.nothing_message (started st0)),
     []).
Proof.
  unfold to_process, App.handleTranscribe. intros ->. reflexivity.
Qed.

Lemma handleTranscribe_run (w : App.TranscribeWorld) (st0 : App.AppState) :
  to_process st0 <> [] ->
  App.handleTranscribe w st0
  = let '(n, st, evs) :=
      App.transcribe_loop w (App.googleApiKey st0) (App.mp3Links st0)
        (length (to_process st0)) 0 (to_process st0) 0 (started st0) in
    (App.setIsProcessing false
       (if negb (App.stopRequest st)
        then App.setStatus (App.done_message n) st else st), evs).
Proof.
  unfold to_process, App.handleTranscribe. fold (started st0).
  destruct (List.filter _ _) as [| v rest]; [congruence | reflexivity].
Qed.

(** A run during which Stop is never pressed. *)
Lemma handleTranscribe_quiet (w : App.TranscribeWorld) (st0 : App.AppState) :
  (forall i p, App.stop_pressed w i p = false) ->
  to_process st0 <> [] ->
  App.handleTranscribe w st0
  = (App.setIsProcessing false
       (App.setStatus
          (App.done_message
             (successes (results w (App.googleApiKey st0) (App.mp3Links st0)
                           0 (to_process st0))))
          (quiet_state w (App.googleApiKey st0) (App.mp3Links st0)
             (length (to_process st0)) 0 (to_process st0) (started st0))),
     quiet_trace w (App.googleApiKey st0) (App.mp3Links st0)
       (length (to_process st0)) 0 (to_process st0)).
Proof.
  intros Hquiet Hne. rewrite handleTranscribe_run by exact Hne.
  rewrite loop_quiet; [| reflexivity | intros; apply Hquiet].
  rewrite quiet_state_flag. reflexivity.
Qed.

Lemma quiet_run_trace (w : App.TranscribeWorld) (st0 : App.AppState) :
  (forall i p, App.stop_pressed w i p = false) ->
  snd (App.handleTranscribe w st0)
  = quiet_trace w (App.googleApiKey st0) (App.mp3Links st0)
      (length (to_process st0)) 0 (to_process st0).
Proof.
  intros Hquiet. destruct (to_process st0) as [| v rest] eqn:Hitems.
  - rewrite handleTranscribe_nothing by exact Hitems. reflexivity.
  - rewrite handleTranscribe_quiet; [| exact Hquiet | congruence].
    rewrite Hitems. reflexivity.
Qed.

(** C1: when Stop is never pressed, a run over N eligible videos makes
    exactly N attempts, each starting with one download, followed by at
    most one call of the Transcriber (exactly one when the key is set and
    the download succeeds).  The trace is the N attempts with one pause of
    6000 ms between neighbours: N-1 pauses, (N-1) * 6000 ms in all, and
    the run never ends on a pause. *)
Theorem sequential_loop_attempts_and_pauses :
  forall (w : App.TranscribeWorld) (st0 : App.AppState),
  (forall i p, App.stop_pressed w i p = false) ->
  let items := to_process st0 in
  let key := App.googleApiKey st0 in
  let links := App.mp3Links st0 in
  let evs := snd (App.handleTranscribe w st0) in
  downloads evs = length items
  /\ (generations evs <= length items)%nat
  /\ (key <> EmptyString ->
      (forall j v, items !! j = Some v ->
         download_ok
           (App.media w j (default EmptyString (links !! App.video_url v)))
         = true) ->
      generations evs = length items)
  /\ evs = joined App.API_CALL_DELAY_MS (blocks w key links 0 items)
  /\ length (blocks w key links 0 items) = length items
  /\ Forall one_attempt (blocks w key links 0 items)
  /\ length (List.filter is_pause evs) = (length items - 1)%nat
  /\ total_delay evs = (App.API_CALL_DELAY_MS * Z.of_nat (length items - 1))%Z
  /\ App.API_CALL_DELAY_MS = 6000%Z
  /\ (forall front ms, evs <> (front ++ [App.Slept ms])%list).
Proof.
  intros w st0 Hquiet items key links evs.
  assert (Hevs : evs = quiet_trace w key links (length items) 0 items)
    by (apply quiet_run_trace; exact Hquiet).
  rewrite Hevs. clear Hevs evs.
  split; [apply quiet_trace_downloads |].
  split; [apply quiet_trace_generations |].
  split; [apply (quiet_trace_generations w key links (length items) 0 items) |].
  split; [apply quiet_trace_joined; reflexivity |].
  split; [apply blocks_length |].
  split; [apply blocks_one_attempt |].
  split; [apply quiet_trace_delay; reflexivity |].
  split; [apply quiet_trace_delay; reflexivity |].
  split; [reflexivity |].
  intros front ms Heq.
  destruct items as [| v rest] eqn:Hitems.
  - destruct front; discriminate Heq.
  - destruct (quiet_trace_ends w key links (length (v :: rest)) 0 (v :: rest))
      as (front' & url & entry & Hend & _); [reflexivity | congruence |].
    rewrite Hend in Heq. apply app_inj_tail in Heq as [_ Heq]. discriminate Heq.
Qed.

(** C4, general part: when Stop is never pressed every eligible video
    is attempted whatever the fate of the others, the outcome of every
    attempt is recorded, in order, and the report counts the successes.
    The dictionaries are keyed by URL: a video that is the last with its
    URL ends in the state of its own attempt, with its transcript cached
    when the attempt succeeded, and with its cache entry as before the
    run when the attempt failed and no earlier video has its URL. *)
Lemma failures_do_not_stop_the_loop (w : App.TranscribeWorld)
    (st0 : App.AppState) :
  (forall i p, App.stop_pressed w i p = false) ->
  let items := to_process st0 in
  let key := App.googleApiKey st0 in
  let links := App.mp3Links st0 in
  let st' := fst (App.handleTranscribe w st0) in
  let evs := snd (App.handleTranscribe w st0) in
  let rs := results w key links 0 items in
  downloads evs = length items
  /\ outcomes evs = map (fun r => (fst r, entry_of (snd r))) rs
  /\ (items <> [] -> App.status st' = App.done_message (successes rs))
  /\ forall j v, items !! j = Some v ->
       ~ In (App.video_url v) (map App.video_url (drop (S j) items)) ->
       (forall e, attempt w key links j v = Threw e ->
          App.transcriptStates st' !! App.video_url v = Some (App.failed e)
          /\ (~ In (App.video_url v) (map App.video_url (take j items)) ->
              App.transcriptCache st' !! App.video_url v
              = App.transcriptCache st0 !! App.video_url v))
       /\ (forall t, attempt w key links j v = Returned t ->
             App.transcriptStates st' !! App.video_url v
             = Some (App.succeeded t)
             /\ App.transcriptCache st' !! App.video_url v = Some t).
Proof.
  intros Hquiet items key links st' evs rs.
  split.
  { subst evs. rewrite quiet_run_trace by exact Hquiet.
    apply quiet_trace_downloads. }
  split.
  { subst evs. rewrite quiet_run_trace by exact Hquiet.
    apply quiet_trace_outcomes. }
  split.
  - intros Hne. subst st'. rewrite handleTranscribe_quiet by assumption.
    reflexivity.
  - intros j v Hj Hlater.
    assert (Hne : items <> []) by (intros E; rewrite E in Hj; discriminate).
    assert (Hst : App.transcriptStates st'
                  = record_states rs (App.transcriptStates st0)).
    { subst st'. rewrite handleTranscribe_quiet by assumption.
      cbn [fst]. change (App.transcriptStates (App.setIsProcessing _ (App.setStatus _ ?s)))
        with (App.transcriptStates s).
      rewrite quiet_state_states. reflexivity. }
    assert (Hc : App.transcriptCache st'
                 = record_cache rs (App.transcriptCache st0)).
    { subst st'. rewrite handleTranscribe_quiet by assumption.
      cbn [fst]. change (App.transcriptCache (App.setIsProcessing _ (App.setStatus _ ?s)))
        with (App.transcriptCache s).
      rewrite quiet_state_cache. reflexivity. }
    destruct (item_recorded w key links j items v (App.transcriptStates st0)
                (App.transcriptCache st0) Hj Hlater) as [Hs' Hc'].
    fold rs in Hs', Hc'. rewrite Hst, Hc, Hs', Hc'.
    split; [intros e -> | intros t ->]; split; try reflexivity.
    intros Hearlier. apply record_cache_out.
    rewrite results_urls. exact Hearlier.
Qed.

End Run.

(** ** The controller: cancellation *)

Section Cancellation.
Context `{JsRuntime}.
Import Props.

Variable w : App.TranscribeWorld.
Variable key : string.
Variable links : gmap string string.
Variable total : nat.

(** An item during which Stop is pressed at an await point that is
    reached: the attempt is completed and recorded all the same, and the
    flag is set when the item is left. *)
Lemma process_item_pressed (i : nat) (video : Types.SocialVideo) (n : nat)
    (st : App.AppState) (p : App.AwaitPoint) :
  App.stopRequest st = false ->
  (i < total - 1)%nat ->
  App.stop_pressed w i p = true ->
  await_reached w links i video p ->
  exists st1 e1,
    App.process_item w key links total i video n st
    = ((if is_success (attempt w key links i video) then S n else n), st1, e1)
    /\ App.stopRequest st1 = true
    /\ App.transcriptStates st1
       = <[App.video_url video := entry_of (attempt w key links i video)]>
           (App.transcriptStates st)
    /\ App.transcriptCache st1
       = record_cache [(App.video_url video, attempt w key links i video)]
           (App.transcriptCache st)
    /\ downloads e1 = 1%nat
    /\ outcomes e1
       = [(App.video_url video, entry_of (attempt w key links i video))].
Proof.
  intros Hflag Hlt Hpress Hreached.
  rewrite process_item_closed_form.
  apply Nat.ltb_lt in Hlt. rewrite Hlt. cbn [andb].
  fold (attempt w key links i video). fold (item_block w key links i video).
  destruct (item_block_facts w key links i video) as (Hd & _ & _ & Ho & _).
  set (mid := pressed_mid_item w i _).
  assert (Hcache : forall s,
    App.transcriptCache (settle (App.video_url video)
                           (attempt w key links i video) s)
    = record_cache [(App.video_url video, attempt w key links i video)]
        (App.transcriptCache s)).
  { intros s. rewrite settle_cache. simpl.
    destruct (attempt w key links i video); reflexivity. }
  assert (Hmid : mid = false -> p = App.AtPause).
  { subst mid. unfold pressed_mid_item. destruct p; simpl in Hreached;
      rewrite ?Hpress, ?Hreached; simpl; rewrite ?orb_true_r;
      congruence. }
  destruct mid eqn:Emid.
  - eexists _, _. split.
    + replace (App.stopRequest (settle _ _ _)) with true
        by (destruct st; reflexivity).
      reflexivity.
    + split; [destruct st; reflexivity |].
      split; [rewrite settle_states; destruct st; reflexivity |].
      split; [rewrite Hcache; destruct st; reflexivity |].
      split; assumption.
  - rewrite (Hmid eq_refl) in Hpress.
    eexists _, _. split.
    + replace (App.stopRequest (settle _ _ _)) with false
        by (destruct st; cbn in *; congruence).
      cbn [negb]. rewrite Hpress. reflexivity.
    + split; [destruct st; reflexivity |].
      split; [destruct st; reflexivity |].
      split; [rewrite <- Hcache; destruct st; reflexivity |].
      rewrite downloads_app, outcomes_app, Hd, Ho. split; reflexivity.
Qed.

(** The loop when Stop is first pressed while the item that follows
    [xs] is the current one, and more items are waiting. *)
Lemma loop_stops_after (xs ys : list Types.SocialVideo)
    (v : Types.SocialVideo) (st : App.AppState) (p : App.AwaitPoint) :
  App.stopRequest st = false ->
  ys <> [] ->
  (length xs < total - 1)%nat ->
  (forall j q, (j < length xs)%nat -> App.stop_pressed w j q = false) ->
  App.stop_pressed w (length xs) p = true ->
  await_reached w links (length xs) v p ->
  let rs := results w key links 0 (xs ++ [v]) in
  exists st1 evs,
    App.transcribe_loop w key links total 0 (xs ++ v :: ys) 0 st
    = (successes rs, App.setStatus (App.stopped_message (successes rs)) st1, evs)
    /\ App.stopRequest st1 = true
    /\ App.transcriptStates st1 = record_states rs (App.transcriptStates st)
    /\ App.transcriptCache st1 = record_cache rs (App.transcriptCache st)
    /\ downloads evs = S (length xs)
    /\ outcomes evs = map (fun r => (fst r, entry_of (snd r))) rs.
Proof.
  intros Hflag Hys Hlt Hquiet Hpress Hreached rs.
  rewrite loop_quiet_prefix; [| exact Hflag | intros j q Hj; apply Hquiet; lia].
  cbn [Nat.add].
  rewrite loop_step by (rewrite quiet_state_flag; exact Hflag).
  destruct (process_item_pressed (length xs) v
              (successes (results w key links 0 xs))
              (quiet_state w key links total 0 xs st) p)
    as (st1 & e1 & Hitem & Hflag1 & Hst1 & Hc1 & Hd1 & Ho1);
    [rewrite quiet_state_flag; exact Hflag | exact Hlt | exact Hpress
     | exact Hreached |].
  rewrite Hitem.
  destruct ys as [| y ys']; [congruence |].
  rewrite loop_stopped by exact Hflag1.
  assert (Hn : (if is_success (attempt w key links (length xs) v)
                then S (successes (results w key links 0 xs))
                else successes (results w key links 0 xs))
               = successes rs).
  { subst rs. rewrite results_app. unfold successes.
    rewrite List.filter_app, length_app. simpl.
    destruct (is_success _); simpl; lia. }
  rewrite Hn.
  exists st1, (quiet_trace w key links total 0 xs ++ e1 ++ [])%list.
  split; [reflexivity |].
  split; [exact Hflag1 |].
  subst rs. rewrite results_app, record_states_app, record_cache_app.
  cbn [Nat.add results record_states].
  rewrite Hst1, Hc1, quiet_state_states, quiet_state_cache.
  split; [reflexivity |]. split; [reflexivity |].
  rewrite app_nil_r, downloads_app, outcomes_app, quiet_trace_downloads,
    quiet_trace_outcomes, Hd1, Ho1, map_app.
  split; [lia | reflexivity].
Qed.

End Cancellation.

Section Stop.
Context `{JsRuntime}.
Import Props.

(** C2, amended: let Stop be pressed for the first time while item k is
    the current one (1 <= k < N), at any await point that is reached:
    during its download or its transcription, or during the pause that
    follows it.  Then item k is still completed and the loop stops before
    item k+1: exactly k downloads are made, exactly the first k items
    have a recorded success-or-error outcome, and the status line reports
    the number of successes among them.  The dictionaries are keyed by
    URL: each of the first k items that is the last of them with its URL
    ends in the state of its own attempt, and every per-video state and
    cache entry under a URL that is not the URL of one of the first k
    items is as before the run.  So the items k+1..N keep their state
    and cache entry when the eligible videos have distinct URLs. *)
Theorem stop_after_item_k :
  forall (w : App.TranscribeWorld) (st0 : App.AppState) (k : nat)
         (p : App.AwaitPoint) (v : Types.SocialVideo),
  let items := to_process st0 in
  let key := App.googleApiKey st0 in
  let links := App.mp3Links st0 in
  (1 <= k < length items)%nat ->
  (forall j q, (j < k - 1)%nat -> App.stop_pressed w j q = false) ->
  items !! (k - 1)%nat = Some v ->
  App.stop_pressed w (k - 1) p = true ->
  await_reached w links (k - 1) v p ->
  let st' := fst (App.handleTranscribe w st0) in
  let evs := snd (App.handleTranscribe w st0) in
  let rs := results w key links 0 (take k items) in
  downloads evs = k
  /\ outcomes evs = map (fun r => (fst r, entry_of (snd r))) rs
  /\ length (outcomes evs) = k
  /\ App.status st' = App.stopped_message (successes rs)
  /\ (successes rs <= k)%nat
  /\ App.isProcessing st' = false
  /\ (forall j u, take k items !! j = Some u ->
        ~ In (App.video_url u)
             (map App.video_url (drop (S j) (take k items))) ->
        App.transcriptStates st' !! App.video_url u
        = Some (entry_of (attempt w key links j u)))
  /\ (forall url, ~ In url (map App.video_url (take k items)) ->
        App.transcriptStates st' !! url = App.transcriptStates st0 !! url
        /\ App.transcriptCache st' !! url = App.transcriptCache st0 !! url)
  /\ (NoDup (map App.video_url items) ->
      forall u, In u (drop k items) ->
        App.transcriptStates st' !! App.video_url u
        = App.transcriptStates st0 !! App.video_url u
        /\ App.transcriptCache st' !! App.video_url u
           = App.transcriptCache st0 !! App.video_url u).
Proof.
  intros w st0 k p v items key links Hk Hquiet Hv Hpress Hreached st' evs rs.
  assert (Hne : items <> []) by (intros E; rewrite E in Hv; discriminate).
  assert (Hlen : length (take (k - 1) items) = (k - 1)%nat)
    by (apply length_take_le; lia).
  assert (Htake : take k items = (take (k - 1) items ++ [v])%list).
  { replace k with (S (k - 1)) at 1 by lia. apply take_S_r. exact Hv. }
  pose proof (take_drop_middle items (k - 1) v Hv) as Hsplit.
  replace (S (k - 1)) with k in Hsplit by lia.
  destruct (loop_stops_after w key links (length items)
              (take (k - 1) items) (drop k items) v (started st0) p)
    as (st1 & evs1 & Hloop & Hflag1 & Hst1 & Hc1 & Hd1 & Ho1).
  { reflexivity. }
  { intros E. apply (f_equal length) in E. rewrite length_drop in E.
    simpl in E. lia. }
  { rewrite Hlen. lia. }
  { intros j q Hj. apply Hquiet. lia. }
  { rewrite Hlen. exact Hpress. }
  { rewrite Hlen. exact Hreached. }
  rewrite Hsplit, <- Htake in Hloop. rewrite <- Htake in Hst1, Hc1, Ho1.
  fold rs in Hloop, Hst1, Hc1, Ho1. rewrite Hlen in Hd1.
  assert (Hrun : App.handleTranscribe w st0
                 = (App.setIsProcessing false
                      (App.setStatus (App.stopped_message (successes rs)) st1),
                    evs1)).
  { rewrite handleTranscribe_run by exact Hne.
    fold items. fold key. fold links. rewrite Hloop.
    replace (App.stopRequest (App.setStatus _ st1)) with true
      by (destruct st1; cbn in *; congruence).
    reflexivity. }
  assert (Hst : App.transcriptStates st'
                = record_states rs (App.transcriptStates st0)).
  { subst st'. rewrite Hrun. cbn [fst].
    transitivity (App.transcriptStates st1); [destruct st1; reflexivity |].
    rewrite Hst1. destruct st0; reflexivity. }
  assert (Hc : App.transcriptCache st'
               = record_cache rs (App.transcriptCache st0)).
  { subst st'. rewrite Hrun. cbn [fst].
    transitivity (App.transcriptCache st1); [destruct st1; reflexivity |].
    rewrite Hc1. destruct st0; reflexivity. }
  assert (Hrs : length rs = k).
  { subst rs. rewrite results_length. apply length_take_le. lia. }
  assert (Hurls : map fst rs = map App.video_url (take k items))
    by apply results_urls.
  assert (Hframe : forall url, ~ In url (map App.video_url (take k items)) ->
            App.transcriptStates st' !! url = App.transcriptStates st0 !! url
            /\ App.transcriptCache st' !! url
               = App.transcriptCache st0 !! url).
  { intros url Hout. rewrite <- Hurls in Hout. rewrite Hst, Hc.
    split; [apply record_states_out | apply record_cache_out]; exact Hout. }
  subst evs. rewrite Hrun. cbn [snd].
  split; [rewrite Hd1; lia |].
  split; [exact Ho1 |].
  split; [rewrite Ho1, length_map; exact Hrs |].
  split; [subst st'; rewrite Hrun; destruct st1; reflexivity |].
  split; [rewrite <- Hrs; apply successes_le |].
  split; [subst st'; rewrite Hrun; destruct st1; reflexivity |].
  split; [| split].
  - intros j u Hj Hlater. rewrite Hst.
    apply (item_recorded w key links j (take k items) u _
             (App.transcriptCache st0) Hj Hlater).
  - exact Hframe.
  - intros Hnd u Hu. apply Hframe. intros Hin.
    rewrite <- (take_drop k items), map_app in Hnd.
    apply NoDup_app in Hnd as (_ & Hcross & _).
    apply (Hcross (App.video_url u)); apply list_elem_of_In;
      [exact Hin | apply in_map; exact Hu].
Qed.

End Stop.

(** ** The transcript cache *)

Section Cache.
Context `{JsRuntime}.
Import Props.

Lemma cache_ok_insert (m : gmap string string) (u t : string) :
  nonempty t = true -> cache_ok m -> cache_ok (<[u := t]> m).
Proof.
  intros Ht Hm k t' Hk. destruct (decide (u = k)) as [-> | Hne].
  - rewrite lookup_insert_eq in Hk. congruence.
  - rewrite lookup_insert_ne in Hk by exact Hne. exact (Hm k t' Hk).
Qed.

Lemma process_item_cache_ok (w : App.TranscribeWorld) (key : string)
    (links : gmap string string) (total i : nat) (video : Types.SocialVideo)
    (n : nat) (st : App.AppState) :
  cache_ok (App.transcriptCache st) ->
  cache_ok (App.transcriptCache
              (snd (fst (App.process_item w key links total i video n st)))).
Proof.
  intros Hok. rewrite process_item_closed_form.
  destruct (_ && _); cbn [fst snd];
    rewrite ?press_stop_cache, settle_cache, ?press_stop_cache;
    change (App.transcriptCache (App.setStatus _ st))
      with (App.transcriptCache st);
    (destruct (fst (App.two_phase _ _ _)) eqn:Hr;
     [apply cache_ok_insert; [eapply two_phase_nonempty; exact Hr | exact Hok]
     | exact Hok]).
Qed.

(** The loop only ever adds non-empty transcripts to the cache, whatever
    the operator does. *)
Lemma loop_cache_ok (w : App.TranscribeWorld) (key : string)
    (links : gmap string string) (total : nat)
    (items : list Types.SocialVideo) :
  forall (i n : nat) (st : App.AppState),
  cache_ok (App.transcriptCache st) ->
  cache_ok (App.transcriptCache
              (snd (fst (App.transcribe_loop w key links total i items n st)))).
Proof.
  induction items as [| v rest IH]; intros i n st Hok; [exact Hok |].
  destruct (App.stopRequest st) eqn:Hflag.
  - rewrite loop_stopped by exact Hflag. exact Hok.
  - rewrite loop_step by exact Hflag.
    pose proof (process_item_cache_ok w key links total i v n st Hok) as Hitem.
    destruct (App.process_item w key links total i v n st) as [[n1 st1] e1].
    specialize (IH (S i) n1 st1 Hitem).
    destruct (App.transcribe_loop w key links total (S i) rest n1 st1)
      as [[n2 st2] e2].
    exact IH.
Qed.

Lemma handleTranscribe_cache_ok (w : App.TranscribeWorld) (st0 : App.AppState) :
  cache_ok (App.transcriptCache st0) ->
  cache_ok (App.transcriptCache (fst (App.handleTranscribe w st0))).
Proof.
  intros Hok. destruct (to_process st0) as [| v rest] eqn:Hitems.
  - rewrite handleTranscribe_nothing by exact Hitems. exact Hok.
  - rewrite handleTranscribe_run by congruence.
    pose proof (loop_cache_ok w (App.googleApiKey st0) (App.mp3Links st0)
                  (length (to_process st0)) (to_process st0) 0 0 (started st0)
                  Hok) as Hloop.
    destruct (App.transcribe_loop _ _ _ _ _ _ _ _) as [[n st] evs].
    cbn [fst snd] in *. destruct (negb (App.stopRequest st)); exact Hloop.
Qed.

Lemma eligible_cached (links cache : gmap string string)
    (v : Types.SocialVideo) :
  cache_ok cache -> is_Some (cache !! App.video_url v) ->
  App.eligible links cache v = false.
Proof.
  intros Hok [t Ht]. unfold App.eligible, App.has_truthy.
  rewrite Ht, (Hok _ _ Ht). apply andb_false_r.
Qed.

(** C3: in a state whose cache holds transcripts (non-empty texts, the
    only entries the program writes), a video with a cache entry under
    its URL is not in the set computed at the start of a run, whatever
    audio URL is or becomes assigned to it.  When every video has a cache
    entry, a run sends nothing: no download, no call of the Transcriber,
    and the cache is left as it was. *)
Theorem cached_videos_are_skipped :
  forall (w : App.TranscribeWorld) (st : App.AppState),
  cache_ok (App.transcriptCache st) ->
  (forall v, is_Some (App.transcriptCache st !! App.video_url v) ->
     ~ In v (to_process st)
     /\ forall link,
          ~ In v (to_process (App.handleMp3LinkChange (App.video_url v) link st)))
  /\ ((forall v, In v (App.videos st) ->
         is_Some (App.transcriptCache st !! App.video_url v)) ->
      to_process st = []
      /\ snd (App.handleTranscribe w st) = []
      /\ generations (snd (App.handleTranscribe w st)) = 0%nat
      /\ downloads (snd (App.handleTranscribe w st)) = 0%nat
      /\ App.transcriptCache (fst (App.handleTranscribe w st))
         = App.transcriptCache st
      /\ App.status (fst (App.handleTranscribe w st)) = App.nothing_message).
Proof.
  intros w st Hok. split.
  - intros v Hv. split; [| intros link]; unfold to_process;
      intros Hin; apply List.filter_In in Hin as [_ Hel];
      [rewrite eligible_cached in Hel by assumption; discriminate |].
    change (App.transcriptCache (App.handleMp3LinkChange _ _ st))
      with (App.transcriptCache st) in Hel.
    rewrite eligible_cached in Hel by assumption. discriminate.
  - intros Hall.
    assert (Hnone : to_process st = []).
    { unfold to_process. apply filter_none. intros v Hv.
      apply eligible_cached; [exact Hok | apply Hall; exact Hv]. }
    rewrite handleTranscribe_nothing by exact Hnone.
    repeat split; try reflexivity. exact Hnone.
Qed.

End Cache.

Section RetryCache.
Context `{JsRuntime}.
Import Props.

Lemma handleRetry_cache_ok (fetched : string -> App.MediaOutcome)
    (generate : Gemini.GenerateRequest -> Gemini.GenerateOutcome)
    (video : Types.SocialVideo) (st : App.AppState) :
  cache_ok (App.transcriptCache st) ->
  cache_ok (App.transcriptCache (fst (App.handleRetry fetched generate video st))).
Proof.
  intros Hok.
  destruct (App.has_truthy (App.mp3Links st) (App.video_url video)) eqn:Hlink.
  - unfold App.handleRetry. rewrite Hlink. cbn [negb].
    unfold Gemini.transcribeAudioWithGemini.
    destruct (App.getBase64FromUrl _) as [[base64 mime] | e];
      [destruct (negb (nonempty (App.googleApiKey st)));
       [| destruct (Gemini.read_transcript _) as [t | e] eqn:Hr] |];
      cbn; try exact Hok.
    apply cache_ok_insert; [| exact Hok].
    unfold Gemini.read_transcript in Hr.
    destruct (generate _) as [[t' |] | e']; try discriminate.
    destruct (nonempty t') eqn:Ht; [| discriminate].
    inversion Hr; subst. exact Ht.
  - unfold App.handleRetry. rewrite Hlink. exact Hok.
Qed.

End RetryCache.

(** ** Failures inside the loop *)

(** C4: a failed attempt (download or transcription) writes the error
    state of its own video only, leaves the cache as it was and does not
    raise the count of successes; when Stop is never pressed the loop
    goes on to every remaining item, whatever failed before: all N
    downloads are made, the outcome of every attempt is recorded in
    order, and the report counts the successes.  Since the dictionaries
    are keyed by URL, a video that is the last with its URL ends in the
    state of its own attempt (error after a failure, success with the
    transcript cached after a success), and after a failure its cache
    entry is as before the run when no earlier video has its URL.  In
    the scenario of two matched
    videos where A is transcribed as "xin chào" and the download of B
    fails, the run ends with cache = {A: "xin chào"}, per-video states
    {A: success, B: error} and the report of 1 new transcript. *)
Theorem failed_item_is_recorded_and_loop_continues :
  (forall (R : JsRuntime) (w : App.TranscribeWorld) (key : string)
          (links : gmap string string) (total i n : nat)
          (video : Types.SocialVideo) (st : App.AppState) (e : Thrown),
     Props.attempt w key links i video = Threw e ->
     fst (fst (App.process_item w key links total i video n st)) = n
     /\ App.transcriptCache
          (snd (fst (App.process_item w key links total i video n st)))
        = App.transcriptCache st
     /\ App.transcriptStates
          (snd (fst (App.process_item w key links total i video n st)))
        = <[App.video_url video := App.failed e]> (App.transcriptStates st)
     /\ Types.status (App.failed e) = Types.error)
  /\ (forall (R : JsRuntime) (w : App.TranscribeWorld) (st0 : App.AppState),
        (forall i p, App.stop_pressed w i p = false) ->
        Props.downloads (snd (App.handleTranscribe w st0))
        = length (Props.to_process st0)
        /\ Props.outcomes (snd (App.handleTranscribe w st0))
           = map (fun r => (fst r, Props.entry_of (snd r)))
               (Props.results w (App.googleApiKey st0) (App.mp3Links st0)
                  0 (Props.to_process st0))
        /\ (Props.to_process st0 <> [] ->
            App.status (fst (App.handleTranscribe w st0))
            = App.done_message
                (Props.successes
                   (Props.results w (App.googleApiKey st0) (App.mp3Links st0)
                      0 (Props.to_process st0))))
        /\ forall j v, Props.to_process st0 !! j = Some v ->
             ~ In (App.video_url v)
                  (map App.video_url (drop (S j) (Props.to_process st0))) ->
             (forall e,
                Props.attempt w (App.googleApiKey st0) (App.mp3Links st0) j v
                = Threw e ->
                App.transcriptStates (fst (App.handleTranscribe w st0))
                  !! App.video_url v = Some (App.failed e)
                /\ (~ In (App.video_url v)
                        (map App.video_url (take j (Props.to_process st0))) ->
                    App.transcriptCache (fst (App.handleTranscribe w st0))
                      !! App.video_url v
                    = App.transcriptCache st0 !! App.video_url v))
             /\ (forall t,
                   Props.attempt w (App.googleApiKey st0) (App.mp3Links st0) j v
                   = Returned t ->
                   App.transcriptStates (fst (App.handleTranscribe w st0))
                     !! App.video_url v = Some (App.succeeded t)
                   /\ App.transcriptCache (fst (App.handleTranscribe w st0))
                        !! App.video_url v = Some t))
  /\ (let out :=
        @App.handleTranscribe Demo.runtime Scenario.b_unreachable
          Scenario.matched_state in
      App.transcriptCache (fst out) = <[Scenario.urlA := "xin chào"]> ∅
      /\ App.transcriptStates (fst out)
         = <[Scenario.urlA := App.succeeded "xin chào"]>
             (<[Scenario.urlB :=
                  App.failed (ThrownError App.download_failed_message)]> ∅)
      /\ Types.status (App.succeeded "xin chào") = Types.success
      /\ App.status (fst out) = "Hoàn tất! Đã tạo mới 1 bản ghi."
      /\ Props.downloads (snd out) = 2%nat
      /\ Props.generations (snd out) = 1%nat).
Proof.
  split; [| split].
  - intros R w key links total i n video st e Hfail.
    rewrite process_item_closed_form.
    unfold Props.attempt in Hfail.
    destruct (_ && _); cbn [fst snd];
      rewrite ?press_stop_cache, ?press_stop_states, settle_cache,
        settle_states, ?press_stop_cache, ?press_stop_states, Hfail;
      repeat split; reflexivity.
  - intros R w st0 Hquiet.
    exact (failures_do_not_stop_the_loop w st0 Hquiet).
  - cbv zeta. repeat apply conj; reflexivity.
Qed.

(** ** The properties on concrete inputs *)

Section Concrete.
#[local] Existing Instance Demo.runtime.
Import Scenario.

(** C6, as the specification words it, fails for the Facebook mapper: an
    item without [creation_time] gets the current time as its time stamp,
    not 0. *)
Lemma facebook_timestamp_defaults_to_now :
  nullish (get bare_facebook_item "creation_time") = true
  /\ Apify.mapFacebookItemToSocialVideo (Demo.DInt 1700000000000)
       bare_facebook_item = Returned bare_facebook_video
  /\ Types.createTime bare_facebook_video = JNum (Demo.DInt 1700000000000)
  /\ Types.createTime bare_facebook_video <> JNum (num_of_Z 0).
Proof.
  split; [reflexivity |].
  split; [reflexivity |].
  split; [reflexivity | discriminate].
Qed.

(** C7, as the specification words it, fails: with two path segments
    that begin with [@], the handle is taken from the first, not from
    the last. *)
Lemma tiktok_handle_is_not_the_last_at_segment :
  Apify.tiktok_profileName "https://www.tiktok.com/@alice/@bob" = "alice"
  /\ Props.claimed_profileName "https://www.tiktok.com/@alice/@bob" = "bob"
  /\ Apify.tiktok_profileName "https://www.tiktok.com/@alice/@bob"
     <> Props.claimed_profileName "https://www.tiktok.com/@alice/@bob".
Proof.
  split; [vm_compute; reflexivity |].
  split; [vm_compute; reflexivity |].
  vm_compute. discriminate.
Qed.

(** A TikTok item that has only an id and a URL is normalised with every
    default in place. *)
Lemma normalised_fields_default_witness :
  nullish Scenario.bare_tiktok_item = false
  /\ exists v,
       @Apify.mapTikTokItemToSocialVideo Demo.runtime (Demo.DInt 0)
         Scenario.bare_tiktok_item = Returned v
       /\ Types.diggCount v = JNum (Demo.DInt 0)
       /\ Types.musicName (Types.musicMeta v) = JStr "N/A"
       /\ Types.musicOriginal (Types.musicMeta v) = JBool false.
Proof.
  split; [reflexivity |].
  destruct (@normalised_fields_default Demo.runtime) as [Htiktok _].
  destruct (Htiktok (Demo.DInt 0) Scenario.bare_tiktok_item eq_refl)
    as (v & Hv & _ & Hdigg & _ & _ & _ & _ & _ & _ & Hname & _ & Horig & _).
  exists v. split; [exact Hv |].
  split; [apply Hdigg; reflexivity |].
  split; [apply Hname; reflexivity | apply Horig; reflexivity].
Defined.

(** The handle of an ordinary video URL. *)
Lemma tiktok_handle_is_first_at_segment_witness :
  @url_parse Demo.runtime "https://www.tiktok.com/@kenh/video/1"
  = Some {| pathname := "/@kenh/video/1"; search_id := None |}
  /\ "@" +:+ @Apify.tiktok_profileName Demo.runtime
               "https://www.tiktok.com/@kenh/video/1" = "@kenh".
Proof.
  split; [vm_compute; reflexivity |].
  destruct (@tiktok_handle_is_first_at_segment Demo.runtime
              "https://www.tiktok.com/@kenh/video/1") as [Hfirst _].
  apply (Hfirst {| pathname := "/@kenh/video/1"; search_id := None |}
                [EmptyString] "@kenh" ["video"; "1"]).
  - vm_compute. reflexivity.
  - vm_compute. reflexivity.
  - vm_compute. reflexivity.
  - intros p [<- | []]. vm_compute. reflexivity.
Defined.

(** A YouTube URL is refused without any request. *)
Lemma unsupported_url_fails_before_any_request_witness :
  snd (@App.handleScan Demo.runtime Scenario.offline Scenario.youtube_state) = []
  /\ App.status
       (fst (@App.handleScan Demo.runtime Scenario.offline
               Scenario.youtube_state))
     = "Lỗi quét: " +:+ App.unsupported_url_message.
Proof.
  destruct (@unsupported_url_fails_before_any_request Demo.runtime
              Scenario.offline Scenario.youtube_state)
    as (Hevs & Hstatus & _); [vm_compute; reflexivity ..|].
  split; [exact Hevs | exact Hstatus].
Defined.

(** Two matched videos, no Stop: two attempts and one pause. *)
Lemma sequential_loop_attempts_and_pauses_witness :
  (forall i p, App.stop_pressed Scenario.all_well i p = false)
  /\ Props.downloads
       (snd (@App.handleTranscribe Demo.runtime Scenario.all_well
               Scenario.matched_state))
     = length (@Props.to_process Demo.runtime Scenario.matched_state)
  /\ Props.total_delay
       (snd (@App.handleTranscribe Demo.runtime Scenario.all_well
               Scenario.matched_state))
     = (App.API_CALL_DELAY_MS
        * Z.of_nat (length (@Props.to_process Demo.runtime
                              Scenario.matched_state) - 1))%Z.
Proof.
  split; [intros i p; reflexivity |].
  destruct (@sequential_loop_attempts_and_pauses Demo.runtime
              Scenario.all_well Scenario.matched_state
              (fun _ _ => eq_refl))
    as (Hd & _ & _ & _ & _ & _ & _ & Hdelay & _).
  split; [exact Hd | exact Hdelay].
Defined.

(** C2, as the specification words it, fails when eligible videos
    share a URL: the TikTok mapper gives the empty URL to every item
    without [webVideoUrl], and the per-video states and the cache are
    keyed by URL.  With two such videos and Stop pressed in the pause
    after the first, the second is never started (one download, one
    recorded outcome), yet its state and its cache entry are no longer
    those it had before the run. *)
Lemma shared_url_item_changes_after_stop :
  Apify.mapTikTokItemToSocialVideo (Demo.DInt 0)
    (item_without_url "7300000000000000001") = Returned twin1
  /\ Apify.mapTikTokItemToSocialVideo (Demo.DInt 0)
       (item_without_url "7300000000000000002") = Returned twin2
  /\ Props.to_process shared_url_state = [twin1; twin2]
  /\ App.stop_pressed stop_after_first 0 App.AtPause = true
  /\ Props.downloads
       (snd (App.handleTranscribe stop_after_first shared_url_state)) = 1%nat
  /\ length (Props.outcomes
               (snd (App.handleTranscribe stop_after_first shared_url_state)))
     = 1%nat
  /\ App.transcriptStates shared_url_state !! App.video_url twin2 = None
  /\ App.transcriptStates
       (fst (App.handleTranscribe stop_after_first shared_url_state))
       !! App.video_url twin2
     = Some (App.succeeded "xin chào")
  /\ App.transcriptCache shared_url_state !! App.video_url twin2 = None
  /\ App.transcriptCache
       (fst (App.handleTranscribe stop_after_first shared_url_state))
       !! App.video_url twin2
     = Some "xin chào".
Proof.
  split; [reflexivity |].
  split; [reflexivity |].
  split; [reflexivity |].
  split; [reflexivity |].
  split; [vm_compute; reflexivity |].
  split; [vm_compute; reflexivity |].
  split; [vm_compute; reflexivity |].
  split; [vm_compute; reflexivity |].
  split; vm_compute; reflexivity.
Qed.

(** Stop pressed during the pause after the first of two items. *)
Lemma stop_after_item_k_witness :
  Props.downloads
    (snd (@App.handleTranscribe Demo.runtime Scenario.stop_after_first
            Scenario.matched_state)) = 1%nat
  /\ App.transcriptStates
       (fst (@App.handleTranscribe Demo.runtime Scenario.stop_after_first
               Scenario.matched_state)) !! Scenario.urlB
     = App.transcriptStates Scenario.matched_state !! Scenario.urlB.
Proof.
  destruct (@stop_after_item_k Demo.runtime Scenario.stop_after_first
              Scenario.matched_state 1 App.AtPause Scenario.videoA)
    as (Hd & _ & _ & _ & _ & _ & _ & _ & Hrest).
  - vm_compute. lia.
  - intros j q Hj. lia.
  - reflexivity.
  - reflexivity.
  - exact I.
  - split; [exact Hd |].
    refine (proj1 (Hrest _ Scenario.videoB _)).
    + apply (bool_decide_unpack (NoDup _)). vm_compute. exact I.
    + left. reflexivity.
Defined.

(** With both transcripts cached, a run sends nothing. *)
Lemma cached_videos_are_skipped_witness :
  snd (@App.handleTranscribe Demo.runtime Scenario.all_well
         Scenario.cached_state) = [].
Proof.
  destruct (@cached_videos_are_skipped Demo.runtime Scenario.all_well
              Scenario.cached_state) as [_ Hall].
  - intros k t Hk.
    destruct (decide (Scenario.urlA = k)) as [<- | Ha].
    + vm_compute in Hk. inversion Hk. reflexivity.
    + destruct (decide (Scenario.urlB = k)) as [<- | Hb].
      * vm_compute in Hk. inversion Hk. reflexivity.
      * unfold Scenario.cached_state in Hk. cbn in Hk.
        rewrite !lookup_insert_ne, lookup_empty in Hk by assumption.
        discriminate.
  - apply Hall. intros v [<- | [<- | []]]; vm_compute; eauto.
Defined.

(** The two-video scenario, through the general statement. *)
Lemma failed_item_is_recorded_and_loop_continues_witness :
  App.transcriptStates
    (fst (@App.handleTranscribe Demo.runtime Scenario.b_unreachable
            Scenario.matched_state)) !! Scenario.urlB
  = Some (App.failed (ThrownError App.download_failed_message))
  /\ App.transcriptCache
       (fst (@App.handleTranscribe Demo.runtime Scenario.b_unreachable
               Scenario.matched_state)) !! Scenario.urlB
     = None.
Proof.
  destruct failed_item_is_recorded_and_loop_continues as (_ & Hloop & _).
  destruct (Hloop Demo.runtime Scenario.b_unreachable Scenario.matched_state)
    as (_ & _ & _ & Hitems).
  - intros i p. reflexivity.
  - destruct (Hitems 1%nat Scenario.videoB) as [Hfail _];
      [reflexivity | intros [] |].
    destruct (Hfail (ThrownError App.download_failed_message)) as [Hs Hc];
      [vm_compute; reflexivity |].
    split; [exact Hs |].
    refine (eq_trans (Hc _) eq_refl).
    intros [Heq | []]. discriminate Heq.
Defined.



End Concrete.

(** * Further properties of the code *)

(** ** The Transcriber and the audio download *)

(** X1: [getBase64FromUrl] hands on only non-empty base64 data, taken
    after the first comma of the data URL of a blob that came with an
    ok response, together with that blob's type; and it fails only with
    the download message, the conversion message, or the reader's own
    error. *)
Theorem download_result_shape :
  forall fetched : App.MediaOutcome,
  (forall base64 mimeType,
     App.getBase64FromUrl fetched = Returned (base64, mimeType) ->
     base64 <> EmptyString
     /\ exists blob dataUrl,
          fetched = App.MediaResponse true (Some blob)
          /\ App.blob_read blob = Returned dataUrl
          /\ mimeType = App.blob_type blob
          /\ nth_error (split_on "," dataUrl) 1 = Some base64)
  /\ (forall e,
        App.getBase64FromUrl fetched = Threw e ->
        e = ThrownError App.download_failed_message
        \/ e = ThrownError App.base64_failed_message
        \/ exists blob,
             fetched = App.MediaResponse true (Some blob)
             /\ App.blob_read blob = Threw e).
Proof.
  intros fetched. unfold App.getBase64FromUrl.
  destruct fetched as [| [|] [[type [dataUrl | e']] |]]; cbn [negb App.blob_read
    App.blob_type].
  all: try (split; [intros b m Hr; discriminate Hr
                   | intros e Hr; inversion Hr; subst; auto]).
  - destruct (split_on "," dataUrl) as [| h [| base64 rest]] eqn:Hsplit.
    + split; [intros b m Hr; discriminate Hr
             | intros e Hr; inversion Hr; subst; auto].
    + split; [intros b m Hr; discriminate Hr
             | intros e Hr; inversion Hr; subst; auto].
    + destruct base64 as [| c base64']; cbn [nonempty].
      * split; [intros b m Hr; discriminate Hr
               | intros e Hr; inversion Hr; subst; auto].
      * split; [| intros e Hr; discriminate Hr].
        intros b m Hr. inversion Hr; subst. split; [discriminate |].
        eexists _, dataUrl. repeat split. rewrite Hsplit. reflexivity.
  - right. right. eexists. split; reflexivity.
Qed.

(** X2: [transcribeAudioWithGemini] sends at most one request, and none
    exactly when the key is empty; a transcript it returns is the
    non-empty text of the model's response; whatever it throws is an
    [Error] with a message. *)
Theorem transcriber_result_shape :
  forall (generate : Gemini.GenerateRequest -> Gemini.GenerateOutcome)
         (key base64 mime : string),
  let out := Gemini.transcribeAudioWithGemini generate key base64 mime in
  (length (snd out) <= 1)%nat
  /\ (snd out = [] <-> key = EmptyString)
  /\ (forall t, fst out = Returned t ->
        t <> EmptyString
        /\ exists request,
             snd out = [request]
             /\ Gemini.req_apiKey request = key
             /\ Gemini.req_data request = base64
             /\ Gemini.req_mimeType request = mime
             /\ generate request = Gemini.GenResponse (Some t))
  /\ (forall e, fst out = Threw e -> exists message, e = ThrownError message).
Proof.
  intros generate key base64 mime out. subst out.
  unfold Gemini.transcribeAudioWithGemini.
  destruct key as [| c key']; cbn [nonempty negb fst snd].
  - split; [simpl; lia |]. split; [tauto |].
    split; [intros t Hr; discriminate Hr |].
    intros e Hr. inversion Hr. eauto.
  - split; [simpl; lia |]. split; [split; intros Hx; discriminate Hx |].
    unfold Gemini.read_transcript.
    destruct (generate _) as [[t' |] | e'] eqn:Hg.
    + destruct t' as [| c' t'']; cbn [nonempty].
      * split; [intros t Hr; discriminate Hr | intros e Hr; inversion Hr; eauto].
      * split; [| intros e Hr; discriminate Hr].
        intros t Hr. inversion Hr; subst. split; [discriminate |].
        eexists. repeat split. exact Hg.
    + split; [intros t Hr; discriminate Hr | intros e Hr; inversion Hr; eauto].
    + split; [intros t Hr; discriminate Hr | intros e Hr; inversion Hr; eauto].
Qed.

(** X3: the classification of failures is stable: the message of an
    error thrown by [transcribeAudioWithGemini], classified once more,
    stays what it is.  In particular neither specific message carries a
    marker of the other class. *)
Theorem classification_is_stable :
  forall e : Thrown,
  Gemini.rethrown_message (ThrownError (Gemini.rethrown_message e))
  = Gemini.rethrown_message e.
Proof.
  intros e. unfold Gemini.rethrown_message at 2 3.
  set (m := match e with
            | ThrownError m => m
            | ThrownOther _ => Gemini.unknown_error_message
            end).
  destruct (Gemini.is_quota m) eqn:Hq.
  - vm_compute. reflexivity.
  - destruct (Gemini.is_invalid_key m) eqn:Hk.
    + vm_compute. reflexivity.
    + unfold Gemini.rethrown_message. rewrite Hq, Hk. reflexivity.
Qed.

(** ** The Channel Lister: the two fetchers *)

Section Fetchers.
Context `{JsRuntime}.
Import Props.

Lemma map_items_returned (f : nat -> JsVal -> Completion Types.SocialVideo)
    (items : list JsVal) :
  forall (k : nat) (vs : list Types.SocialVideo),
  Apify.map_items f k items = Returned vs ->
  Forall2 (fun item v => exists i, f i item = Returned v) items vs.
Proof.
  induction items as [| item rest IH]; intros k vs Hr; simpl in Hr.
  - inversion Hr. constructor.
  - destruct (f k item) as [v | e] eqn:Hf; [| discriminate].
    destruct (Apify.map_items f (S k) rest) as [vs' | e] eqn:Hrest;
      [| discriminate].
    inversion Hr; subst. constructor; [eauto | eapply IH; exact Hrest].
Qed.

Lemma tiktok_mapped_defined (random : num) (item : JsVal)
    (v : Types.SocialVideo) :
  Apify.mapTikTokItemToSocialVideo random item = Returned v ->
  nullish item = false /\ all_fields_defined v.
Proof.
  unfold Apify.mapTikTokItemToSocialVideo.
  destruct (nullish item) eqn:Hitem; [discriminate |].
  intros Hr. inversion Hr; subst. split; [reflexivity |].
  unfold all_fields_defined, defined; cbn.
  repeat split; repeat apply coalesce_defined; reflexivity.
Qed.

Lemma facebook_mapped_defined (now : num) (item : JsVal)
    (v : Types.SocialVideo) :
  Apify.mapFacebookItemToSocialVideo now item = Returned v ->
  Apify.isFacebookVideoPost item = true ->
  truthy (Types.webVideoUrl v) = true /\ all_fields_defined v.
Proof.
  unfold Apify.mapFacebookItemToSocialVideo, Apify.isFacebookVideoPost.
  destruct (nullish item) eqn:Hitem; [discriminate |].
  destruct (date_toISOString _) as [iso |]; [| discriminate].
  intros Hr Hpost. inversion Hr; subst. clear Hr.
  apply andb_prop in Hpost as [_ Hurl].
  split.
  - cbn. unfold Apify.facebook_postUrl. unfold or_else at 1.
    rewrite Hurl. exact Hurl.
  - unfold all_fields_defined, defined, Apify.facebook_postUrl; cbn.
    repeat split;
      repeat (apply coalesce_defined || apply or_else_defined);
      try reflexivity.
    destruct (truthy (get item "playable_duration_in_ms")); reflexivity.
Qed.

(** X4: a successful [fetchTikTokData] has sent exactly one request, the
    one built from the token, the handle and the limit, and returns one
    record per element of the non-empty array in the ok response, none of
    whose fields is [undefined] or [null]. *)
Theorem tiktok_scan_result_shape :
  forall (fetch : Apify.Fetch) (random : nat -> num)
         (apifyToken tiktokUrl : string) (limit : num)
         (vs : list Types.SocialVideo),
  fst (Apify.fetchTikTokData fetch random apifyToken tiktokUrl limit)
  = Returned vs ->
  let request :=
    Apify.tiktok_request apifyToken (Apify.tiktok_profileName tiktokUrl) limit in
  vs <> []
  /\ Forall all_fields_defined vs
  /\ apifyToken <> EmptyString /\ tiktokUrl <> EmptyString
  /\ snd (Apify.fetchTikTokData fetch random apifyToken tiktokUrl limit)
     = [request]
  /\ exists response items,
       fetch request = Returned response
       /\ Apify.resp_ok response = true
       /\ Apify.resp_json response = Returned (JArr items)
       /\ length vs = length items.
Proof.
  intros fetch random apifyToken tiktokUrl limit vs. cbv zeta.
  unfold Apify.fetchTikTokData.
  destruct apifyToken as [| c1 tok]; [intros Hr; discriminate Hr |].
  destruct tiktokUrl as [| c2 u]; [intros Hr; discriminate Hr |].
  cbn [nonempty negb fst snd].
  set (request := Apify.tiktok_request _ _ _). intros Hr.
  destruct (fetch request) as [response | e] eqn:Hf; [| discriminate].
  destruct (Apify.resp_ok response) eqn:Hok; cbn [negb] in Hr;
    [| discriminate].
  destruct (Apify.resp_json response) as [rawData | e] eqn:Hj; [| discriminate].
  destruct rawData as [| | | | | | items]; try discriminate.
  destruct items as [| item rest]; [discriminate |].
  apply map_items_returned in Hr.
  assert (Hlen : length vs = length (item :: rest))
    by (symmetry; eapply Forall2_length; exact Hr).
  split; [intros ->; discriminate Hlen |].
  split.
  - clear Hlen Hj. induction Hr as [| x v xs vs' [i Hx] _ IH];
      [constructor |].
    constructor; [apply (tiktok_mapped_defined _ _ _ Hx) | exact IH].
  - repeat split; try discriminate.
    exists response, (item :: rest). auto.
Qed.

(** X5: one [null] or [undefined] element in the array answered to
    [fetchTikTokData] fails the whole call with the type error of reading
    a property of it; no record is returned for the other elements. *)
Theorem tiktok_null_item_fails_the_scan :
  forall (fetch : Apify.Fetch) (random : nat -> num)
         (apifyToken tiktokUrl : string) (limit : num)
         (response : Apify.Response) (items : list JsVal) (item : JsVal),
  apifyToken <> EmptyString -> tiktokUrl <> EmptyString ->
  fetch (Apify.tiktok_request apifyToken
           (Apify.tiktok_profileName tiktokUrl) limit) = Returned response ->
  Apify.resp_ok response = true ->
  Apify.resp_json response = Returned (JArr items) ->
  In item items -> nullish item = true ->
  fst (Apify.fetchTikTokData fetch random apifyToken tiktokUrl limit)
  = Threw (ThrownError (type_error_message "id")).
Proof.
  intros fetch random apifyToken tiktokUrl limit response items item
    Htok Hurl Hf Hok Hj Hin Hnull.
  unfold Apify.fetchTikTokData.
  destruct apifyToken; [congruence |]. destruct tiktokUrl; [congruence |].
  cbn [nonempty negb fst]. rewrite Hf, Hok, Hj. cbn [negb].
  destruct items as [| x xs]; [contradiction |].
  generalize 0%nat. revert Hin. generalize (x :: xs). clear - Hnull.
  intros l. induction l as [| y ys IH]; intros Hin k; [contradiction |].
  simpl. unfold Apify.mapTikTokItemToSocialVideo at 1.
  destruct (nullish y) eqn:Hy; [reflexivity |].
  destruct Hin as [-> | Hin]; [congruence |].
  rewrite (IH Hin (S k)). reflexivity.
Qed.

Lemma conversion_sends_at_most_one (fetch : Apify.Fetch) (url : string) :
  (length (snd (Apify.convertFacebookUidToUrl fetch url)) <= 1)%nat.
Proof.
  unfold Apify.convertFacebookUidToUrl.
  destruct (url_parse url) as [u |]; [| simpl; lia].
  destruct (includes (pathname u) "profile.php"); [| simpl; lia].
  destruct (Js.search_id u) as [uid |]; [| simpl; lia].
  destruct (negb (nonempty uid)); simpl; lia.
Qed.

(** X6: [convertFacebookUidToUrl] never fails and sends at most one
    request, and only for a URL whose path contains [profile.php] and
    that has a non-empty [id] parameter.  When the lookup for such a URL
    gives an ok response with a JSON body whose [username] is a string
    that is not blank, it answers the profile URL of that trimmed name;
    in every other case it answers the URL it was given. *)
Theorem uid_conversion_falls_back :
  forall (fetch : Apify.Fetch) (url : string),
  let out := Apify.convertFacebookUidToUrl fetch url in
  (length (snd out) <= 1)%nat
  /\ (forall request, In request (snd out) ->
        exists u uid,
          url_parse url = Some u
          /\ includes (pathname u) "profile.php" = true
          /\ Js.search_id u = Some uid /\ uid <> EmptyString
          /\ request
             = {| Apify.req_url := Apify.FINDUID_URL;
                  Apify.req_contentType := "application/x-www-form-urlencoded";
                  Apify.req_body := Apify.FormBody ("uid=" +:+ uid) |})
  /\ (fst out = url
      \/ exists request response data username,
           snd out = [request]
           /\ fetch request = Returned response
           /\ Apify.resp_ok response = true
           /\ Apify.resp_json response = Returned data
           /\ get data "username" = JStr username
           /\ trim username <> EmptyString
           /\ fst out = "https://www.facebook.com/" +:+ trim username)
  /\ (forall u uid response data username,
        url_parse url = Some u ->
        includes (pathname u) "profile.php" = true ->
        Js.search_id u = Some uid -> uid <> EmptyString ->
        fetch {| Apify.req_url := Apify.FINDUID_URL;
                 Apify.req_contentType := "application/x-www-form-urlencoded";
                 Apify.req_body := Apify.FormBody ("uid=" +:+ uid) |}
        = Returned response ->
        Apify.resp_ok response = true ->
        Apify.resp_json response = Returned data ->
        get data "username" = JStr username ->
        trim username <> EmptyString ->
        fst out = "https://www.facebook.com/" +:+ trim username).
Proof.
  intros fetch url out.
  assert (Hconv : forall u uid response data username,
            url_parse url = Some u ->
            includes (pathname u) "profile.php" = true ->
            Js.search_id u = Some uid -> uid <> EmptyString ->
            fetch {| Apify.req_url := Apify.FINDUID_URL;
                     Apify.req_contentType := "application/x-www-form-urlencoded";
                     Apify.req_body := Apify.FormBody ("uid=" +:+ uid) |}
            = Returned response ->
            Apify.resp_ok response = true ->
            Apify.resp_json response = Returned data ->
            get data "username" = JStr username ->
            trim username <> EmptyString ->
            fst out = "https://www.facebook.com/" +:+ trim username).
  { intros u uid response data username Hu Hp Hid Huid Hf Hok Hj Hname Htrim.
    subst out. unfold Apify.convertFacebookUidToUrl.
    rewrite Hu, Hp, Hid.
    destruct uid as [| c uid']; [congruence |].
    cbn [nonempty negb fst]. rewrite Hf, Hok. cbn [negb]. rewrite Hj.
    assert (Hdata : truthy data = true)
      by (destruct data; try discriminate Hname; reflexivity).
    rewrite Hdata, Hname.
    destruct (trim username); [congruence | reflexivity]. }
  refine ((fun Hrest => conj (proj1 Hrest)
             (conj (proj1 (proj2 Hrest))
                (conj (proj2 (proj2 Hrest)) Hconv))) _).
  clear Hconv. subst out. unfold Apify.convertFacebookUidToUrl.
  destruct (url_parse url) as [u |] eqn:Hu;
    [| cbn; split; [lia | split; [intros r [] | left; reflexivity]]].
  destruct (includes (pathname u) "profile.php") eqn:Hp;
    [| cbn; split; [lia | split; [intros r [] | left; reflexivity]]].
  destruct (Js.search_id u) as [uid |] eqn:Hid;
    [| cbn; split; [lia | split; [intros r [] | left; reflexivity]]].
  destruct uid as [| c uid'];
    [cbn; split; [lia | split; [intros r [] | left; reflexivity]] |].
  cbn [nonempty negb fst snd length].
  split; [lia |]. split.
  - intros request [<- | []]. exists u, (String c uid').
    repeat split; try assumption; discriminate.
  - destruct (fetch _) as [response | e] eqn:Hf; [| left; reflexivity].
    destruct (Apify.resp_ok response) eqn:Hok; cbn [negb];
      [| left; reflexivity].
    destruct (Apify.resp_json response) as [data | e] eqn:Hj;
      [| left; reflexivity].
    destruct (truthy data); [| left; reflexivity].
    destruct (get data "username") as [| | | | username | |] eqn:Hname;
      try (left; reflexivity).
    destruct (trim username) as [| c' name'] eqn:Htrim; cbn [nonempty];
      [left; reflexivity |].
    right. eexists _, response, data, username.
    rewrite Htrim. repeat split; try eassumption; try reflexivity.
    discriminate.
Qed.

(** X7: a successful [fetchFacebookData] returns a non-empty list with
    one record per element of the answered array that passes the video
    post filter; every record has a truthy [webVideoUrl] and no field
    that is [undefined] or [null]; at most two requests were sent, the
    last of them to the actor with the token, the converted URL and the
    limit. *)
Theorem facebook_scan_result_shape :
  forall (fetch : Apify.Fetch) (now : nat -> num)
         (apifyToken facebookUrl : string) (limit : num)
         (vs : list Types.SocialVideo),
  fst (Apify.fetchFacebookData fetch now apifyToken facebookUrl limit)
  = Returned vs ->
  let converted := Apify.convertFacebookUidToUrl fetch facebookUrl in
  let request := Apify.facebook_request apifyToken (fst converted) limit in
  vs <> []
  /\ Forall (fun v => truthy (Types.webVideoUrl v) = true
                      /\ all_fields_defined v) vs
  /\ apifyToken <> EmptyString /\ facebookUrl <> EmptyString
  /\ snd (Apify.fetchFacebookData fetch now apifyToken facebookUrl limit)
     = (snd converted ++ [request])%list
  /\ (length (snd (Apify.fetchFacebookData fetch now apifyToken facebookUrl
                     limit)) <= 2)%nat
  /\ exists response items,
       fetch request = Returned response
       /\ Apify.resp_ok response = true
       /\ Apify.resp_json response = Returned (JArr items)
       /\ length vs = length (List.filter Apify.isFacebookVideoPost items).
Proof.
  intros fetch now apifyToken facebookUrl limit vs. cbv zeta.
  unfold Apify.fetchFacebookData.
  destruct apifyToken as [| c1 tok]; [intros Hr; discriminate Hr |].
  destruct facebookUrl as [| c2 u]; [intros Hr; discriminate Hr |].
  cbn [nonempty negb].
  pose proof (conversion_sends_at_most_one fetch (String c2 u)) as Hsent.
  destruct (Apify.convertFacebookUidToUrl fetch (String c2 u))
    as [final sent] eqn:Hconv.
  cbn [fst snd] in *. intros Hr.
  set (request := Apify.facebook_request (String c1 tok) final limit) in *.
  destruct (fetch request) as [response | e] eqn:Hf; [| discriminate].
  destruct (Apify.resp_ok response) eqn:Hok; cbn [negb] in Hr;
    [| discriminate].
  destruct (Apify.resp_json response) as [rawData | e] eqn:Hj; [| discriminate].
  destruct rawData as [| | | | | | items]; try discriminate.
  destruct items as [| item rest]; [discriminate |].
  destruct (Apify.map_items _ 0 _) as [mapped | e] eqn:Hmap; [| discriminate].
  destruct mapped as [| v0 mapped']; [discriminate |].
  inversion Hr; subst vs. clear Hr.
  apply map_items_returned in Hmap.
  split; [discriminate |].
  split.
  - assert (Hall : Forall (fun i => Apify.isFacebookVideoPost i = true)
                     (List.filter Apify.isFacebookVideoPost (item :: rest))).
    { apply List.Forall_forall. intros x Hx.
      apply List.filter_In in Hx. tauto. }
    revert Hall. induction Hmap as [| x v xs vs' [i Hx] _ IH];
      intros Hall; [constructor |].
    constructor.
    + apply (facebook_mapped_defined _ _ _ Hx).
      inversion Hall; assumption.
    + apply IH. inversion Hall; assumption.
  - repeat split; try discriminate.
    + rewrite length_app. simpl. lia.
    + exists response, (item :: rest). repeat split; try assumption.
      symmetry. eapply Forall2_length. exact Hmap.
Qed.

(** X8: when the backend answers [fetchTikTokData] with a non-success
    status and a JSON object, the error thrown is "Apify API Error: "
    followed by the object's [error.message] when that is a non-empty
    string, and by the status text of the response when [error.message]
    is absent or falsy. *)
Theorem backend_error_is_surfaced :
  forall (fetch : Apify.Fetch) (random : nat -> num)
         (apifyToken tiktokUrl : string) (limit : num)
         (response : Apify.Response) (errorData : JsVal),
  apifyToken <> EmptyString -> tiktokUrl <> EmptyString ->
  fetch (Apify.tiktok_request apifyToken
           (Apify.tiktok_profileName tiktokUrl) limit) = Returned response ->
  Apify.resp_ok response = false ->
  Apify.resp_json response = Returned errorData ->
  nullish errorData = false ->
  (forall message,
     opt_get (get errorData "error") "message" = JStr message ->
     message <> EmptyString ->
     fst (Apify.fetchTikTokData fetch random apifyToken tiktokUrl limit)
     = Threw (ThrownError ("Apify API Error: " +:+ message)))
  /\ (truthy (opt_get (get errorData "error") "message") = false ->
      fst (Apify.fetchTikTokData fetch random apifyToken tiktokUrl limit)
      = Threw (ThrownError
                 ("Apify API Error: " +:+ Apify.resp_statusText response))).
Proof.
  intros fetch random apifyToken tiktokUrl limit response errorData
    Htok Hurl Hf Hok Hj Hdata.
  unfold Apify.fetchTikTokData.
  destruct apifyToken; [congruence |]. destruct tiktokUrl; [congruence |].
  cbn [nonempty negb fst]. rewrite Hf, Hok. cbn [negb].
  unfold Apify.api_error. rewrite Hj, Hdata. split.
  - intros message Hm Hne. unfold or_else. rewrite Hm.
    destruct message; [congruence | reflexivity].
  - intros Hfalsy. unfold or_else. rewrite Hfalsy. reflexivity.
Qed.

End Fetchers.

(** ** The controller: a scan, whatever the backend answers *)

Section ScanOutcome.
Context `{JsRuntime}.
Import Props.

Lemma map_items_length (f : nat -> JsVal -> Completion Types.SocialVideo)
    (items : list JsVal) :
  forall (k : nat) (vs : list Types.SocialVideo),
  Apify.map_items f k items = Returned vs -> length vs = length items.
Proof.
  induction items as [| item rest IH]; intros k vs Hr; simpl in Hr.
  - inversion Hr. reflexivity.
  - destruct (f k item) as [v | e]; [| discriminate].
    destruct (Apify.map_items f (S k) rest) as [vs' | e] eqn:Hrest;
      [| discriminate].
    inversion Hr; subst. simpl. rewrite (IH _ _ Hrest). reflexivity.
Qed.

Lemma tiktok_fetch_facts (fetch : Apify.Fetch) (random : nat -> num)
    (apifyToken tiktokUrl : string) (limit : num) :
  (length (snd (Apify.fetchTikTokData fetch random apifyToken tiktokUrl limit))
   <= 1)%nat
  /\ (apifyToken = EmptyString ->
      Apify.fetchTikTokData fetch random apifyToken tiktokUrl limit
      = (Threw (ThrownError Apify.token_required_message), []))
  /\ fst (Apify.fetchTikTokData fetch random apifyToken tiktokUrl limit)
     <> Returned [].
Proof.
  unfold Apify.fetchTikTokData.
  destruct apifyToken as [| c1 tok]; cbn [nonempty negb];
    [repeat split; [simpl; lia | discriminate] |].
  destruct tiktokUrl as [| c2 u]; cbn [nonempty negb fst snd];
    [repeat split; [simpl; lia | discriminate | discriminate] |].
  split; [simpl; lia |]. split; [discriminate |].
  destruct (fetch _) as [response | e]; [| discriminate].
  destruct (negb (Apify.resp_ok response)); [discriminate |].
  destruct (Apify.resp_json response) as [rawData | e]; [| discriminate].
  destruct rawData as [| | | | | | items]; try discriminate.
  destruct items as [| item rest]; [discriminate |].
  intros Hr. apply map_items_length in Hr. discriminate Hr.
Qed.

Lemma facebook_fetch_facts (fetch : Apify.Fetch) (now : nat -> num)
    (apifyToken facebookUrl : string) (limit : num) :
  (length (snd (Apify.fetchFacebookData fetch now apifyToken facebookUrl limit))
   <= 2)%nat
  /\ (apifyToken = EmptyString ->
      Apify.fetchFacebookData fetch now apifyToken facebookUrl limit
      = (Threw (ThrownError Apify.token_required_message), []))
  /\ fst (Apify.fetchFacebookData fetch now apifyToken facebookUrl limit)
     <> Returned [].
Proof.
  unfold Apify.fetchFacebookData.
  destruct apifyToken as [| c1 tok]; cbn [nonempty negb];
    [repeat split; [simpl; lia | discriminate] |].
  destruct facebookUrl as [| c2 u]; cbn [nonempty negb fst snd];
    [repeat split; [simpl; lia | discriminate | discriminate] |].
  pose proof (conversion_sends_at_most_one fetch (String c2 u)) as Hsent.
  destruct (Apify.convertFacebookUidToUrl fetch (String c2 u))
    as [final sent].
  cbn [fst snd] in *.
  split; [rewrite length_app; simpl; lia |]. split; [discriminate |].
  destruct (fetch _) as [response | e]; [| discriminate].
  destruct (negb (Apify.resp_ok response)); [discriminate |].
  destruct (Apify.resp_json response) as [rawData | e]; [| discriminate].
  destruct rawData as [| | | | | | items]; try discriminate.
  destruct items as [| item rest]; [discriminate |].
  destruct (Apify.map_items _ 0 _) as [[| v vs] | e]; discriminate.
Qed.

(** X9: whatever the backend answers, [handleScan] leaves the audio
    assignments, the transcript cache, the per-video states, both
    credentials, the channel URL and the limit as they were, ends with
    [isProcessing] off, and sends at most two requests. *)
Theorem scan_keeps_assignments_and_cache :
  forall (w : App.ScanWorld) (st : App.AppState),
  let st' := fst (App.handleScan w st) in
  App.mp3Links st' = App.mp3Links st
  /\ App.transcriptCache st' = App.transcriptCache st
  /\ App.transcriptStates st' = App.transcriptStates st
  /\ App.googleApiKey st' = App.googleApiKey st
  /\ App.apifyToken st' = App.apifyToken st
  /\ App.channelUrl st' = App.channelUrl st
  /\ App.resultsLimit st' = App.resultsLimit st
  /\ App.stopRequest st' = App.stopRequest st
  /\ App.isProcessing st' = false
  /\ (length (snd (App.handleScan w st)) <= 2)%nat.
Proof.
  intros w st st'. subst st'. unfold App.handleScan.
  pose proof (tiktok_fetch_facts (App.fetch w) (App.math_random w)
                (App.apifyToken st) (App.channelUrl st) (App.resultsLimit st))
    as [Ht _].
  pose proof (facebook_fetch_facts (App.fetch w) (App.date_now w)
                (App.apifyToken st) (App.channelUrl st) (App.resultsLimit st))
    as [Hf _].
  destruct (includes _ "tiktok.com").
  - destruct (Apify.fetchTikTokData _ _ _ _ _) as [[vs | e] sent];
      cbn in *; rewrite ?length_map; repeat split; try reflexivity; lia.
  - destruct (includes _ "facebook.com" || includes _ "fb.com").
    + destruct (Apify.fetchFacebookData _ _ _ _ _) as [[vs | e] sent];
        cbn in *; rewrite ?length_map; repeat split; try reflexivity; lia.
    + cbn. repeat split; try reflexivity; lia.
Qed.

(** X10: a scan ends in one of two ways.  Either it failed: the video
    list is empty, the step is unchanged and the status line is "Lỗi
    quét: " followed by a message.  Or it succeeded: the video list is not
    empty, the step is the matching step, and the status line reports the
    number of videos.  An empty list never counts as a success. *)
Theorem scan_outcome_dichotomy :
  forall (w : App.ScanWorld) (st : App.AppState),
  let st' := fst (App.handleScan w st) in
  (App.videos st' = [] /\ App.step st' = App.step st
   /\ exists message, App.status st' = "Lỗi quét: " +:+ message)
  \/ (App.videos st' <> [] /\ App.step st' = Types.match_
      /\ App.status st'
         = "Quét thành công! Tìm thấy "
           +:+ show_nat (length (App.videos st'))
           +:+ " video. Chuyển sang bước ghép nối âm thanh.").
Proof.
  intros w st st'. subst st'. unfold App.handleScan.
  pose proof (tiktok_fetch_facts (App.fetch w) (App.math_random w)
                (App.apifyToken st) (App.channelUrl st) (App.resultsLimit st))
    as (_ & _ & Ht).
  pose proof (facebook_fetch_facts (App.fetch w) (App.date_now w)
                (App.apifyToken st) (App.channelUrl st) (App.resultsLimit st))
    as (_ & _ & Hf).
  destruct (includes _ "tiktok.com").
  - destruct (Apify.fetchTikTokData _ _ _ _ _) as [[vs | e] sent]; cbn in *.
    + right. repeat split. congruence.
    + left. repeat split. eauto.
  - destruct (includes _ "facebook.com" || includes _ "fb.com").
    + destruct (Apify.fetchFacebookData _ _ _ _ _) as [[vs | e] sent];
        cbn in *.
      * right. repeat split. congruence.
      * left. repeat split. eauto.
    + cbn. left. repeat split. eauto.
Qed.

(** X11: with an empty Apify token no request leaves [handleScan],
    whatever the channel URL; for a TikTok or Facebook URL the status
    line then names the missing token. *)
Theorem scan_without_token_sends_nothing :
  forall (w : App.ScanWorld) (st : App.AppState),
  App.apifyToken st = EmptyString ->
  snd (App.handleScan w st) = []
  /\ App.videos (fst (App.handleScan w st)) = []
  /\ App.step (fst (App.handleScan w st)) = App.step st
  /\ (includes (toLowerCase (trim (App.channelUrl st))) "tiktok.com" = true
      \/ includes (toLowerCase (trim (App.channelUrl st))) "facebook.com" = true
      \/ includes (toLowerCase (trim (App.channelUrl st))) "fb.com" = true ->
      App.status (fst (App.handleScan w st))
      = "Lỗi quét: " +:+ Apify.token_required_message).
Proof.
  intros w st Htoken. unfold App.handleScan.
  pose proof (tiktok_fetch_facts (App.fetch w) (App.math_random w)
                (App.apifyToken st) (App.channelUrl st) (App.resultsLimit st))
    as (_ & Ht & _).
  pose proof (facebook_fetch_facts (App.fetch w) (App.date_now w)
                (App.apifyToken st) (App.channelUrl st) (App.resultsLimit st))
    as (_ & Hf & _).
  rewrite (Ht Htoken), (Hf Htoken).
  destruct (includes _ "tiktok.com") eqn:E1; cbn.
  - repeat split.
  - destruct (includes _ "facebook.com") eqn:E2;
      [| destruct (includes _ "fb.com") eqn:E3]; cbn; repeat split;
      intros [Hx | [Hx | Hx]]; congruence.
Qed.

End ScanOutcome.

(** ** The controller: a run, whatever the operator does *)

Section AnyRun.
Context `{JsRuntime}.
Import Props.

Variable w : App.TranscribeWorld.
Variable key : string.
Variable links : gmap string string.
Variable total : nat.

(** What one iteration changes and what it leaves alone, with or
    without Stop being pressed. *)
Lemma process_item_effect (i : nat) (video : Types.SocialVideo) (n : nat)
    (st : App.AppState) :
  let r := attempt w key links i video in
  let out := App.process_item w key links total i video n st in
  fst (fst out) = (if is_success r then S n else n)
  /\ App.transcriptStates (snd (fst out))
     = <[App.video_url video := entry_of r]> (App.transcriptStates st)
  /\ App.transcriptCache (snd (fst out))
     = record_cache [(App.video_url video, r)] (App.transcriptCache st)
  /\ App.videos (snd (fst out)) = App.videos st
  /\ App.mp3Links (snd (fst out)) = App.mp3Links st
  /\ App.googleApiKey (snd (fst out)) = App.googleApiKey st
  /\ App.isProcessing (snd (fst out)) = App.isProcessing st
  /\ App.step (snd (fst out)) = App.step st
  /\ (snd out = item_block w key links i video
      \/ snd out = (item_block w key links i video
                    ++ [App.Slept App.API_CALL_DELAY_MS])%list)
  /\ (snd out = (item_block w key links i video
                 ++ [App.Slept App.API_CALL_DELAY_MS])%list ->
      (i < total - 1)%nat).
Proof.
  intros r out. subst out r. rewrite process_item_closed_form.
  fold (attempt w key links i video).
  fold (item_block w key links i video).
  destruct (item_block_facts w key links i video) as (_ & Hp & _).
  assert (Hnot : item_block w key links i video
                 <> (item_block w key links i video
                     ++ [App.Slept App.API_CALL_DELAY_MS])%list).
  { intros Heq. apply (f_equal (List.filter is_pause)) in Heq.
    rewrite List.filter_app, Hp in Heq. discriminate Heq. }
  generalize (pressed_mid_item w i
                (App.media w i
                   (default EmptyString (links !! App.video_url video)))).
  generalize (App.stop_pressed w i App.AtPause). intros b2 b1.
  destruct (i <? total - 1)%nat eqn:Hlt;
    [apply Nat.ltb_lt in Hlt | clear Hlt];
    destruct st as [stp gk at_ cu rl ip sts vs ml ts tc ri sr];
    destruct b1, b2, sr, (attempt w key links i video);
    cbn -[item_block]; repeat split; auto; intros Heq; congruence.
Qed.

(** The loop writes only under the URLs of the items it is given. *)
Lemma loop_frame (items : list Types.SocialVideo) :
  forall (i n : nat) (st : App.AppState),
  let st' := snd (fst (App.transcribe_loop w key links total i items n st)) in
  (forall u, ~ In u (map App.video_url items) ->
     App.transcriptStates st' !! u = App.transcriptStates st !! u
     /\ App.transcriptCache st' !! u = App.transcriptCache st !! u)
  /\ App.videos st' = App.videos st
  /\ App.mp3Links st' = App.mp3Links st
  /\ App.googleApiKey st' = App.googleApiKey st
  /\ App.isProcessing st' = App.isProcessing st
  /\ App.step st' = App.step st.
Proof.
  induction items as [| v rest IH]; intros i n st; cbv zeta.
  - simpl. repeat split; reflexivity.
  - destruct (App.stopRequest st) eqn:Hflag.
    + rewrite loop_stopped by exact Hflag. cbn [fst snd].
      destruct st; repeat split; reflexivity.
    + rewrite loop_step by exact Hflag.
      destruct (process_item_effect i v n st)
        as (_ & Hs & Hc & Hv & Hl & Hk & Hp & Hstep & _).
      destruct (App.process_item w key links total i v n st)
        as [[n1 st1] e1].
      specialize (IH (S i) n1 st1).
      destruct (App.transcribe_loop w key links total (S i) rest n1 st1)
        as [[n2 st2] e2].
      cbn [fst snd] in *.
      destruct IH as (Hframe & Hv2 & Hl2 & Hk2 & Hp2 & Hstep2).
      repeat split; try congruence.
      * destruct (Hframe u) as [Hs2 _]; [simpl in *; tauto |].
        rewrite Hs2, Hs. apply lookup_insert_ne. simpl in *. tauto.
      * destruct (Hframe u) as [_ Hc2]; [simpl in *; tauto |].
        rewrite Hc2, Hc. simpl.
        destruct (attempt w key links i v); [| reflexivity].
        apply lookup_insert_ne. simpl in *. tauto.
Qed.

(** The counts of a stretch of the loop that ends with the list. *)
Lemma loop_bounds (items : list Types.SocialVideo) :
  forall (i n : nat) (st : App.AppState),
  (i + length items = total)%nat ->
  let out := App.transcribe_loop w key links total i items n st in
  (downloads (snd out) <= length items)%nat
  /\ length (outcomes (snd out)) = downloads (snd out)
  /\ (generations (snd out) <= downloads (snd out))%nat
  /\ (n <= fst (fst out) <= n + downloads (snd out))%nat
  /\ (pauses (snd out) <= length items - 1)%nat
  /\ (pauses (snd out) <= downloads (snd out))%nat
  /\ total_delay (snd out)
     = (App.API_CALL_DELAY_MS * Z.of_nat (pauses (snd out)))%Z.
Proof.
  unfold pauses.
  induction items as [| v rest IH]; intros i n st Hlen; cbv zeta.
  - unfold downloads, generations. simpl. repeat split; lia.
  - destruct (App.stopRequest st) eqn:Hflag.
    + rewrite loop_stopped by exact Hflag. cbn [fst snd].
      unfold downloads, generations. simpl. repeat split; lia.
    + rewrite loop_step by exact Hflag.
      destruct (process_item_effect i v n st)
        as (Hn & _ & _ & _ & _ & _ & _ & _ & Hev & Hpause).
      destruct (item_block_facts w key links i v)
        as (Hd & Hp & Hdelay & Ho & Hg & _).
      destruct (App.process_item w key links total i v n st)
        as [[n1 st1] e1].
      specialize (IH (S i) n1 st1).
      destruct (App.transcribe_loop w key links total (S i) rest n1 st1)
        as [[n2 st2] e2].
      cbn [fst snd length] in *.
      destruct IH as (Hd2 & Ho2 & Hg2 & Hn2 & Hp2 & Hpd2 & Ht2); [lia |].
      rewrite downloads_app, outcomes_app, generations_app, total_delay_app,
        List.filter_app, !length_app, Ho2, Ht2.
      assert (Hn1 : (n <= n1 <= S n)%nat)
        by (rewrite Hn; destruct (is_success _); lia).
      destruct Hev as [-> | ->].
      * rewrite Hd, Hp, Hdelay, Ho. cbn [length].
        repeat split; lia.
      * specialize (Hpause eq_refl).
        rewrite downloads_app, outcomes_app, generations_app, total_delay_app,
          List.filter_app, !length_app, Hd, Hp, Hdelay, Ho.
        cbn [length outcomes total_delay List.filter is_pause app].
        unfold downloads, generations, App.API_CALL_DELAY_MS in *.
        cbn [List.filter is_download is_generate length].
        repeat split; lia.
Qed.

End AnyRun.

Section AnyRunTheorems.
Context `{JsRuntime}.
Import Props.

(** X12: whatever the outside world and the operator do, a run writes
    per-video states and cache entries only under the URLs of the
    eligible videos; it leaves the video list, the audio assignments and
    the key alone, and ends on the results step with [isProcessing]
    off. *)
Theorem run_writes_only_eligible_urls :
  forall (w : App.TranscribeWorld) (st0 : App.AppState),
  let st' := fst (App.handleTranscribe w st0) in
  (forall u, ~ In u (map App.video_url (to_process st0)) ->
     App.transcriptStates st' !! u = App.transcriptStates st0 !! u
     /\ App.transcriptCache st' !! u = App.transcriptCache st0 !! u)
  /\ App.videos st' = App.videos st0
  /\ App.mp3Links st' = App.mp3Links st0
  /\ App.googleApiKey st' = App.googleApiKey st0
  /\ App.isProcessing st' = false
  /\ App.step st' = Types.results.
Proof.
  intros w st0 st'. subst st'.
  destruct (to_process st0) as [| v rest] eqn:Hitems.
  - rewrite handleTranscribe_nothing by exact Hitems.
    destruct st0; repeat split; reflexivity.
  - rewrite handleTranscribe_run by congruence. rewrite Hitems.
    pose proof (loop_frame w (App.googleApiKey st0) (App.mp3Links st0)
                  (length (v :: rest)) (v :: rest) 0 0 (started st0))
      as (Hframe & Hv & Hl & Hk & _ & Hstep).
    destruct (App.transcribe_loop _ _ _ _ _ _ _ _) as [[n st] evs].
    cbn [fst snd] in *.
    assert (Hsame : forall x : App.AppState,
              App.transcriptStates
                (App.setIsProcessing false
                   (if negb (App.stopRequest st)
                    then App.setStatus (App.done_message n) st else st))
              = App.transcriptStates st
              /\ App.transcriptCache
                   (App.setIsProcessing false
                      (if negb (App.stopRequest st)
                       then App.setStatus (App.done_message n) st else st))
                 = App.transcriptCache st)
      by (intros _; destruct (negb _); split; reflexivity).
    destruct (Hsame st) as [-> ->].
    split; [exact Hframe |].
    destruct (negb (App.stopRequest st)); cbn; rewrite ?Hv, ?Hl, ?Hk, ?Hstep;
      repeat split; reflexivity.
Qed.

(** X13: in every run over N eligible videos there are at most N
    downloads, every attempt that was started has its outcome recorded,
    the Transcriber is called at most once per download, there are at
    most N-1 pauses and never more pauses than downloads, and the time
    paused is 6000 ms per pause. *)
Theorem run_bounds :
  forall (w : App.TranscribeWorld) (st0 : App.AppState),
  let evs := snd (App.handleTranscribe w st0) in
  (downloads evs <= length (to_process st0))%nat
  /\ length (outcomes evs) = downloads evs
  /\ (generations evs <= downloads evs)%nat
  /\ (pauses evs <= length (to_process st0) - 1)%nat
  /\ (pauses evs <= downloads evs)%nat
  /\ total_delay evs = (6000 * Z.of_nat (pauses evs))%Z.
Proof.
  intros w st0 evs. subst evs.
  destruct (to_process st0) as [| v rest] eqn:Hitems.
  - rewrite handleTranscribe_nothing by exact Hitems.
    unfold downloads, generations, pauses. simpl. repeat split; lia.
  - rewrite handleTranscribe_run by congruence. rewrite Hitems.
    pose proof (loop_bounds w (App.googleApiKey st0) (App.mp3Links st0)
                  (length (v :: rest)) (v :: rest) 0 0 (started st0) eq_refl)
      as (Hd & Ho & Hg & _ & Hp & Hpd & Ht).
    destruct (App.transcribe_loop _ _ _ _ _ _ _ _) as [[n st] evs].
    cbn [fst snd] in *. repeat split; assumption.
Qed.

(** X14: a request to stop made before the run is started has no
    effect on it: [handleTranscribe] clears the flag first. *)
Theorem stale_stop_request_is_cleared :
  forall (w : App.TranscribeWorld) (st : App.AppState),
  App.handleTranscribe w (App.handleStopProcessing st)
  = App.handleTranscribe w st.
Proof. intros w st. destruct st. reflexivity. Qed.

(** X15: when Stop is pressed for the first time while the last item
    is being downloaded or transcribed, every item is attempted and
    recorded, and the run writes neither the completion report nor the
    stop report: the status line still shows the request to stop. *)
Theorem stop_during_last_item_leaves_no_report :
  forall (w : App.TranscribeWorld) (st0 : App.AppState)
         (xs : list Types.SocialVideo) (v : Types.SocialVideo)
         (p : App.AwaitPoint),
  to_process st0 = (xs ++ [v])%list ->
  (forall j q, (j < length xs)%nat -> App.stop_pressed w j q = false) ->
  App.stop_pressed w (length xs) p = true ->
  p <> App.AtPause ->
  await_reached w (App.mp3Links st0) (length xs) v p ->
  downloads (snd (App.handleTranscribe w st0)) = S (length xs)
  /\ length (outcomes (snd (App.handleTranscribe w st0))) = S (length xs)
  /\ App.status (fst (App.handleTranscribe w st0)) = "Đang yêu cầu dừng..."
  /\ App.stopRequest (fst (App.handleTranscribe w st0)) = true
  /\ App.isProcessing (fst (App.handleTranscribe w st0)) = false.
Proof.
  intros w st0 xs v p Hitems Hquiet Hpress Hp Hreached.
  rewrite handleTranscribe_run by (rewrite Hitems; destruct xs; discriminate).
  rewrite Hitems, length_app. cbn [length].
  set (total := (length xs + 1)%nat).
  rewrite loop_quiet_prefix; [| reflexivity | intros j q Hj; apply Hquiet; lia].
  cbn [Nat.add].
  rewrite loop_step by (rewrite quiet_state_flag; reflexivity).
  rewrite process_item_closed_form.
  replace (length xs <? total - 1)%nat with false
    by (symmetry; apply Nat.ltb_ge; subst total; lia).
  cbn [andb App.transcribe_loop].
  assert (Hmid : pressed_mid_item w (length xs)
                   (App.media w (length xs)
                      (default EmptyString
                         (App.mp3Links st0 !! App.video_url v))) = true).
  { unfold pressed_mid_item. destruct p; simpl in Hreached;
      rewrite ?Hpress, ?Hreached; [reflexivity | apply orb_true_r | congruence]. }
  rewrite Hmid. cbn [App.press_stop].
  fold (item_block w (App.googleApiKey st0) (App.mp3Links st0) (length xs) v).
  cbn [fst snd].
  rewrite app_nil_r, downloads_app, outcomes_app, length_app,
    quiet_trace_downloads, quiet_trace_outcomes, length_map, results_length.
  destruct (item_block_facts w (App.googleApiKey st0) (App.mp3Links st0)
              (length xs) v) as (-> & _ & _ & -> & _).
  cbn [length fst snd].
  split; [lia |]. split; [lia |].
  destruct (quiet_state _ _ _ _ _ _ _); repeat split; reflexivity.
Qed.

End AnyRunTheorems.

(** ** Assignments, counters and the cache *)

Section Bookkeeping.
Context `{JsRuntime}.
Import Props.

Lemma handleScan_cache (w : App.ScanWorld) (st : App.AppState) :
  App.transcriptCache (fst (App.handleScan w st)) = App.transcriptCache st.
Proof.
  unfold App.handleScan.
  destruct (includes _ "tiktok.com").
  - destruct (Apify.fetchTikTokData _ _ _ _ _) as [[vs | e] sent]; reflexivity.
  - destruct (includes _ "facebook.com" || includes _ "fb.com");
      [| reflexivity].
    destruct (Apify.fetchFacebookData _ _ _ _ _) as [[vs | e] sent];
      reflexivity.
Qed.

(** X16: every handler keeps the cache free of empty entries: if all
    cached texts are non-empty before a scan, a run, a retry, a change of
    an audio link, a reset or a request to stop, they are so after it. *)
Theorem cache_holds_only_transcripts :
  forall st : App.AppState,
  cache_ok (App.transcriptCache st) ->
  (forall w, cache_ok (App.transcriptCache (fst (App.handleScan w st))))
  /\ (forall w, cache_ok (App.transcriptCache (fst (App.handleTranscribe w st))))
  /\ (forall fetched generate video,
        cache_ok (App.transcriptCache
                    (fst (App.handleRetry fetched generate video st))))
  /\ (forall url link,
        cache_ok (App.transcriptCache (App.handleMp3LinkChange url link st)))
  /\ cache_ok (App.transcriptCache (App.handleClearSession st))
  /\ cache_ok (App.transcriptCache (App.handleStopProcessing st)).
Proof.
  intros st Hok.
  split; [intros w; rewrite handleScan_cache; exact Hok |].
  split; [intros w; apply handleTranscribe_cache_ok; exact Hok |].
  split; [intros f g v; apply handleRetry_cache_ok; exact Hok |].
  repeat split; try intros; exact Hok.
Qed.

(** X17: after a reset the video list, the per-video states and the
    audio assignments are empty while the transcript cache and both
    credentials are kept, and a run started then has nothing to do: it
    sends nothing and says so. *)
Theorem run_after_reset_has_nothing_to_do :
  forall (w : App.TranscribeWorld) (st : App.AppState),
  let cleared := App.handleClearSession st in
  App.videos cleared = []
  /\ App.mp3Links cleared = ∅
  /\ App.transcriptStates cleared = ∅
  /\ App.transcriptCache cleared = App.transcriptCache st
  /\ App.googleApiKey cleared = App.googleApiKey st
  /\ App.apifyToken cleared = App.apifyToken st
  /\ App.step cleared = Types.scan
  /\ snd (App.handleTranscribe w cleared) = []
  /\ App.status (fst (App.handleTranscribe w cleared)) = App.nothing_message
  /\ App.transcriptCache (fst (App.handleTranscribe w cleared))
     = App.transcriptCache st.
Proof. intros w st. destruct st. cbn. repeat split; reflexivity. Qed.

(** X18: after the operator sets the audio link of a video, that video
    is eligible exactly when the link is not empty and its URL has no
    cached transcript; the eligibility of videos with another URL, the
    cache and the per-video states do not change. *)
Theorem link_change_controls_eligibility :
  forall (st : App.AppState) (v : Types.SocialVideo) (link : string),
  let st' := App.handleMp3LinkChange (App.video_url v) link st in
  App.mp3Links st' !! App.video_url v = Some link
  /\ App.eligible (App.mp3Links st') (App.transcriptCache st') v
     = nonempty link
       && negb (App.has_truthy (App.transcriptCache st) (App.video_url v))
  /\ (forall u, App.video_url u <> App.video_url v ->
        App.eligible (App.mp3Links st') (App.transcriptCache st') u
        = App.eligible (App.mp3Links st) (App.transcriptCache st) u)
  /\ App.transcriptCache st' = App.transcriptCache st
  /\ App.transcriptStates st' = App.transcriptStates st
  /\ App.videos st' = App.videos st.
Proof.
  intros st v link st'. subst st'. unfold App.handleMp3LinkChange.
  destruct st as [stp gk at_ cu rl ip sts vs ml ts tc ri sr]. cbn.
  split; [apply lookup_insert_eq |].
  split.
  - unfold App.eligible, App.has_truthy at 1.
    rewrite lookup_insert_eq. reflexivity.
  - split; [| repeat split; reflexivity].
    intros u Hu. unfold App.eligible, App.has_truthy.
    rewrite lookup_insert_ne by congruence. reflexivity.
Qed.

Lemma filter_partition_length {A : Type} (p q : A -> bool) (l : list A) :
  (length (List.filter (fun x => p x && negb (q x)) l)
   + length (List.filter (fun x => p x && q x) l))%nat
  = length (List.filter p l).
Proof.
  induction l as [| x l IH]; [reflexivity |].
  simpl. destruct (p x), (q x); simpl; lia.
Qed.

(** X19: the number of videos a run will process is the number shown on
    the start button, [matchedCount], less the matched videos that
    already have a cached transcript; when [matchedCount] is 0 (the
    button is then disabled) a run has nothing to do. *)
Theorem eligible_count_and_matched_count :
  forall st : App.AppState,
  (length (to_process st)
   + length (List.filter
               (fun v => App.has_truthy (App.mp3Links st) (App.video_url v)
                         && App.has_truthy (App.transcriptCache st)
                              (App.video_url v))
               (App.videos st)))%nat
  = App.matchedCount st
  /\ (length (to_process st) <= App.matchedCount st)%nat
  /\ (App.matchedCount st = 0%nat ->
      App.transcribeDisabled st = true
      /\ forall w, snd (App.handleTranscribe w st) = []).
Proof.
  intros st.
  pose proof (filter_partition_length
                (fun v => App.has_truthy (App.mp3Links st) (App.video_url v))
                (fun v => App.has_truthy (App.transcriptCache st)
                            (App.video_url v))
                (App.videos st)) as Hpart.
  cbv beta in Hpart. fold (App.matchedCount st) in Hpart.
  assert (Hto : to_process st
                = List.filter
                    (fun v => App.has_truthy (App.mp3Links st) (App.video_url v)
                              && negb (App.has_truthy (App.transcriptCache st)
                                         (App.video_url v)))
                    (App.videos st)) by reflexivity.
  rewrite <- Hto in Hpart. clear Hto.
  split; [exact Hpart |]. split; [lia |].
  intros Hzero. split.
  - unfold App.transcribeDisabled. rewrite Hzero. reflexivity.
  - intros w. rewrite handleTranscribe_nothing; [reflexivity |].
    destruct (to_process st); [reflexivity | simpl in Hpart; lia].
Qed.

End Bookkeeping.

(** ** The results table *)

Section Table.
Context `{JsRuntime}.
Import Props.

Lemma filter_split_length {A : Type} (g p : A -> bool) (l : list A) :
  length (List.filter g l)
  = (length (List.filter g (List.filter p l))
     + length (List.filter g (List.filter (fun x => negb (p x)) l)))%nat.
Proof.
  induction l as [| x l IH]; [reflexivity |].
  simpl. destruct (p x); simpl; destruct (g x); simpl; lia.
Qed.

Lemma successes_by_index (w : App.TranscribeWorld) (key : string)
    (links : gmap string string) (f : Types.SocialVideo -> bool)
    (items : list Types.SocialVideo) :
  forall i : nat,
  (forall j v, items !! j = Some v ->
     f v = is_success (attempt w key links (i + j) v)) ->
  length (List.filter f items) = successes (results w key links i items).
Proof.
  induction items as [| v rest IH]; intros i Hf; [reflexivity |].
  cbn [results List.filter]. rewrite successes_cons.
  pose proof (Hf 0%nat v eq_refl) as Hv. rewrite Nat.add_0_r in Hv.
  rewrite Hv, <- (IH (S i)).
  - destruct (is_success _); reflexivity.
  - intros j u Hj. replace (S i + j)%nat with (i + S j)%nat by lia.
    apply Hf. exact Hj.
Qed.

(** X20: after a run during which Stop is never pressed, over eligible
    videos with distinct URLs, the number of completed videos shown on
    the export button has grown by exactly the number of successful
    attempts, the number the status line reports. *)
Theorem completed_count_grows_by_successes :
  forall (w : App.TranscribeWorld) (st0 : App.AppState),
  (forall i p, App.stop_pressed w i p = false) ->
  NoDup (map App.video_url (to_process st0)) ->
  let rs := results w (App.googleApiKey st0) (App.mp3Links st0) 0
              (to_process st0) in
  App.completedCount (fst (App.handleTranscribe w st0))
  = (App.completedCount st0 + successes rs)%nat
  /\ (to_process st0 <> [] ->
      App.status (fst (App.handleTranscribe w st0))
      = App.done_message (successes rs)).
Proof.
  intros w st0 Hquiet Hnd rs.
  set (key := App.googleApiKey st0) in *.
  set (links := App.mp3Links st0) in *.
  set (cache0 := App.transcriptCache st0).
  set (items := to_process st0) in *.
  assert (Hst : App.videos (fst (App.handleTranscribe w st0)) = App.videos st0
                /\ App.transcriptCache (fst (App.handleTranscribe w st0))
                   = record_cache rs cache0
                /\ (items <> [] ->
                    App.status (fst (App.handleTranscribe w st0))
                    = App.done_message (successes rs))).
  { destruct items as [| v rest] eqn:Hitems.
    - rewrite handleTranscribe_nothing by exact Hitems.
      destruct st0; repeat split; try reflexivity. congruence.
    - rewrite handleTranscribe_quiet by (fold items; congruence).
      fold items key links. rewrite Hitems. fold rs. cbn [fst].
      split; [| split; [| reflexivity]].
      + pose proof (loop_frame w key links (length (v :: rest)) (v :: rest)
                      0 0 (started st0)) as (_ & Hv & _).
        rewrite loop_quiet in Hv; [| reflexivity | intros; apply Hquiet].
        cbn [fst snd] in Hv. destruct st0; exact Hv.
      + change (App.transcriptCache
                  (App.setIsProcessing false (App.setStatus _ ?s)))
          with (App.transcriptCache s).
        rewrite quiet_state_cache. destruct st0; reflexivity. }
  destruct Hst as (Hvideos & Hcache & Hstatus).
  split; [| exact Hstatus].
  unfold App.completedCount. rewrite Hvideos, Hcache.
  set (g' := fun v => App.has_truthy (record_cache rs cache0) (App.video_url v)).
  set (g0 := fun v => App.has_truthy (App.transcriptCache st0) (App.video_url v)).
  set (p := App.eligible links cache0).
  assert (Hnd' : NoDup (map fst rs)) by (subst rs; rewrite results_urls; exact Hnd).
  assert (Hp_g0 : forall v, p v = true -> g0 v = false).
  { intros v Hv. unfold p, App.eligible in Hv.
    apply andb_prop in Hv as [_ Hv]. apply negb_true_iff in Hv. exact Hv. }
  rewrite (filter_split_length g' p), (filter_split_length g0 p).
  change (List.filter p (App.videos st0)) with items.
  assert (H1 : List.filter g0 items = []).
  { apply filter_none. intros v Hv. apply Hp_g0.
    apply List.filter_In in Hv. tauto. }
  assert (H2 : List.filter g' (List.filter (fun x => negb (p x)) (App.videos st0))
               = List.filter g0
                   (List.filter (fun x => negb (p x)) (App.videos st0))).
  { apply List.filter_ext_in. intros v Hv.
    apply List.filter_In in Hv as [_ Hv]. apply negb_true_iff in Hv.
    unfold g', g0, App.has_truthy. rewrite record_cache_out; [reflexivity |].
    subst rs. rewrite results_urls. intros Hin.
    apply in_map_iff in Hin as (v' & Hurl & Hv').
    apply List.filter_In in Hv' as [_ Hv'].
    unfold p, App.eligible in *. rewrite Hurl in Hv'.
    fold links cache0 in Hv'. rewrite Hv in Hv'. discriminate. }
  assert (H3 : length (List.filter g' items) = successes rs).
  { subst rs. apply successes_by_index. intros j v Hj.
    pose proof (results_in w key links 0 j items v Hj) as Hin.
    unfold g', App.has_truthy.
    rewrite (record_cache_in _ _ _ _ Hnd' Hin). cbn [Nat.add].
    destruct (attempt w key links j v) as [t | e] eqn:Hr.
    - apply (two_phase_nonempty key _ _ _ Hr).
    - apply (Hp_g0 v). apply list_elem_of_lookup_2 in Hj.
      apply list_elem_of_In, List.filter_In in Hj. tauto. }
  rewrite H1, H2, H3. simpl. lia.
Qed.

(** X21: in the results table a cached transcript is shown whatever
    the per-video state says, and the retry button appears only for a
    video without a cache entry whose state is an error; the button is
    disabled while a run is processing or that video is being retried. *)
Theorem retry_is_offered_only_for_uncached_errors :
  forall (video : Types.SocialVideo) (st : App.AppState),
  (forall t, App.transcriptCache st !! App.video_url video = Some t ->
     App.transcriptContent video st = App.ShowTranscript t)
  /\ (forall message disabled retrying,
        App.transcriptContent video st
        = App.ShowError message disabled retrying ->
        App.transcriptCache st !! App.video_url video = None
        /\ App.transcriptStates st !! App.video_url video
           = Some {| Types.status := Types.error;
                     Types.entry_text := message |}
        /\ retrying = App.isRetrying video st
        /\ disabled = App.isProcessing st || App.isRetrying video st).
Proof.
  intros video st. unfold App.transcriptContent. split.
  - intros t ->. reflexivity.
  - intros message disabled retrying.
    destruct (App.transcriptCache st !! App.video_url video);
      [discriminate |].
    destruct (App.transcriptStates st !! App.video_url video)
      as [[status text] |];
      [destruct status |]; cbn;
      try (destruct (App.has_truthy _ _); discriminate);
      try discriminate.
    intros Heq. inversion Heq; subst. repeat split; reflexivity.
Qed.

Lemma handleRetry_result (fetched : string -> App.MediaOutcome)
    (generate : Gemini.GenerateRequest -> Gemini.GenerateOutcome)
    (video : Types.SocialVideo) (st : App.AppState) :
  App.has_truthy (App.mp3Links st) (App.video_url video) = true ->
  let url := App.video_url video in
  let r := fst (App.two_phase
                  (fetched (default EmptyString (App.mp3Links st !! url)))
                  generate (App.googleApiKey st)) in
  let st' := fst (App.handleRetry fetched generate video st) in
  App.transcriptStates st' = <[url := entry_of r]> (App.transcriptStates st)
  /\ App.transcriptCache st'
     = match r with
       | Returned transcript => <[url := transcript]> (App.transcriptCache st)
       | Threw _ => App.transcriptCache st
       end
  /\ App.retryingIds st'
     = App.set_delete (Types.id video)
         (App.set_add (Types.id video) (App.retryingIds st))
  /\ App.isProcessing st' = App.isProcessing st
  /\ App.mp3Links st' = App.mp3Links st
  /\ App.videos st' = App.videos st.
Proof.
  intros Hlink url r st'. subst st' r.
  unfold App.handleRetry, App.two_phase. rewrite Hlink. fold url.
  cbn [negb]. unfold Gemini.transcribeAudioWithGemini.
  destruct st as [stp gk at_ cu rl ip sts vs ml ts tc ri sr].
  cbn [App.googleApiKey App.mp3Links].
  destruct (App.getBase64FromUrl _) as [[base64 mime] | e];
    [destruct (negb (nonempty gk));
     [| destruct (Gemini.read_transcript _) as [t | e]] |];
    run_setters; rewrite ?insert_insert_eq; repeat split; reflexivity.
Qed.

Lemma not_retrying_after_delete (x : JsVal) (s : list JsVal) :
  existsb (js_same x) (App.set_delete x s) = false.
Proof.
  unfold App.set_delete. induction s as [| y s IH]; [reflexivity |].
  simpl. destruct (js_same x y) eqn:Hy; simpl; [exact IH |].
  rewrite Hy. exact IH.
Qed.

(** X22: what the row of a video shows after a retry (the video having
    an audio link): the transcript when the retry succeeded; when it
    failed and nothing is cached for the video, the error text "Lỗi: ..."
    with the retry button no longer marked as retrying and disabled only
    while a run is processing. *)
Theorem row_after_retry :
  forall (fetched : string -> App.MediaOutcome)
         (generate : Gemini.GenerateRequest -> Gemini.GenerateOutcome)
         (video : Types.SocialVideo) (st : App.AppState),
  App.has_truthy (App.mp3Links st) (App.video_url video) = true ->
  let r := fst (App.two_phase
                  (fetched (default EmptyString
                              (App.mp3Links st !! App.video_url video)))
                  generate (App.googleApiKey st)) in
  let st' := fst (App.handleRetry fetched generate video st) in
  App.isRetrying video st' = false
  /\ (forall t, r = Returned t ->
        App.transcriptContent video st' = App.ShowTranscript t)
  /\ (forall e, r = Threw e ->
        App.transcriptCache st !! App.video_url video = None ->
        App.transcriptContent video st'
        = App.ShowError ("Lỗi: " +:+ App.item_error_message e)
            (App.isProcessing st) false).
Proof.
  intros fetched generate video st Hlink r st'.
  destruct (handleRetry_result fetched generate video st Hlink)
    as (Hs & Hc & Hr & Hp & _).
  fold r in Hs, Hc. fold st' in Hs, Hc, Hr, Hp.
  assert (Hnot : App.isRetrying video st' = false).
  { unfold App.isRetrying. rewrite Hr. apply not_retrying_after_delete. }
  split; [exact Hnot |]. split.
  - intros t Ht. unfold App.transcriptContent. rewrite Hc, Ht.
    rewrite lookup_insert_eq. reflexivity.
  - intros e He Hnone. unfold App.transcriptContent.
    rewrite Hc, Hs, He, Hnone, lookup_insert_eq, Hnot, Hp. cbn.
    rewrite orb_false_r. reflexivity.
Qed.

(** X23: a video whose retry succeeded is not processed again: it is
    outside the eligible set of every later run, whatever audio link is
    assigned to it afterwards. *)
Theorem retried_video_is_not_processed_again :
  forall (fetched : string -> App.MediaOutcome)
         (generate : Gemini.GenerateRequest -> Gemini.GenerateOutcome)
         (video : Types.SocialVideo) (st : App.AppState) (t : string),
  App.has_truthy (App.mp3Links st) (App.video_url video) = true ->
  fst (App.two_phase
         (fetched (default EmptyString
                     (App.mp3Links st !! App.video_url video)))
         generate (App.googleApiKey st)) = Returned t ->
  let st' := fst (App.handleRetry fetched generate video st) in
  App.transcriptCache st' !! App.video_url video = Some t
  /\ t <> EmptyString
  /\ ~ In video (to_process st')
  /\ forall link,
       ~ In video
           (to_process (App.handleMp3LinkChange (App.video_url video) link st')).
Proof.
  intros fetched generate video st t Hlink Hr st'.
  destruct (handleRetry_result fetched generate video st Hlink)
    as (_ & Hc & _).
  fold st' in Hc. rewrite Hr in Hc.
  pose proof (two_phase_nonempty _ _ _ _ Hr) as Ht.
  assert (Hcached : App.transcriptCache st' !! App.video_url video = Some t)
    by (rewrite Hc; apply lookup_insert_eq).
  assert (Hel : forall links,
            App.eligible links (App.transcriptCache st') video = false).
  { intros links. unfold App.eligible, App.has_truthy.
    rewrite Hcached, Ht. apply andb_false_r. }
  split; [exact Hcached |].
  split; [destruct t; [discriminate Ht | discriminate] |].
  split; [| intros link]; unfold to_process; intros Hin;
    apply List.filter_In in Hin as [_ Hin].
  - rewrite Hel in Hin. discriminate.
  - change (App.transcriptCache (App.handleMp3LinkChange _ _ st'))
      with (App.transcriptCache st') in Hin.
    rewrite Hel in Hin. discriminate.
Qed.

End Table.

(** ** The further properties on the concrete scenarios *)

Section ConcreteFurther.
#[local] Existing Instance Demo.runtime.
Import Scenario Props.

(** A scan of the TikTok channel answered with one bare item sends the
    one request for the handle "kenh". *)
Lemma tiktok_scan_result_shape_witness :
  snd (Apify.fetchTikTokData (answers (JArr [bare_tiktok_item]))
         (fun _ => Demo.DInt 0) "apify-demo" "https://www.tiktok.com/@kenh"
         (Demo.DInt 20))
  = [Apify.tiktok_request "apify-demo"
       (Apify.tiktok_profileName "https://www.tiktok.com/@kenh")
       (Demo.DInt 20)].
Proof.
  assert (Hr : { vs | fst (Apify.fetchTikTokData
                             (answers (JArr [bare_tiktok_item]))
                             (fun _ => Demo.DInt 0) "apify-demo"
                             "https://www.tiktok.com/@kenh" (Demo.DInt 20))
                      = Returned vs })
    by (eexists; reflexivity).
  destruct Hr as [vs Hr].
  destruct (tiktok_scan_result_shape _ _ _ _ _ vs Hr)
    as (_ & _ & _ & _ & Hsent & _).
  exact Hsent.
Defined.

(** The same scan answered with a bare item and [null]. *)
Lemma tiktok_null_item_fails_the_scan_witness :
  fst (Apify.fetchTikTokData (answers (JArr [bare_tiktok_item; JNull]))
         (fun _ => Demo.DInt 0) "apify-demo" "https://www.tiktok.com/@kenh"
         (Demo.DInt 20))
  = Threw (ThrownError (type_error_message "id")).
Proof.
  apply (tiktok_null_item_fails_the_scan
           (answers (JArr [bare_tiktok_item; JNull])) (fun _ => Demo.DInt 0)
           "apify-demo" "https://www.tiktok.com/@kenh" (Demo.DInt 20)
           {| Apify.resp_ok := true; Apify.resp_statusText := "OK";
              Apify.resp_json := Returned (JArr [bare_tiktok_item; JNull]) |}
           [bare_tiktok_item; JNull] JNull).
  - discriminate.
  - discriminate.
  - reflexivity.
  - reflexivity.
  - reflexivity.
  - right. left. reflexivity.
  - reflexivity.
Defined.

(** A scan of a Facebook page answered with one bare video post: no
    look-up of a user id, one request to the actor. *)
Lemma facebook_scan_result_shape_witness :
  snd (Apify.fetchFacebookData (answers (JArr [bare_facebook_item]))
         (fun _ => Demo.DInt 1700000000000) "apify-demo" facebookChannel
         (Demo.DInt 20))
  = [Apify.facebook_request "apify-demo" facebookChannel (Demo.DInt 20)].
Proof.
  assert (Hr : { vs | fst (Apify.fetchFacebookData
                             (answers (JArr [bare_facebook_item]))
                             (fun _ => Demo.DInt 1700000000000) "apify-demo"
                             facebookChannel (Demo.DInt 20))
                      = Returned vs })
    by (eexists; reflexivity).
  destruct Hr as [vs Hr].
  destruct (facebook_scan_result_shape _ _ _ _ _ vs Hr)
    as (_ & _ & _ & _ & Hsent & _).
  exact Hsent.
Defined.

(** The address of a page given by its numeric id is converted. *)
Lemma uid_conversion_falls_back_witness :
  Apify.convertFacebookUidToUrl (answers lookup_answer) facebookProfile
  = (facebookChannel,
     [{| Apify.req_url := Apify.FINDUID_URL;
         Apify.req_contentType := "application/x-www-form-urlencoded";
         Apify.req_body := Apify.FormBody "uid=100012345678901" |}]).
Proof.
  destruct (uid_conversion_falls_back (answers lookup_answer) facebookProfile)
    as (_ & Hsent & _ & Hconv).
  apply injective_projections.
  - apply (Hconv {| pathname := "/profile.php";
                    search_id := Some "100012345678901" |}
             "100012345678901"
             {| Apify.resp_ok := true; Apify.resp_statusText := "OK";
                Apify.resp_json := Returned lookup_answer |}
             lookup_answer " kenh ").
    + vm_compute. reflexivity.
    + vm_compute. reflexivity.
    + vm_compute. reflexivity.
    + discriminate.
    + reflexivity.
    + reflexivity.
    + reflexivity.
    + reflexivity.
    + discriminate.
  - reflexivity.
Defined.

(** The backend refuses the token. *)
Lemma backend_error_is_surfaced_witness :
  fst (Apify.fetchTikTokData backend_refuses (fun _ => Demo.DInt 0)
         "apify-demo" "https://www.tiktok.com/@kenh" (Demo.DInt 20))
  = Threw (ThrownError
             "Apify API Error: User was not found or authentication token is not valid").
Proof.
  destruct (backend_error_is_surfaced backend_refuses (fun _ => Demo.DInt 0)
              "apify-demo" "https://www.tiktok.com/@kenh" (Demo.DInt 20)
              refusal
              (JObj [("error",
                      JObj [("type", JStr "user-or-token-not-found");
                            ("message",
                             JStr "User was not found or authentication token is not valid")])]))
    as [Hmessage _].
  - discriminate.
  - discriminate.
  - reflexivity.
  - reflexivity.
  - reflexivity.
  - reflexivity.
  - apply (Hmessage
             "User was not found or authentication token is not valid");
      [reflexivity | discriminate].
Defined.

(** Without a token nothing is sent, even when the network is down. *)
Lemma scan_without_token_sends_nothing_witness :
  snd (App.handleScan offline no_token_state) = [].
Proof.
  destruct (scan_without_token_sends_nothing offline no_token_state)
    as [Hsent _]; [reflexivity | exact Hsent].
Defined.

(** Stop pressed during the download of the second of two items. *)
Lemma stop_during_last_item_leaves_no_report_witness :
  downloads (snd (App.handleTranscribe stop_during_second matched_state))
  = 2%nat
  /\ App.status (fst (App.handleTranscribe stop_during_second matched_state))
     = "Đang yêu cầu dừng...".
Proof.
  destruct (stop_during_last_item_leaves_no_report stop_during_second
              matched_state [videoA] videoB App.AtDownload)
    as (Hd & _ & Hs & _).
  - reflexivity.
  - intros j q Hj. destruct j as [| j]; [reflexivity | simpl in Hj; lia].
  - reflexivity.
  - discriminate.
  - exact I.
  - split; [exact Hd | exact Hs].
Defined.

Lemma cached_state_ok : cache_ok (App.transcriptCache cached_state).
Proof.
  intros k t Hk.
  destruct (decide (urlA = k)) as [<- | Ha].
  - vm_compute in Hk. inversion Hk. reflexivity.
  - destruct (decide (urlB = k)) as [<- | Hb].
    + vm_compute in Hk. inversion Hk. reflexivity.
    + unfold cached_state in Hk. cbn in Hk.
      rewrite !lookup_insert_ne, lookup_empty in Hk by assumption.
      discriminate.
Qed.

(** The cache of two transcripts stays free of empty entries through a
    retry whose download fails. *)
Lemma cache_holds_only_transcripts_witness :
  cache_ok
    (App.transcriptCache
       (fst (App.handleRetry (fun _ => App.MediaRejects) hello videoB
               cached_state))).
Proof.
  destruct (cache_holds_only_transcripts cached_state cached_state_ok)
    as (_ & _ & Hretry & _).
  apply Hretry.
Defined.

(** A succeeds, the download of B fails: one more completed video. *)
Lemma completed_count_grows_by_successes_witness :
  App.completedCount (fst (App.handleTranscribe b_unreachable matched_state))
  = 1%nat.
Proof.
  destruct (completed_count_grows_by_successes b_unreachable matched_state)
    as [Hcount _].
  - intros i p. reflexivity.
  - apply (bool_decide_unpack (NoDup _)). vm_compute. exact I.
  - rewrite Hcount. vm_compute. reflexivity.
Defined.

(** The row of B after a retry whose download fails. *)
Lemma row_after_retry_witness :
  App.transcriptContent videoB
    (fst (App.handleRetry (fun _ => App.MediaRejects) hello videoB
            matched_state))
  = App.ShowError ("Lỗi: " +:+ App.download_failed_message) false false.
Proof.
  destruct (row_after_retry (fun _ => App.MediaRejects) hello videoB
              matched_state) as (_ & _ & Hfailed).
  - vm_compute. reflexivity.
  - apply (Hfailed (ThrownError App.download_failed_message));
      reflexivity.
Defined.

(** A retried with success: its transcript is cached. *)
Lemma retried_video_is_not_processed_again_witness :
  App.transcriptCache
    (fst (App.handleRetry (fun _ => audio) hello videoA matched_state))
  !! urlA = Some "xin chào".
Proof.
  destruct (retried_video_is_not_processed_again (fun _ => audio) hello
              videoA matched_state "xin chào") as (Hcached & _).
  - vm_compute. reflexivity.
  - reflexivity.
  - exact Hcached.
Defined.

End ConcreteFurther.
